(** * RepoMatch: skill normalisation, repository scoring and diversity ranking

    A shallow embedding of [lib/skills.ts] (class [SkillNormalizer]) and
    [lib/scoring.ts] (class [RepositoryScorer]), with the part of
    [lib/cache.ts] that [normalizeSkills] goes through, what
    [app/api/search/route.ts] does with a search result (pre-filter, ranking,
    sorting, pagination) and the analyses of [lib/data-enricher.ts] from the
    fetched input on.

    Conventions of the embedding.
    - A JavaScript [number] is an exact rational ([Q]); star, fork and issue
      counts are naturals ([N]); a timestamp is the millisecond count that
      [new Date(s).getTime()] yields ([Z]).
    - A string is a [string] of 8-bit characters; [toLowerCase] and [trim]
      act on the ASCII range.
    - A field that may be [null] or [undefined] is an [option]; an operation
      that raises a [TypeError] on [null]/[undefined] returns [Throw].
    - What the scorer reads from its surroundings ([Date.now()], [Math.log10],
      the comparator built on [Math.random()]) is gathered in a [Runtime]
      record that is passed explicitly.
    - A JavaScript [Map] is an association list in insertion order. *)

From Stdlib Require Import QArith ZArith NArith String Ascii List Bool Lia Lqa
  Qminmax Qabs Qround Permutation Sorted DecimalString.
Import ListNotations.

Open Scope string_scope.
Open Scope Q_scope.

(* ================================================================== *)
(** * JavaScript primitives *)
(* ================================================================== *)

Module JS.

(** ** Exceptions *)

Inductive result (A : Type) : Type :=
| Ok (a : A)
| Throw (msg : string).
Arguments Ok {A} a.
Arguments Throw {A} msg.

Definition bind {A B} (r : result A) (k : A -> result B) : result B :=
  match r with
  | Ok a => k a
  | Throw m => Throw m
  end.

Declare Scope js_scope.
Delimit Scope js_scope with js.
Notation "x <- c1 ;; c2" := (bind c1 (fun x => c2))
  (at level 61, c1 at next level, right associativity) : js_scope.
Open Scope js_scope.

Definition type_error {A} : result A :=
  Throw "TypeError: cannot read properties of null or undefined".

(** Member access [o.f] on a possibly missing object. *)
Definition deref {A} (o : option A) : result A :=
  match o with
  | Some a => Ok a
  | None => type_error
  end.

Fixpoint mapM {A B} (f : A -> result B) (l : list A) : result (list B) :=
  match l with
  | [] => Ok []
  | x :: l' => y <- f x ;; ys <- mapM f l' ;; Ok (y :: ys)
  end.

(** [g && e]: [e] is evaluated only when the guard is truthy. *)
Definition and_then (g : bool) (e : result bool) : result bool :=
  if g then e else Ok false.

(** ** Truthiness *)

Definition truthy_str (o : option string) : bool :=
  match o with
  | Some s => negb (s =? EmptyString)
  | None => false
  end.

(** Objects and arrays are truthy whenever they are present. *)
Definition truthy_obj {A} (o : option A) : bool :=
  match o with
  | Some _ => true
  | None => false
  end.

(** ** Strings *)

Definition lower_ascii (c : ascii) : ascii :=
  let n := nat_of_ascii c in
  if ((65 <=? n) && (n <=? 90))%nat then ascii_of_nat (n + 32) else c.

Fixpoint toLowerCase (s : string) : string :=
  match s with
  | EmptyString => EmptyString
  | String c s' => String (lower_ascii c) (toLowerCase s')
  end.

Definition is_space (c : ascii) : bool :=
  let n := nat_of_ascii c in
  ((9 <=? n) && (n <=? 13) || (n =? 32))%nat.

Fixpoint trimStart (s : string) : string :=
  match s with
  | EmptyString => EmptyString
  | String c s' => if is_space c then trimStart s' else s
  end.

Fixpoint trimEnd (s : string) : string :=
  match s with
  | EmptyString => EmptyString
  | String c s' =>
      let t := trimEnd s' in
      if is_space c && (t =? EmptyString) then EmptyString else String c t
  end.

Definition trim (s : string) : string := trimEnd (trimStart s).

(** [hay.includes(needle)]. *)
Fixpoint includes (hay needle : string) : bool :=
  prefix needle hay ||
  match hay with
  | EmptyString => false
  | String _ hay' => includes hay' needle
  end.

Definition is_digit (c : ascii) : bool :=
  let n := nat_of_ascii c in ((48 <=? n) && (n <=? 57))%nat.

(** [s.match(/\d+/)] is truthy. *)
Fixpoint has_digit (s : string) : bool :=
  match s with
  | EmptyString => false
  | String c s' => is_digit c || has_digit s'
  end.

(** [s.replace(/\d+/g, '')]. *)
Fixpoint strip_digits (s : string) : string :=
  match s with
  | EmptyString => EmptyString
  | String c s' => if is_digit c then strip_digits s' else String c (strip_digits s')
  end.

(** [arr.includes(x)] on an array of strings. *)
Definition arr_includes (arr : list string) (x : string) : bool :=
  existsb (String.eqb x) arr.

(** [arr.sort()] on strings: ascending by code unit. *)
Fixpoint sort_insert (x : string) (l : list string) : list string :=
  match l with
  | [] => [x]
  | y :: l' => if String.leb x y then x :: l else y :: sort_insert x l'
  end.

Definition sort_strings (l : list string) : list string :=
  fold_right sort_insert [] l.

(** ** Numbers *)

Definition Qltb (a b : Q) : bool := negb (Qle_bool b a).
Notation "a <=? b" := (Qle_bool a b) (at level 70) : Q_scope.
Notation "a <? b" := (Qltb a b) (at level 70) : Q_scope.
Definition ofN (n : N) : Q := inject_Z (Z.of_N n).
Definition ofNat (n : nat) : Q := inject_Z (Z.of_nat n).

(** ** Maps keyed by strings, in insertion order *)

Definition Map (V : Type) : Type := list (string * V).

Fixpoint map_get {V} (m : Map V) (k : string) : option V :=
  match m with
  | [] => None
  | (k', v) :: m' => if k' =? k then Some v else map_get m' k
  end.

(** [m.set(k, v)]: an existing key keeps its position. *)
Fixpoint map_set {V} (m : Map V) (k : string) (v : V) : Map V :=
  match m with
  | [] => [(k, v)]
  | (k', v') :: m' =>
      if k' =? k then (k', v) :: m' else (k', v') :: map_set m' k v
  end.

Definition map_values {V} (m : Map V) : list V := List.map snd m.
Definition map_entries {V} (m : Map V) : list (string * V) := m.

End JS.

Import JS.

(* ================================================================== *)
(** * lib/skills.ts *)
(* ================================================================== *)

Module Skills.

Inductive Category : Type :=
| language | framework | library | tool | concept | platform.

Definition Category_eqb (a b : Category) : bool :=
  match a, b with
  | language, language | framework, framework | library, library
  | tool, tool | concept, concept | platform, platform => true
  | _, _ => false
  end.

Record SkillNode : Type := mkSkillNode {
  name : string;
  aliases : list string;
  category : Category;
  related : list string;
  node_expanded : list string
}.

Record NormalizedSkill : Type := mkNormalizedSkill {
  original : string;
  normalized : string;
  skill_category : Category;
  expanded : list string;
  weight : Q
}.

(** The catalogue of [initializeSkillGraph]. *)
Definition catalog : list SkillNode :=
  [ mkSkillNode "javascript" ["js"; "ecmascript"] language
      ["typescript"; "nodejs"; "react"; "vue"; "angular"]
      ["javascript"; "js"; "ecmascript"; "frontend"; "web"; "browser"];
    mkSkillNode "typescript" ["ts"] language
      ["javascript"; "react"; "angular"; "nodejs"]
      ["typescript"; "ts"; "javascript"; "js"; "frontend"; "web"; "typed"];
    mkSkillNode "html" ["html5"] language
      ["css"; "javascript"; "web"]
      ["html"; "html5"; "markup"; "web"; "frontend"; "semantic"];
    mkSkillNode "css" ["css3"] language
      ["html"; "javascript"; "scss"; "sass"]
      ["css"; "css3"; "styling"; "web"; "frontend"; "design"];
    mkSkillNode "react" ["reactjs"] framework
      ["javascript"; "typescript"; "jsx"; "redux"]
      ["react"; "reactjs"; "javascript"; "js"; "frontend"; "web"; "ui";
       "component"; "jsx"; "hooks"];
    mkSkillNode "vue" ["vuejs"] framework
      ["javascript"; "typescript"; "nuxt"]
      ["vue"; "vuejs"; "javascript"; "js"; "frontend"; "web"; "ui"; "component"];
    mkSkillNode "angular" ["angularjs"] framework
      ["typescript"; "javascript"; "rxjs"]
      ["angular"; "angularjs"; "typescript"; "ts"; "javascript"; "js";
       "frontend"; "web"; "ui"; "component"];
    mkSkillNode "svelte" [] framework
      ["javascript"; "typescript"]
      ["svelte"; "javascript"; "js"; "frontend"; "web"; "ui"; "component"];
    mkSkillNode "python" ["py"] language
      ["django"; "flask"; "fastapi"; "pandas"; "numpy"]
      ["python"; "py"; "backend"; "server"; "scripting"; "data-science"];
    mkSkillNode "java" [] language
      ["spring"; "maven"; "gradle"]
      ["java"; "backend"; "server"; "enterprise"; "jvm"];
    mkSkillNode "go" ["golang"] language
      ["gin"; "echo"; "fiber"]
      ["go"; "golang"; "backend"; "server"; "microservice"; "concurrent"];
    mkSkillNode "rust" [] language
      ["actix"; "tokio"; "serde"]
      ["rust"; "backend"; "server"; "systems"; "performance"; "memory-safe"];
    mkSkillNode "php" [] language
      ["laravel"; "symfony"; "composer"]
      ["php"; "backend"; "server"; "web"];
    mkSkillNode "ruby" [] language
      ["rails"; "sinatra"; "bundler"]
      ["ruby"; "backend"; "server"; "web"; "rails"];
    mkSkillNode "nodejs" ["node"] platform
      ["javascript"; "express"; "koa"; "nestjs"]
      ["nodejs"; "node"; "javascript"; "js"; "backend"; "server"; "npm"];
    mkSkillNode "django" [] framework
      ["python"; "djangorestframework"]
      ["django"; "python"; "py"; "backend"; "server"; "web"; "mvc"; "orm"];
    mkSkillNode "flask" [] framework
      ["python"; "sqlalchemy"]
      ["flask"; "python"; "py"; "backend"; "server"; "web"; "microframework"];
    mkSkillNode "express" ["expressjs"] framework
      ["nodejs"; "javascript"]
      ["express"; "expressjs"; "nodejs"; "node"; "javascript"; "js";
       "backend"; "server"; "web"];
    mkSkillNode "spring" ["springboot"] framework
      ["java"; "maven"]
      ["spring"; "springboot"; "java"; "backend"; "server"; "enterprise";
       "dependency-injection"];
    mkSkillNode "postgresql" ["postgres"] tool
      ["sql"; "database"]
      ["postgresql"; "postgres"; "sql"; "database"; "db"; "relational"];
    mkSkillNode "mysql" [] tool
      ["sql"; "database"]
      ["mysql"; "sql"; "database"; "db"; "relational"];
    mkSkillNode "mongodb" ["mongo"] tool
      ["nosql"; "database"]
      ["mongodb"; "mongo"; "nosql"; "database"; "db"; "document"];
    mkSkillNode "redis" [] tool
      ["cache"; "database"]
      ["redis"; "cache"; "database"; "db"; "key-value"; "in-memory"];
    mkSkillNode "docker" [] tool
      ["kubernetes"; "containerization"]
      ["docker"; "container"; "containerization"; "devops"; "deployment"];
    mkSkillNode "kubernetes" ["k8s"] tool
      ["docker"; "containerization"]
      ["kubernetes"; "k8s"; "container"; "orchestration"; "devops"; "deployment"];
    mkSkillNode "aws" ["amazon web services"] platform
      ["cloud"; "devops"]
      ["aws"; "amazon web services"; "cloud"; "devops"; "infrastructure"];
    mkSkillNode "git" [] tool
      ["github"; "gitlab"]
      ["git"; "version-control"; "vcs"; "scm"];
    mkSkillNode "machine learning" ["ml"] concept
      ["python"; "tensorflow"; "pytorch"; "scikit-learn"]
      ["machine learning"; "ml"; "ai"; "artificial intelligence";
       "data-science"; "python"; "py"];
    mkSkillNode "tensorflow" ["tf"] library
      ["python"; "machine learning"]
      ["tensorflow"; "tf"; "python"; "py"; "machine learning"; "ml";
       "deep learning"; "neural network"];
    mkSkillNode "pytorch" [] library
      ["python"; "machine learning"]
      ["pytorch"; "python"; "py"; "machine learning"; "ml"; "deep learning";
       "neural network"];
    mkSkillNode "pandas" [] library
      ["python"; "data science"]
      ["pandas"; "python"; "py"; "data-science"; "data-analysis"; "dataframe"];
    mkSkillNode "react native" ["reactnative"] framework
      ["react"; "javascript"; "mobile"]
      ["react native"; "reactnative"; "react"; "javascript"; "js"; "mobile";
       "ios"; "android"; "cross-platform"];
    mkSkillNode "flutter" [] framework
      ["dart"; "mobile"]
      ["flutter"; "dart"; "mobile"; "ios"; "android"; "cross-platform"; "ui"];
    mkSkillNode "swift" [] language
      ["ios"; "mobile"]
      ["swift"; "ios"; "mobile"; "apple"; "objective-c"];
    mkSkillNode "kotlin" [] language
      ["android"; "mobile"]
      ["kotlin"; "android"; "mobile"; "jvm"; "java"] ].

(** [for (const skill of skills) this.skillGraph.set(skill.name.toLowerCase(), skill)] *)
Definition initializeSkillGraph (skills : list SkillNode) : Map SkillNode :=
  fold_left (fun g skill => map_set g (toLowerCase (name skill)) skill) skills [].

Definition skillGraph : Map SkillNode := initializeSkillGraph catalog.

(** The table of [generateVariations], in the order of [Object.entries]. *)
Definition abbreviations : list (string * list string) :=
  [ ("javascript", ["js"]);
    ("typescript", ["ts"]);
    ("python", ["py"]);
    ("react", ["reactjs"]);
    ("vue", ["vuejs"]);
    ("angular", ["angularjs"]);
    ("node", ["nodejs"]);
    ("machine learning", ["ml"; "machinelearning"]);
    ("artificial intelligence", ["ai"]);
    ("user interface", ["ui"]);
    ("user experience", ["ux"]);
    ("application programming interface", ["api"]);
    ("representational state transfer", ["rest"]);
    ("graphql", ["gql"]);
    ("cascading style sheets", ["css"]);
    ("hypertext markup language", ["html"]) ].

Definition generateVariations (skill : string) : list string :=
  let variations := [skill] in
  let variations :=
    fold_left
      (fun vars entry =>
         let '(full, abbrevs) := entry in
         let vars := if includes skill full then (vars ++ abbrevs)%list else vars in
         fold_left
           (fun vars abbrev =>
              if includes skill abbrev then (vars ++ [full])%list else vars)
           abbrevs vars)
      abbreviations variations in
  if has_digit skill
  then (variations ++ [strip_digits skill])%list
  else (variations ++
        [(skill ++ "3")%string; (skill ++ "2")%string; (skill ++ "1")%string])%list.

Fixpoint first_match (graph : Map SkillNode) (variations : list string)
  : option SkillNode :=
  match variations with
  | [] => None
  | variation :: rest =>
      match map_get graph variation with
      | Some m => Some m
      | None => first_match graph rest
      end
  end.

Definition findFuzzyMatch (graph : Map SkillNode) (skill : string)
  : option SkillNode :=
  first_match graph (generateVariations skill).

(** The alias loop of [normalizeSkill]: the first entry, in the map's order,
    one of whose aliases is the token. *)
Fixpoint findAlias (entries : list (string * SkillNode)) (cleanSkill : string)
  : option SkillNode :=
  match entries with
  | [] => None
  | (_, node) :: rest =>
      if arr_includes (aliases node) cleanSkill then Some node
      else findAlias rest cleanSkill
  end.

Definition normalizeSkill (graph : Map SkillNode) (skill : string)
  : option NormalizedSkill :=
  let cleanSkill := toLowerCase (trim skill) in
  if cleanSkill =? EmptyString then None else
  match map_get graph cleanSkill with
  | Some directMatch =>
      Some (mkNormalizedSkill skill (name directMatch) (category directMatch)
              (node_expanded directMatch) 1.0)
  | None =>
      match findAlias (map_entries graph) cleanSkill with
      | Some node =>
          Some (mkNormalizedSkill skill (name node) (category node)
                  (node_expanded node) 0.9)
      | None =>
          match findFuzzyMatch graph cleanSkill with
          | Some fuzzyMatch =>
              Some (mkNormalizedSkill skill (name fuzzyMatch)
                      (category fuzzyMatch) (node_expanded fuzzyMatch) 0.8)
          | None =>
              Some (mkNormalizedSkill skill cleanSkill concept [cleanSkill] 0.5)
          end
      end
  end.

(** ** The memo of lib/cache.ts, as far as [normalizeSkills] uses it *)

Definition Redis : Type := Map (list NormalizedSkill).

(** [skills.sort().join(',')]: the caller's array is sorted in place, so the
    sorted array is returned next to the key.  The base64 step, an injective
    renaming of keys, is left out. *)
Definition getSkillKey (skills : list string) : list string * string :=
  let sorted := sort_strings skills in
  (sorted, "skills:" ++ String.concat "," sorted).

Definition getSkillNormalization (redis : Redis) (skills : list string)
  : list string * option (list NormalizedSkill) :=
  let '(skills, key) := getSkillKey skills in
  (skills, map_get redis key).

Definition setSkillNormalization (redis : Redis) (skills : list string)
  (data : list NormalizedSkill) : Redis :=
  let '(_, key) := getSkillKey skills in
  map_set redis key data.

Definition set_weight (s : NormalizedSkill) (w : Q) : NormalizedSkill :=
  mkNormalizedSkill (original s) (normalized s) (skill_category s) (expanded s) w.

(** One turn of the loop of [normalizeSkills]; [has(key)] and [get(key)] are
    the one lookup [map_get]. *)
Definition normalizeStep (graph : Map SkillNode)
  (normalizedSkills : Map NormalizedSkill) (skill : string)
  : Map NormalizedSkill :=
  match normalizeSkill graph skill with
  | Some normalized_ =>
      let key := toLowerCase (normalized normalized_) in
      match map_get normalizedSkills key with
      | None => map_set normalizedSkills key normalized_
      | Some existing =>
          map_set normalizedSkills key
            (set_weight existing (weight existing + weight normalized_))
      end
  | None => normalizedSkills
  end.

Definition normalizeSkills (redis : Redis) (skills : list string)
  : list NormalizedSkill * Redis :=
  match skills with
  | [] => ([], redis)
  | _ =>
      let '(skills, cachedSkills) := getSkillNormalization redis skills in
      match cachedSkills with
      | Some cached => (cached, redis)
      | None =>
          let normalizedSkills := fold_left (normalizeStep skillGraph) skills [] in
          let result := map_values normalizedSkills in
          (result, setSkillNormalization redis skills result)
      end
  end.

Definition skillKey (s : NormalizedSkill) : string := toLowerCase (normalized s).

(** [set.add(x)] on a [Set] of strings, kept in insertion order. *)
Definition set_add (set : list string) (x : string) : list string :=
  if arr_includes set x then set else (set ++ [x])%list.

Definition getExpandedSkills (skills : list NormalizedSkill) : list string :=
  fold_left
    (fun expanded_ skill =>
       fold_left set_add (expanded skill) (set_add expanded_ (normalized skill)))
    skills [].

(** The string a category is in the source. *)
Definition categoryName (c : Category) : string :=
  match c with
  | language => "language"
  | framework => "framework"
  | library => "library"
  | tool => "tool"
  | concept => "concept"
  | platform => "platform"
  end.

(** [categories[c] = (categories[c] || 0) + 1] *)
Definition countCategory (categories : Map nat) (c : Category) : Map nat :=
  map_set categories (categoryName c)
    (match map_get categories (categoryName c) with
     | Some n => n
     | None => O
     end + 1)%nat.

Definition getSkillStats (graph : Map SkillNode) : nat * Map nat :=
  let categories :=
    fold_left (fun categories entry => countCategory categories (category (snd entry)))
      graph [] in
  (length graph, categories).

End Skills.

Import Skills.


(* ================================================================== *)
(** * lib/scoring.ts *)
(* ================================================================== *)

Module Scoring.

(** ** The repository record of lib/github.ts, with the enrichment blocks of
    lib/data-enricher.ts. Only the fields the scorer reads are kept, next to
    the identity of the repository. *)

Record License : Type := mkLicense { license_name : option string }.

Record CommitAnalysis : Type := mkCommitAnalysis {
  frequency : Q;
  recency : Q;
  contributorDistribution : Q;
  averageCommitSize : Q;
  commitMessageQuality : Q;
  branchActivity : Q
}.

Record IssueAnalysis : Type := mkIssueAnalysis {
  responseTime : Q;
  resolutionRate : Q;
  maintainerActivity : Q;
  communityEngagement : Q;
  issueQuality : Q;
  labelUsage : Q
}.

Record DependencyAnalysis : Type := mkDependencyAnalysis {
  healthScore : Q;
  securityScore : Q;
  updateFrequency : Q;
  dependencyCount : Q;
  outdatedDependencies : Q;
  licenseCompatibility : Q
}.

Record ReadmeAnalysis : Type := mkReadmeAnalysis {
  contentQuality : Q;
  skillKeywords : option (list string);
  projectType : string;
  complexity : Q;
  learningResources : Q;
  setupDifficulty : Q
}.

Record EnrichedRepositoryData : Type := mkEnriched {
  commitAnalysis : option CommitAnalysis;
  issueAnalysis : option IssueAnalysis;
  dependencyAnalysis : option DependencyAnalysis;
  readmeAnalysis : option ReadmeAnalysis
}.

Record RepositoryDetails : Type := mkRepo {
  id : N;
  full_name : string;
  description : option string;
  stargazers_count : N;
  forks_count : N;
  open_issues_count : N;
  language : option string;
  topics : option (list string);
  goodFirstIssues : N;
  created_at : Z;
  updated_at : Z;
  pushed_at : Z;
  homepage : option string;
  license : option License;
  enrichedData : option EnrichedRepositoryData
}.

Record ScoringWeights : Type := mkWeights {
  w_relevance : Q;
  w_quality : Q;
  w_opportunity : Q
}.

(** [Partial<ScoringWeights>] *)
Record PartialWeights : Type := mkPartialWeights {
  p_relevance : option Q;
  p_quality : option Q;
  p_opportunity : option Q
}.

Inductive Mode : Type := profile_building | learning | quick_wins.

Record ScoringOptions : Type := mkOptions {
  mode : option Mode;
  weights : option PartialWeights;
  minStars : option N;
  maxStars : option N
}.

Record Breakdown : Type := mkBreakdown {
  languageMatch : Q;
  topicMatch : Q;
  readmeMatch : Q;
  starsScore : Q;
  activityScore : Q;
  documentationScore : Q;
  issueScore : Q;
  contributorScore : Q;
  commitActivityScore : Q;
  issueResponseScore : Q;
  dependencyHealthScore : Q;
  readmeQualityScore : Q;
  skillMatchScore : Q
}.

Record RepositoryScore : Type := mkScore {
  relevance : Q;
  quality : Q;
  opportunity : Q;
  final : Q;
  breakdown : Breakdown
}.

Record ScoredRepo : Type := mkScored {
  repo : RepositoryDetails;
  score : RepositoryScore
}.

(** What the scorer reads from outside its arguments. One call of
    [scoreRepository] reads the clock several times in a row; the readings
    are taken as one instant [now]. [shuffle i g] is the order in which
    [g.sort(() => Math.random() - 0.5)] leaves the group that starts at
    position [i]. *)
Record Runtime : Type := mkRuntime {
  now : Z;
  log10 : Q -> Q;
  shuffle : nat -> list ScoredRepo -> list ScoredRepo;
  shuffle_perm : forall i g, Permutation (shuffle i g) g
}.

Definition msPerDay : Q := 1000 * 60 * 60 * 24.

(** [(Date.now() - new Date(t).getTime()) / (1000 * 60 * 60 * 24)] *)
Definition daysSince (rt : Runtime) (t : Z) : Q :=
  inject_Z (now rt - t) / msPerDay.

Definition mode_is (options : ScoringOptions) (m : Mode) : bool :=
  match mode options, m with
  | Some profile_building, profile_building
  | Some learning, learning
  | Some quick_wins, quick_wins => true
  | _, _ => false
  end.

Definition getModeWeights (m : Mode) : ScoringWeights :=
  match m with
  | learning => mkWeights 0.3 0.5 0.2
  | quick_wins => mkWeights 0.2 0.1 0.7
  | profile_building => mkWeights 0.6 0.3 0.1
  end.

(** [{ ...modeWeights, ...options.weights }] *)
Definition spreadWeights (modeWeights : ScoringWeights)
  (overrides : option PartialWeights) : ScoringWeights :=
  match overrides with
  | None => modeWeights
  | Some p =>
      mkWeights
        (match p_relevance p with Some x => x | None => w_relevance modeWeights end)
        (match p_quality p with Some x => x | None => w_quality modeWeights end)
        (match p_opportunity p with Some x => x | None => w_opportunity modeWeights end)
  end.

Definition isLanguage (str : string) : bool :=
  arr_includes
    ["javascript"; "typescript"; "python"; "java"; "c++"; "c#"; "go"; "rust";
     "php"; "ruby"; "swift"; "kotlin"; "scala"; "clojure"; "haskell"; "elixir";
     "dart"; "r"; "matlab"; "perl"; "lua"; "shell"; "powershell"; "html"; "css";
     "scss"; "sass"; "less"; "vue"; "react"; "angular"; "svelte"]
    (toLowerCase str).

Definition isEmpty {A} (l : list A) : bool :=
  match l with [] => true | _ => false end.

(** [[skill.normalized, ...skill.expanded]] over all skills, lowercased *)
Definition skillWords (skills : list NormalizedSkill) : list string :=
  map toLowerCase (flat_map (fun skill => normalized skill :: expanded skill) skills).

Definition calculateLanguageMatch (repo : RepositoryDetails)
  (skills : list NormalizedSkill) : result Q :=
  if negb (truthy_str (language repo)) || isEmpty skills then Ok 0 else
  lang <- deref (language repo) ;;
  let repoLanguage := toLowerCase lang in
  let skillLanguages :=
    map (fun skill => toLowerCase (normalized skill))
      (filter (fun skill => Category_eqb (skill_category skill) Skills.language) skills) in
  if arr_includes skillLanguages repoLanguage then Ok 1.0 else
  let expandedLanguages :=
    map toLowerCase (filter isLanguage (flat_map expanded skills)) in
  if arr_includes expandedLanguages repoLanguage then Ok 0.8 else
  let relatedLanguages :=
    filter (fun e => includes e repoLanguage || includes repoLanguage e)
      (flat_map expanded skills) in
  Ok (if (0 <? length relatedLanguages)%nat then 0.6 else 0).

Definition calculateTopicMatch (repo : RepositoryDetails)
  (skills : list NormalizedSkill) : result Q :=
  if negb (truthy_obj (topics repo)) then Ok 0 else
  ts <- deref (topics repo) ;;
  if isEmpty ts || isEmpty skills then Ok 0 else
  let repoTopics := map toLowerCase ts in
  let skillTopics := skillWords skills in
  let matches :=
    filter
      (fun topic =>
         existsb
           (fun skillTopic =>
              String.eqb topic skillTopic || includes topic skillTopic
              || includes skillTopic topic)
           skillTopics)
      repoTopics in
  let matchRatio := ofNat (length matches) / ofNat (Nat.max (length repoTopics) 1) in
  Ok (Qmin (matchRatio * 2) 1.0).

Definition calculateReadmeMatch (repo : RepositoryDetails)
  (skills : list NormalizedSkill) : result Q :=
  if negb (truthy_str (description repo)) || isEmpty skills then Ok 0 else
  d <- deref (description repo) ;;
  let description_ := toLowerCase d in
  let skillKeywords_ := skillWords skills in
  let matches := filter (fun keyword => includes description_ keyword) skillKeywords_ in
  let matchRatio := ofNat (length matches) / ofNat (length skillKeywords_) in
  Ok (Qmin (matchRatio * 3) 1.0).

Definition calculateStarsScore (stars : N) : Q :=
  if (stars =? 0)%N then 0 else
  if (20000 <? stars)%N then 0.5 else
  if (5000 <? stars)%N then 0.6 else
  if (1000 <? stars)%N then 0.7 else
  Qmin (ofN stars / 1000) 0.7.

(** [Math.max(updatedAt.getTime(), pushedAt.getTime())] *)
Definition lastActivity (repo : RepositoryDetails) : Z :=
  Z.max (updated_at repo) (pushed_at repo).

Definition calculateActivityScore (rt : Runtime) (repo : RepositoryDetails) : Q :=
  let daysSinceActivity := daysSince rt (lastActivity repo) in
  let baseScore :=
    if daysSinceActivity <=? 1 then 1.0
    else if daysSinceActivity <=? 7 then 0.95
    else if daysSinceActivity <=? 30 then 0.8
    else if daysSinceActivity <=? 90 then 0.6
    else if daysSinceActivity <=? 365 then 0.3
    else 0.1 in
  let baseScore :=
    if daysSinceActivity <=? 3 then baseScore + 0.05 else baseScore in
  Qmin baseScore 1.0.

Definition strlen (s : string) : nat := String.length s.

Definition calculateDocumentationScore (repo : RepositoryDetails) : result Q :=
  let score := 0 in
  c <- and_then (truthy_str (description repo))
         (d <- deref (description repo) ;; Ok (20 <? strlen d)%nat) ;;
  let score := if c then score + 0.3 else score in
  let score := if truthy_str (homepage repo) then score + 0.2 else score in
  c <- and_then (truthy_obj (license repo))
         (l <- deref (license repo) ;;
          Ok (match license_name l with
              | Some n => negb (String.eqb n "Other")
              | None => true
              end)) ;;
  let score := if c then score + 0.2 else score in
  c <- and_then (truthy_obj (topics repo))
         (ts <- deref (topics repo) ;; Ok (0 <? length ts)%nat) ;;
  let score := if c then score + 0.1 else score in
  let score := if (0 <? goodFirstIssues repo)%N then score + 0.2 else score in
  Ok (Qmin score 1.0).

Definition calculateIssueScore (repo : RepositoryDetails) : Q :=
  let totalIssues := open_issues_count repo in
  let goodFirstIssues_ := goodFirstIssues repo in
  if (totalIssues =? 0)%N then 0.5 else
  let issueDensity := ofN goodFirstIssues_ / ofN totalIssues in
  let baseScore :=
    if 0.1 <=? issueDensity then 1.0
    else if 0.05 <=? issueDensity then 0.8
    else if 0.02 <=? issueDensity then 0.6
    else if 0 <? issueDensity then 0.4
    else 0.2 in
  let activityBonus := Qmin (ofN totalIssues / 20) 0.1 in
  Qmin (baseScore + activityBonus) 1.0.

Definition calculateContributorScore (repo : RepositoryDetails) : Q :=
  let forks := forks_count repo in
  let stars := stargazers_count repo in
  let forkScore := Qmin (ofN forks / 100) 1.0 * 0.6 in
  let starScore := Qmin (ofN stars / 1000) 1.0 * 0.4 in
  forkScore + starScore.

(** [o?.f] *)
Definition opt_chain {A B} (o : option A) (f : A -> option B) : option B :=
  match o with
  | Some a => f a
  | None => None
  end.

Definition calculateCommitActivityScore (repo : RepositoryDetails) : result Q :=
  if negb (truthy_obj (opt_chain (enrichedData repo) commitAnalysis)) then Ok 0 else
  e <- deref (enrichedData repo) ;;
  c <- deref (commitAnalysis e) ;;
  let frequencyScore := Qmin (frequency c / 5) 1 in
  let recencyScore := Qmax 0 (1 - recency c / 30) in
  let activityScore_ :=
    frequencyScore * 0.3 +
    recencyScore * 0.3 +
    contributorDistribution c * 0.2 +
    commitMessageQuality c * 0.1 +
    branchActivity c * 0.1 in
  Ok (Qmin activityScore_ 1).

Definition calculateIssueResponseScore (repo : RepositoryDetails) : result Q :=
  if negb (truthy_obj (opt_chain (enrichedData repo) issueAnalysis)) then Ok 0 else
  e <- deref (enrichedData repo) ;;
  a <- deref (issueAnalysis e) ;;
  let responseScore := Qmax 0 (1 - responseTime a / 24) in
  let responseQualityScore :=
    responseScore * 0.3 +
    resolutionRate a * 0.25 +
    maintainerActivity a * 0.2 +
    communityEngagement a * 0.15 +
    issueQuality a * 0.05 +
    labelUsage a * 0.05 in
  Ok (Qmin responseQualityScore 1).

Definition calculateDependencyHealthScore (repo : RepositoryDetails) : result Q :=
  if negb (truthy_obj (opt_chain (enrichedData repo) dependencyAnalysis)) then Ok 0 else
  e <- deref (enrichedData repo) ;;
  a <- deref (dependencyAnalysis e) ;;
  let outdatedRatio :=
    if 0 <? dependencyCount a then outdatedDependencies a / dependencyCount a else 0 in
  let outdatedScore := Qmax 0 (1 - outdatedRatio) in
  let dependencyScore :=
    healthScore a * 0.3 +
    securityScore a * 0.25 +
    updateFrequency a * 0.15 +
    outdatedScore * 0.2 +
    licenseCompatibility a * 0.1 in
  Ok (Qmin dependencyScore 1).

Definition calculateReadmeQualityScore (repo : RepositoryDetails) : result Q :=
  if negb (truthy_obj (opt_chain (enrichedData repo) readmeAnalysis)) then Ok 0 else
  e <- deref (enrichedData repo) ;;
  a <- deref (readmeAnalysis e) ;;
  let learningScore := Qmin (learningResources a / 5) 1 in
  let setupScore := Qmax 0 (1 - setupDifficulty a) in
  let readmeScore :=
    contentQuality a * 0.5 +
    learningScore * 0.3 +
    setupScore * 0.2 in
  Ok (Qmin readmeScore 1).

(** [readmeSkills.some(r => r.toLowerCase().includes(s) || s.includes(r.toLowerCase()))] *)
Definition readmeMentions (readmeSkills : list string) (s : string) : bool :=
  existsb
    (fun readmeSkill =>
       includes (toLowerCase readmeSkill) s || includes s (toLowerCase readmeSkill))
    readmeSkills.

Definition calculateSkillMatchScore (repo : RepositoryDetails)
  (skills : list NormalizedSkill) : result Q :=
  if negb (truthy_obj
             (opt_chain (opt_chain (enrichedData repo) readmeAnalysis) skillKeywords))
     || isEmpty skills then Ok 0 else
  e <- deref (enrichedData repo) ;;
  a <- deref (readmeAnalysis e) ;;
  readmeSkills <- deref (skillKeywords a) ;;
  let userSkills := map (fun skill => toLowerCase (normalized skill)) skills in
  let userExpandedSkills :=
    flat_map (fun skill => map toLowerCase (expanded skill)) skills in
  let matches := 0 in
  let totalSkills := length userSkills in
  let matches :=
    fold_left
      (fun matches skill =>
         if readmeMentions readmeSkills skill then matches + 1 else matches)
      userSkills matches in
  let matches :=
    fold_left
      (fun matches expandedSkill =>
         if readmeMentions readmeSkills expandedSkill then matches + 0.5 else matches)
      userExpandedSkills matches in
  Ok (if (0 <? totalSkills)%nat then Qmin (matches / ofNat totalSkills) 1 else 0).

Record RelevanceWeights : Type := mkRelW {
  rw_language : Q; rw_topic : Q; rw_readme : Q; rw_skillMatch : Q
}.

Definition calculateRelevanceScore (repo : RepositoryDetails)
  (skills : list NormalizedSkill) (options : ScoringOptions) : result Q :=
  languageMatch_ <- calculateLanguageMatch repo skills ;;
  topicMatch_ <- calculateTopicMatch repo skills ;;
  readmeMatch_ <- calculateReadmeMatch repo skills ;;
  skillMatchScore_ <- calculateSkillMatchScore repo skills ;;
  let weights_ :=
    if mode_is options learning then mkRelW 0.2 0.4 0.2 0.2
    else if mode_is options quick_wins then mkRelW 0.2 0.2 0.3 0.3
    else mkRelW 0.3 0.3 0.2 0.2 in
  Ok (languageMatch_ * rw_language weights_ +
      topicMatch_ * rw_topic weights_ +
      readmeMatch_ * rw_readme weights_ +
      skillMatchScore_ * rw_skillMatch weights_).

Record QualityWeights : Type := mkQualW {
  qw_stars : Q; qw_activity : Q; qw_documentation : Q;
  qw_commitActivity : Q; qw_dependencyHealth : Q; qw_readmeQuality : Q
}.

Definition calculateQualityScore (rt : Runtime) (repo : RepositoryDetails)
  (options : ScoringOptions) : result Q :=
  let starsScore_ := calculateStarsScore (stargazers_count repo) in
  let activityScore_ := calculateActivityScore rt repo in
  documentationScore_ <- calculateDocumentationScore repo ;;
  commitActivityScore_ <- calculateCommitActivityScore repo ;;
  dependencyHealthScore_ <- calculateDependencyHealthScore repo ;;
  readmeQualityScore_ <- calculateReadmeQualityScore repo ;;
  let weights_ :=
    if mode_is options learning then mkQualW 0.25 0.15 0.25 0.15 0.1 0.1
    else if mode_is options quick_wins then mkQualW 0.4 0.25 0.1 0.15 0.05 0.05
    else if mode_is options profile_building then mkQualW 0.3 0.2 0.15 0.15 0.1 0.1
    else mkQualW 0.3 0.2 0.15 0.15 0.1 0.1 in
  let qualityScore :=
    starsScore_ * qw_stars weights_ +
    activityScore_ * qw_activity weights_ +
    documentationScore_ * qw_documentation weights_ +
    commitActivityScore_ * qw_commitActivity weights_ +
    dependencyHealthScore_ * qw_dependencyHealth weights_ +
    readmeQualityScore_ * qw_readmeQuality weights_ in
  let qualityScore :=
    if (50 <=? stargazers_count repo)%N && (stargazers_count repo <=? 500)%N
    then qualityScore + 0.1 else qualityScore in
  let qualityScore :=
    if (0 <? forks_count repo)%N
    then qualityScore + Qmin (ofN (forks_count repo) / 20) 0.05 else qualityScore in
  Ok (Qmin qualityScore 1.0).

Record OpportunityWeights : Type := mkOppW {
  ow_issues : Q; ow_contributors : Q; ow_response : Q
}.

Definition calculateOpportunityScore (repo : RepositoryDetails)
  (options : ScoringOptions) : result Q :=
  let issueScore_ := calculateIssueScore repo in
  let contributorScore_ := calculateContributorScore repo in
  issueResponseScore_ <- calculateIssueResponseScore repo ;;
  let weights_ :=
    if mode_is options learning then mkOppW 0.6 0.2 0.2
    else if mode_is options quick_wins then mkOppW 0.6 0.1 0.3
    else if mode_is options profile_building then mkOppW 0.5 0.3 0.2
    else mkOppW 0.5 0.3 0.2 in
  Ok (issueScore_ * ow_issues weights_ +
      contributorScore_ * ow_contributors weights_ +
      issueResponseScore_ * ow_response weights_).

Definition calculateSizePenalty (rt : Runtime) (repo : RepositoryDetails) : Q :=
  let penalty := 0 in
  let penalty :=
    if (5000 <? open_issues_count repo)%N then penalty + 0.3
    else if (1000 <? open_issues_count repo)%N then penalty + 0.15
    else penalty in
  let penalty :=
    if (1000 <? stargazers_count repo)%N
    then penalty + log10 rt (ofN (stargazers_count repo)) * 0.08 else penalty in
  let penalty :=
    if (10000 <? stargazers_count repo)%N then penalty + 0.15 else penalty in
  penalty.

Definition calculateModePenalties (rt : Runtime) (repo : RepositoryDetails)
  (options : ScoringOptions) : result Q :=
  let penalty := 0 in
  let penalty :=
    if (stargazers_count repo <? 10)%N then penalty + 0.3
    else if (stargazers_count repo <? 20)%N then penalty + 0.15
    else penalty in
  match mode options with
  | Some learning =>
      let penalty :=
        if (goodFirstIssues repo =? 0)%N then penalty + 0.5 else penalty in
      c <- (if negb (truthy_str (description repo)) then Ok true
            else d <- deref (description repo) ;; Ok (strlen d <? 50)%nat) ;;
      let penalty := if c then penalty + 0.3 else penalty in
      let daysSinceUpdateLearning := daysSince rt (updated_at repo) in
      let penalty :=
        if 365 <? daysSinceUpdateLearning then penalty + 0.2 else penalty in
      Ok penalty
  | Some quick_wins =>
      let penalty :=
        if (500 <? open_issues_count repo)%N then penalty + 0.6
        else if (200 <? open_issues_count repo)%N then penalty + 0.4
        else if (100 <? open_issues_count repo)%N then penalty + 0.2
        else penalty in
      let penalty :=
        if (open_issues_count repo =? 0)%N then penalty + 0.5 else penalty in
      let penalty :=
        if (10000 <? stargazers_count repo)%N then penalty + 0.3 else penalty in
      let daysSinceUpdateQuickWins := daysSince rt (updated_at repo) in
      let penalty :=
        if 180 <? daysSinceUpdateQuickWins then penalty + 0.3 else penalty in
      Ok penalty
  | Some profile_building =>
      let penalty :=
        if (stargazers_count repo <? 50)%N then penalty + 0.5
        else if (stargazers_count repo <? 100)%N then penalty + 0.3
        else if (stargazers_count repo <? 200)%N then penalty + 0.1
        else penalty in
      let daysSinceCreated := daysSince rt (created_at repo) in
      let penalty :=
        if daysSinceCreated <? 30 then penalty + 0.3
        else if daysSinceCreated <? 90 then penalty + 0.1
        else penalty in
      let penalty :=
        if (50000 <? stargazers_count repo)%N then penalty + 0.2 else penalty in
      Ok penalty
  | None => Ok penalty
  end.

(** [repo.description && repo.description.toLowerCase().includes(kw)] *)
Definition descriptionIncludes (repo : RepositoryDetails) (kw : string)
  : result bool :=
  and_then (truthy_str (description repo))
    (d <- deref (description repo) ;; Ok (includes (toLowerCase d) kw)).

(** [repo.topics && repo.topics.some(topic => tags.includes(topic.toLowerCase()))] *)
Definition topicsSome (repo : RepositoryDetails) (tags : list string)
  : result bool :=
  and_then (truthy_obj (topics repo))
    (ts <- deref (topics repo) ;;
     Ok (existsb (fun topic => arr_includes tags (toLowerCase topic)) ts)).

(** The [switch] of [applyModeBonuses]: the bonus of the selected mode. *)
Definition modeBonus (rt : Runtime) (repo : RepositoryDetails)
  (options : ScoringOptions) : result Q :=
  let bonus := 0 in
  match mode options with
  | Some learning =>
      let bonus :=
        if (10 <? goodFirstIssues repo)%N then bonus + 0.3
        else if (5 <? goodFirstIssues repo)%N then bonus + 0.2
        else if (0 <? goodFirstIssues repo)%N then bonus + 0.1
        else bonus in
      c <- descriptionIncludes repo "tutorial" ;;
      let bonus := if c then bonus + 0.15 else bonus in
      c <- descriptionIncludes repo "example" ;;
      let bonus := if c then bonus + 0.15 else bonus in
      c <- descriptionIncludes repo "learn" ;;
      let bonus := if c then bonus + 0.1 else bonus in
      c <- descriptionIncludes repo "beginner" ;;
      let bonus := if c then bonus + 0.1 else bonus in
      c <- topicsSome repo
             ["tutorial"; "example"; "learning"; "beginner"; "documentation";
              "education"] ;;
      let bonus := if c then bonus + 0.2 else bonus in
      c <- and_then (truthy_str (description repo))
             (d <- deref (description repo) ;; Ok (100 <? strlen d)%nat) ;;
      let bonus := if c then bonus + 0.1 else bonus in
      Ok bonus
  | Some quick_wins =>
      let bonus := if (0 <? goodFirstIssues repo)%N then bonus + 0.4 else bonus in
      let bonus :=
        if (5 <=? open_issues_count repo)%N && (open_issues_count repo <=? 50)%N
        then bonus + 0.3
        else if (50 <? open_issues_count repo)%N && (open_issues_count repo <=? 100)%N
        then bonus + 0.2
        else if (100 <? open_issues_count repo)%N && (open_issues_count repo <=? 200)%N
        then bonus + 0.1
        else bonus in
      let bonus :=
        if (50 <=? stargazers_count repo)%N && (stargazers_count repo <=? 2000)%N
        then bonus + 0.2
        else if (2000 <? stargazers_count repo)%N && (stargazers_count repo <=? 5000)%N
        then bonus + 0.1
        else bonus in
      c <- topicsSome repo
             ["good-first-issue"; "help-wanted"; "hacktoberfest"; "contribution"] ;;
      let bonus := if c then bonus + 0.3 else bonus in
      let daysSinceUpdate := daysSince rt (updated_at repo) in
      let bonus :=
        if daysSinceUpdate <=? 7 then bonus + 0.2
        else if daysSinceUpdate <=? 30 then bonus + 0.1
        else bonus in
      Ok bonus
  | Some profile_building =>
      let bonus :=
        if (5000 <? stargazers_count repo)%N then bonus + 0.4
        else if (1000 <? stargazers_count repo)%N then bonus + 0.3
        else if (500 <? stargazers_count repo)%N then bonus + 0.2
        else if (100 <? stargazers_count repo)%N then bonus + 0.1
        else bonus in
      c <- topicsSome repo
             ["popular"; "trending"; "awesome"; "production"; "enterprise"] ;;
      let bonus := if c then bonus + 0.2 else bonus in
      c <- descriptionIncludes repo "production" ;;
      let bonus := if c then bonus + 0.15 else bonus in
      c <- descriptionIncludes repo "enterprise" ;;
      let bonus := if c then bonus + 0.15 else bonus in
      c <- descriptionIncludes repo "framework" ;;
      let bonus := if c then bonus + 0.1 else bonus in
      c <- descriptionIncludes repo "library" ;;
      let bonus := if c then bonus + 0.1 else bonus in
      let daysSinceCreated := daysSince rt (created_at repo) in
      let bonus := if 365 <? daysSinceCreated then bonus + 0.1 else bonus in
      Ok bonus
  | None => Ok bonus
  end.

Definition applyModeBonuses (rt : Runtime) (baseScore : Q)
  (repo : RepositoryDetails) (options : ScoringOptions) : result Q :=
  let penalty := 0 in
  let penalty := penalty + calculateSizePenalty rt repo in
  modePenalty <- calculateModePenalties rt repo options ;;
  let penalty := penalty + modePenalty in
  bonus <- modeBonus rt repo options ;;
  Ok (Qmax 0 (Qmin (baseScore + bonus - penalty) 1.0)).

Definition applyFreshnessBoost (rt : Runtime) (baseScore : Q)
  (repo : RepositoryDetails) : Q :=
  let daysSinceActivity := daysSince rt (lastActivity repo) in
  if daysSinceActivity <=? 7 then baseScore * 1.2 else baseScore.

Definition scoreRepository (rt : Runtime) (repo : RepositoryDetails)
  (skills : list NormalizedSkill) (options : ScoringOptions)
  : result RepositoryScore :=
  let modeWeights :=
    getModeWeights (match mode options with Some m => m | None => profile_building end) in
  let weights_ := spreadWeights modeWeights (weights options) in
  relevanceScore <- calculateRelevanceScore repo skills options ;;
  qualityScore <- calculateQualityScore rt repo options ;;
  opportunityScore <- calculateOpportunityScore repo options ;;
  let finalScore :=
    relevanceScore * w_relevance weights_ +
    qualityScore * w_quality weights_ +
    opportunityScore * w_opportunity weights_ in
  finalScore <- applyModeBonuses rt finalScore repo options ;;
  let finalScore := applyFreshnessBoost rt finalScore repo in
  languageMatch_ <- calculateLanguageMatch repo skills ;;
  topicMatch_ <- calculateTopicMatch repo skills ;;
  readmeMatch_ <- calculateReadmeMatch repo skills ;;
  documentationScore_ <- calculateDocumentationScore repo ;;
  commitActivityScore_ <- calculateCommitActivityScore repo ;;
  issueResponseScore_ <- calculateIssueResponseScore repo ;;
  dependencyHealthScore_ <- calculateDependencyHealthScore repo ;;
  readmeQualityScore_ <- calculateReadmeQualityScore repo ;;
  skillMatchScore_ <- calculateSkillMatchScore repo skills ;;
  Ok (mkScore relevanceScore qualityScore opportunityScore finalScore
        (mkBreakdown
           languageMatch_ topicMatch_ readmeMatch_
           (calculateStarsScore (stargazers_count repo))
           (calculateActivityScore rt repo)
           documentationScore_
           (calculateIssueScore repo)
           (calculateContributorScore repo)
           commitActivityScore_ issueResponseScore_ dependencyHealthScore_
           readmeQualityScore_ skillMatchScore_)).

(** ** Ranking *)

(** [scoredRepos.sort((a, b) => b.score.final - a.score.final)]: stable,
    descending by final score. *)
Fixpoint insertByScore (x : ScoredRepo) (l : list ScoredRepo) : list ScoredRepo :=
  match l with
  | [] => [x]
  | y :: l' =>
      if final (score x) <? final (score y) then y :: insertByScore x l'
      else x :: l
  end.

Definition sortByScore (l : list ScoredRepo) : list ScoredRepo :=
  fold_right insertByScore [] l.

(** [percentDiff <= 0.03] with [percentDiff = scoreDiff / currentScore]. With
    [currentScore] zero the quotient is [NaN] or [Infinity] and the test fails. *)
Definition withinThreePercent (scoreDiff currentScore : Q) : bool :=
  if Qeq_bool currentScore 0 then false
  else scoreDiff / currentScore <=? 0.03.

(** The two nested loops of [randomizeCloseScores]: [closeGroup] is the group
    being collected, which starts at position [i] and has first score
    [currentScore]; [rest] is what lies from position [j] on. *)
Fixpoint randomizeFrom (rt : Runtime) (i : nat) (currentScore : Q)
  (closeGroup rest : list ScoredRepo) : list ScoredRepo :=
  match rest with
  | [] => shuffle rt i closeGroup
  | x :: rest' =>
      let scoreDiff := Qabs (final (score x) - currentScore) in
      if withinThreePercent scoreDiff currentScore
      then randomizeFrom rt i currentScore (closeGroup ++ [x])%list rest'
      else (shuffle rt i closeGroup ++
            randomizeFrom rt (i + length closeGroup) (final (score x)) [x] rest')%list
  end.

Definition randomizeCloseScores (rt : Runtime) (scoredRepos : list ScoredRepo)
  : list ScoredRepo :=
  match scoredRepos with
  | [] => []
  | x :: rest => randomizeFrom rt 0 (final (score x)) [x] rest
  end.

Definition stars (s : ScoredRepo) : N := stargazers_count (repo s).

Definition isSmall (s : ScoredRepo) : bool := (50 <=? stars s)%N && (stars s <? 500)%N.
Definition isMedium (s : ScoredRepo) : bool := (500 <=? stars s)%N && (stars s <? 2000)%N.
Definition isLarge (s : ScoredRepo) : bool := (2000 <=? stars s)%N.

(** [result.push(tier[index])] followed by the rest of the loop. *)
Definition push (x : option ScoredRepo) (rest : list ScoredRepo) : list ScoredRepo :=
  match x with
  | Some x => x :: rest
  | None => rest
  end.

(** The [for] loop of [applyDiversityTiers] with [n] turns left, at turn [i]. *)
Fixpoint tierLoop (smallRepos mediumRepos largeRepos : list ScoredRepo)
  (n i smallIndex mediumIndex largeIndex : nat) : list ScoredRepo :=
  match n with
  | O => []
  | S n' =>
      let cycle := (i mod 4)%nat in
      let next := tierLoop smallRepos mediumRepos largeRepos n' (S i) in
      if (((cycle =? 0) || (cycle =? 1)) && (smallIndex <? length smallRepos))%nat then
        push (nth_error smallRepos smallIndex) (next (S smallIndex) mediumIndex largeIndex)
      else if ((cycle =? 2) && (mediumIndex <? length mediumRepos))%nat then
        push (nth_error mediumRepos mediumIndex) (next smallIndex (S mediumIndex) largeIndex)
      else if ((cycle =? 3) && (largeIndex <? length largeRepos))%nat then
        push (nth_error largeRepos largeIndex) (next smallIndex mediumIndex (S largeIndex))
      else if (smallIndex <? length smallRepos)%nat then
        push (nth_error smallRepos smallIndex) (next (S smallIndex) mediumIndex largeIndex)
      else if (mediumIndex <? length mediumRepos)%nat then
        push (nth_error mediumRepos mediumIndex) (next smallIndex (S mediumIndex) largeIndex)
      else if (largeIndex <? length largeRepos)%nat then
        push (nth_error largeRepos largeIndex) (next smallIndex mediumIndex (S largeIndex))
      else []
  end.

Definition applyDiversityTiers (scoredRepos : list ScoredRepo) : list ScoredRepo :=
  let smallRepos := filter isSmall scoredRepos in
  let mediumRepos := filter isMedium scoredRepos in
  let largeRepos := filter isLarge scoredRepos in
  let maxResults := Nat.min (length scoredRepos) 50 in
  tierLoop smallRepos mediumRepos largeRepos maxResults 0 0 0 0.

Definition applyDiversityAndRandomization (rt : Runtime)
  (scoredRepos : list ScoredRepo) : list ScoredRepo :=
  let scoredRepos := sortByScore scoredRepos in
  let randomizedRepos := randomizeCloseScores rt scoredRepos in
  applyDiversityTiers randomizedRepos.

Definition scoreRepositories (rt : Runtime) (repos : list RepositoryDetails)
  (skills : list NormalizedSkill) (options : ScoringOptions)
  : result (list ScoredRepo) :=
  scoredRepos <-
    mapM (fun repo =>
            s <- scoreRepository rt repo skills options ;; Ok (mkScored repo s))
      repos ;;
  Ok (applyDiversityAndRandomization rt scoredRepos).

(** ** Explanations *)

(** [Math.round(x)]: the nearest integer, halves upwards. *)
Definition mathRound (x : Q) : Z := Qfloor (x + (1 # 2)).

(** An integer inside a template string. *)
Definition intToString (z : Z) : string := NilZero.string_of_int (Z.to_int z).
Definition countToString (n : N) : string := NilZero.string_of_uint (N.to_uint n).

Definition phraseLanguage (score : RepositoryScore) : string :=
  "Strong language match ("
  ++ intToString (mathRound (languageMatch (breakdown score) * 100)) ++ "%)".

Definition phraseTopic (score : RepositoryScore) : string :=
  "Good topic alignment ("
  ++ intToString (mathRound (topicMatch (breakdown score) * 100)) ++ "%)".

Definition phraseStars (repo : RepositoryDetails) : string :=
  "High community interest (" ++ countToString (stargazers_count repo) ++ " stars)".

Definition phraseActive : string := "Recently active".

Definition phraseIssues (repo : RepositoryDetails) : string :=
  "Good contribution opportunities ("
  ++ countToString (goodFirstIssues repo) ++ " good first issues)".

(** The array [explanations] of [getScoringExplanation] before it is joined. *)
Definition explanationPhrases (repo : RepositoryDetails) (score : RepositoryScore)
  : list string :=
  let explanations := [] in
  let explanations :=
    if 0.5 <? languageMatch (breakdown score)
    then (explanations ++ [phraseLanguage score])%list else explanations in
  let explanations :=
    if 0.5 <? topicMatch (breakdown score)
    then (explanations ++ [phraseTopic score])%list else explanations in
  let explanations :=
    if 0.7 <? starsScore (breakdown score)
    then (explanations ++ [phraseStars repo])%list else explanations in
  let explanations :=
    if 0.7 <? activityScore (breakdown score)
    then (explanations ++ [phraseActive])%list else explanations in
  let explanations :=
    if 0.6 <? issueScore (breakdown score)
    then (explanations ++ [phraseIssues repo])%list else explanations in
  explanations.

(** [explanations.join(', ') || 'Standard repository metrics'] *)
Definition getScoringExplanation (repo : RepositoryDetails) (score : RepositoryScore)
  : string :=
  let joined := String.concat ", " (explanationPhrases repo score) in
  if String.eqb joined EmptyString then "Standard repository metrics" else joined.

End Scoring.

Import Scoring.

(* ================================================================== *)
(** * Notions used to state the properties *)
(* ================================================================== *)

Module Props.

(** The token as [normalizeSkill] looks it up. *)
Definition cleanToken (skill : string) : string := toLowerCase (trim skill).

(** What [normalizeSkills] computes when the memo has no entry: the loop over
    the tokens, which [getSkillKey] has sorted in place by then. *)
Definition computeSkills (skills : list string) : list NormalizedSkill :=
  map_values (fold_left (normalizeStep skillGraph) (sort_strings skills) []).

(** The memo is a memo: under the key of this skill list it holds nothing, or
    what the computation gives for the list. *)
Definition memoSound (redis : Redis) (skills : list string) : Prop :=
  forall cached,
    map_get redis (snd (getSkillKey skills)) = Some cached ->
    cached = computeSkills skills.

Definition directMatch (c : string) : Prop :=
  exists node, In node catalog /\ name node = c.

Definition aliasMatch (c : string) : Prop :=
  exists node, In node catalog /\ In c (aliases node).

Definition fuzzyMatch (c : string) : Prop :=
  exists v node, In v (generateVariations c) /\ In node catalog /\ name node = v.

(** The weight one token contributes to the entry of key [key]. *)
Definition tokenWeight (key : string) (t : string) : Q :=
  match normalizeSkill skillGraph t with
  | Some r => if String.eqb (skillKey r) key then weight r else 0
  | None => 0
  end.

Definition totalWeight (key : string) (skills : list string) : Q :=
  fold_right (fun t acc => tokenWeight key t + acc) 0 skills.

(** What holds of an entry of the map of [normalizeSkills] once the tokens
    [done] have been processed. *)
Definition entry_ok (done : list string) (kv : string * NormalizedSkill) : Prop :=
  fst kv = skillKey (snd kv) /\
  0 < weight (snd kv) /\
  weight (snd kv) == totalWeight (fst kv) done.

Definition acc_inv (done : list string) (m : Map NormalizedSkill) : Prop :=
  NoDup (map fst m) /\
  Forall (entry_ok done) m /\
  (forall t r, In t done -> normalizeSkill skillGraph t = Some r ->
               In (skillKey r) (map fst m)).

(** ** The tiering as the design describes it *)

Inductive Tier : Type := Small | Medium | Large.

(** The 4-step pattern small, small, medium, large. *)
Definition pattern (i : nat) : Tier :=
  match (i mod 4)%nat with
  | 0%nat | 1%nat => Small
  | 2%nat => Medium
  | _ => Large
  end.

Definition Tiers : Type :=
  (list ScoredRepo * list ScoredRepo * list ScoredRepo)%type.

Definition pullFrom (t : Tier) (ts : Tiers) : option (ScoredRepo * Tiers) :=
  let '(s, m, l) := ts in
  match t with
  | Small => match s with x :: s' => Some (x, (s', m, l)) | [] => None end
  | Medium => match m with x :: m' => Some (x, (s, m', l)) | [] => None end
  | Large => match l with x :: l' => Some (x, (s, m, l')) | [] => None end
  end.

(** Next entry: the head of the designated tier or, when that tier is
    exhausted, of the smallest tier that is not. *)
Definition pull (t : Tier) (ts : Tiers) : option (ScoredRepo * Tiers) :=
  match pullFrom t ts with
  | Some r => Some r
  | None =>
      match pullFrom Small ts with
      | Some r => Some r
      | None =>
          match pullFrom Medium ts with
          | Some r => Some r
          | None => pullFrom Large ts
          end
      end
  end.

(** Emit at most [budget] entries, from step [i] of the pattern on. *)
Fixpoint emit (budget i : nat) (ts : Tiers) : list ScoredRepo :=
  match budget with
  | O => []
  | S b =>
      match pull (pattern i) ts with
      | Some (x, ts') => x :: emit b (S i) ts'
      | None => []
      end
  end.

Definition diversitySpec (ranked : list ScoredRepo) : list ScoredRepo :=
  emit 50 0 (filter isSmall ranked, filter isMedium ranked, filter isLarge ranked).

(** ** The range of the enrichment signals

    lib/data-enricher.ts produces rates, counts and capped scores, none of
    them negative. The signals below are the ones that enter a weighted sum
    without a [Math.max(0, ...)] in front. *)

Definition commitNonneg (c : CommitAnalysis) : Prop :=
  0 <= frequency c /\ 0 <= contributorDistribution c /\
  0 <= commitMessageQuality c /\ 0 <= branchActivity c.

Definition issueNonneg (a : IssueAnalysis) : Prop :=
  0 <= resolutionRate a /\ 0 <= maintainerActivity a /\
  0 <= communityEngagement a /\ 0 <= issueQuality a /\ 0 <= labelUsage a.

Definition dependencyNonneg (a : DependencyAnalysis) : Prop :=
  0 <= healthScore a /\ 0 <= securityScore a /\
  0 <= updateFrequency a /\ 0 <= licenseCompatibility a.

Definition readmeNonneg (a : ReadmeAnalysis) : Prop :=
  0 <= contentQuality a /\ 0 <= learningResources a.

Definition whenPresent {A} (P : A -> Prop) (o : option A) : Prop :=
  match o with
  | Some a => P a
  | None => True
  end.

Definition enrichedNonneg (repo : RepositoryDetails) : Prop :=
  whenPresent
    (fun e =>
       whenPresent commitNonneg (commitAnalysis e) /\
       whenPresent issueNonneg (issueAnalysis e) /\
       whenPresent dependencyNonneg (dependencyAnalysis e) /\
       whenPresent readmeNonneg (readmeAnalysis e))
    (enrichedData repo).

(** The weights [scoreRepository] combines the three dimensions with. *)
Definition effectiveWeights (options : ScoringOptions) : ScoringWeights :=
  spreadWeights
    (getModeWeights (match mode options with Some m => m | None => profile_building end))
    (weights options).

(** [Math.max(0, Math.min(x, 1.0))] *)
Definition clamp01 (x : Q) : Q := Qmax 0 (Qmin x 1.0).


(** ** Sample surroundings for concrete evaluations *)

Fixpoint floorLog10 (fuel : nat) (z : Z) : Z :=
  match fuel with
  | O => 0
  | S f => if (z <? 10)%Z then 0%Z else (1 + floorLog10 f (z / 10))%Z
  end.

(** A clock reading [t], a coarse rational stand-in for [Math.log10] and a
    comparator that leaves every group as it is. *)
Definition sampleRuntime (t : Z) : Runtime :=
  mkRuntime t
    (fun q => inject_Z (floorLog10 64 (Qnum q / Zpos (Qden q))))
    (fun _ g => g)
    (fun _ g => Permutation_refl g).

Definition day : Z := 1000 * 60 * 60 * 24.

Definition sampleEnrichment : EnrichedRepositoryData :=
  mkEnriched
    (Some (mkCommitAnalysis 2.5 4 0.6 1 0.2 0.3))
    (Some (mkIssueAnalysis 12 0.5 0.4 0.3 0.1 0.8))
    (Some (mkDependencyAnalysis 0.8 0.7 0.4 8 2 1.0))
    (Some (mkReadmeAnalysis 0.6 (Some ["typescript"; "react"]) "library" 0.3 2 0.5)).

(** A repository of 120 stars without open issues, last touched on day 1000. *)
Definition sampleRepo : RepositoryDetails :=
  mkRepo 1 "octo/widgets" (Some "A small widget library for the web")
    120 4 0 (Some "TypeScript") (Some ["web"; "typescript"]) 0
    (100 * day) (1000 * day) (1000 * day) None None (Some sampleEnrichment).

(** The same repository with nothing optional filled in. *)
Definition bareRepo : RepositoryDetails :=
  mkRepo 2 "octo/bare" None 120 4 0 None None 0
    (100 * day) (1000 * day) (1000 * day) None None None.

(** A small, active repository with open and good first issues. *)
Definition eagerRepo : RepositoryDetails :=
  mkRepo 3 "octo/starter" (Some "A starter kit with many small tasks")
    120 4 10 (Some "TypeScript") (Some ["good-first-issue"; "typescript"]) 5
    (100 * day) (1000 * day) (1000 * day) None None (Some sampleEnrichment).

Definition withGoodFirstIssues (r : RepositoryDetails) (n : N) : RepositoryDetails :=
  mkRepo (id r) (full_name r) (description r) (stargazers_count r) (forks_count r)
    (open_issues_count r) (language r) (topics r) n
    (created_at r) (updated_at r) (pushed_at r) (homepage r) (license r)
    (enrichedData r).

Definition withStars (r : RepositoryDetails) (n : N) : RepositoryDetails :=
  mkRepo (id r) (full_name r) (description r) n (forks_count r)
    (open_issues_count r) (language r) (topics r) (goodFirstIssues r)
    (created_at r) (updated_at r) (pushed_at r) (homepage r) (license r)
    (enrichedData r).

Definition quickWinsOptions : ScoringOptions := mkOptions (Some quick_wins) None None None.
Definition defaultOptions : ScoringOptions := mkOptions None None None None.

Definition sampleSkills : list NormalizedSkill :=
  fst (normalizeSkills [] ["typescript"]).

(** ** The parts of the quick-wins penalty *)

Definition unknownRepoPenalty (repo : RepositoryDetails) : Q :=
  if (stargazers_count repo <? 10)%N then 0.3
  else if (stargazers_count repo <? 20)%N then 0.15 else 0.

Definition overPopularPenalty (repo : RepositoryDetails) : Q :=
  if (10000 <? stargazers_count repo)%N then 0.3 else 0.



End Props.

Import Props.

(* ================================================================== *)
(** * app/api/search/route.ts: what happens to the search result *)
(* ================================================================== *)

Module Route.

(** [repo.description && repo.description.toLowerCase().includes(kw)], as a
    truth value. *)
Definition descriptionHas (repo : RepositoryDetails) (kw : string) : bool :=
  match description repo with
  | Some d => negb (String.eqb d EmptyString) && includes (toLowerCase d) kw
  | None => false
  end.

(** [!repo.description || repo.description.length < n] *)
Definition descriptionShorterThan (repo : RepositoryDetails) (n : nat) : bool :=
  match description repo with
  | Some d => String.eqb d EmptyString || (strlen d <? n)%nat
  | None => true
  end.

(** [repo.topics && repo.topics.some(topic => tags.includes(topic.toLowerCase()))],
    as a truth value. *)
Definition topicsHave (repo : RepositoryDetails) (tags : list string) : bool :=
  match topics repo with
  | Some ts => existsb (fun topic => arr_includes tags (toLowerCase topic)) ts
  | None => false
  end.

Definition keepForLearning (repo : RepositoryDetails) : bool :=
  if descriptionShorterThan repo 30 then false else
  let hasEducationalContent :=
    (0 <? goodFirstIssues repo)%N
    || (descriptionHas repo "tutorial" || descriptionHas repo "example"
        || descriptionHas repo "learn" || descriptionHas repo "beginner")
    || topicsHave repo
         ["tutorial"; "example"; "learning"; "beginner"; "documentation"; "education"] in
  hasEducationalContent.

Definition keepForQuickWins (rt : Runtime) (repo : RepositoryDetails) : bool :=
  if (open_issues_count repo =? 0)%N then false else
  if (500 <? open_issues_count repo)%N then false else
  let daysSinceUpdate := daysSince rt (updated_at repo) in
  if 180 <? daysSinceUpdate then false else
  (0 <? goodFirstIssues repo)%N || (open_issues_count repo <=? 100)%N.

Definition keepForProfileBuilding (rt : Runtime) (repo : RepositoryDetails) : bool :=
  if (stargazers_count repo <? 50)%N then false else
  let daysSinceCreated := daysSince rt (created_at repo) in
  if daysSinceCreated <? 30 then false else
  if descriptionShorterThan repo 20 then false else
  true.

(** The mode is a string in the route; [None] stands for a string that is
    none of the three modes. *)
Definition applyModeSpecificFiltering (rt : Runtime) (repos : list RepositoryDetails)
  (mode : option Mode) : list RepositoryDetails :=
  match mode with
  | Some learning => filter keepForLearning repos
  | Some quick_wins => filter (keepForQuickWins rt) repos
  | Some profile_building => filter (keepForProfileBuilding rt) repos
  | None => repos
  end.



(** [arr.sort((a, b) => key(b) - key(a))]: stable, descending by [key]. *)
Fixpoint insertDesc (key : ScoredRepo -> Q) (x : ScoredRepo) (l : list ScoredRepo)
  : list ScoredRepo :=
  match l with
  | [] => [x]
  | y :: l' => if key x <? key y then y :: insertDesc key x l' else x :: l
  end.

Definition sortDesc (key : ScoredRepo -> Q) (l : list ScoredRepo) : list ScoredRepo :=
  fold_right (insertDesc key) [] l.

Definition keyStars (x : ScoredRepo) : Q := ofN (stargazers_count (repo x)).
Definition keyActivity (x : ScoredRepo) : Q := inject_Z (updated_at (repo x)).
Definition keyOpportunity (x : ScoredRepo) : Q := opportunity (score x).
Definition keyFinal (x : ScoredRepo) : Q := final (score x).

Definition sortKey (sort : string) : ScoredRepo -> Q :=
  if String.eqb sort "stars" then keyStars
  else if String.eqb sort "activity" then keyActivity
  else if String.eqb sort "opportunity" then keyOpportunity
  else keyFinal.

Definition sortRepositories (scoredRepos : list ScoredRepo) (sort : string)
  : list ScoredRepo :=
  sortDesc (sortKey sort) scoredRepos.





End Route.

Import Route.

(* ================================================================== *)
(** * lib/data-enricher.ts: the analyses behind the enrichment signals *)
(* ================================================================== *)

Module Enricher.

(** The analyses fetch their input from GitHub and fall back to a default
    block when there is nothing to analyse or the request fails. Below, the
    fetched input is an argument, [None] when there is none. *)

(** ** README *)

Definition calculateContentQuality (content : string) : Q :=
  let qualityScore := 0 in
  let qualityScore :=
    if includes content "# " then qualityScore + 0.1 else qualityScore in
  let qualityScore :=
    if includes content "## " then qualityScore + 0.1 else qualityScore in
  let qualityScore :=
    if includes content "```" then qualityScore + 0.1 else qualityScore in
  let qualityScore :=
    if includes content "Installation" || includes content "Install"
    then qualityScore + 0.1 else qualityScore in
  let qualityScore :=
    if includes content "Usage" || includes content "Example"
    then qualityScore + 0.1 else qualityScore in
  let qualityScore :=
    if includes content "Contributing" then qualityScore + 0.1 else qualityScore in
  let qualityScore :=
    if includes content "License" then qualityScore + 0.1 else qualityScore in
  let qualityScore :=
    if (500 <? strlen content)%nat then qualityScore + 0.1 else qualityScore in
  let qualityScore :=
    if includes content "![" || includes content "http"
    then qualityScore + 0.1 else qualityScore in
  Qmin 1 qualityScore.

Definition techKeywords : list string :=
  ["react"; "vue"; "angular"; "svelte"; "nextjs"; "nuxt";
   "nodejs"; "express"; "fastify"; "koa";
   "python"; "django"; "flask"; "fastapi";
   "java"; "spring"; "maven"; "gradle";
   "go"; "rust"; "c++"; "c#"; "php"; "ruby";
   "typescript"; "javascript"; "html"; "css";
   "docker"; "kubernetes"; "aws"; "azure"; "gcp";
   "mongodb"; "postgresql"; "mysql"; "redis";
   "tensorflow"; "pytorch"; "machine learning"; "ai";
   "webpack"; "vite"; "babel"; "eslint"].

Definition extractSkillKeywords (content : string) : list string :=
  let contentLower := toLowerCase content in
  let skillKeywords :=
    fold_left
      (fun skillKeywords keyword =>
         if includes contentLower keyword then (skillKeywords ++ [keyword])%list
         else skillKeywords)
      techKeywords [] in
  fold_left set_add skillKeywords [].

Definition detectProjectType (content : string) : string :=
  let contentLower := toLowerCase content in
  if includes contentLower "web" || includes contentLower "frontend"
     || includes contentLower "ui" then "web-frontend"
  else if includes contentLower "api" || includes contentLower "backend"
          || includes contentLower "server" then "web-backend"
  else if includes contentLower "mobile" || includes contentLower "ios"
          || includes contentLower "android" then "mobile"
  else if includes contentLower "machine learning" || includes contentLower "ai"
          || includes contentLower "data science" then "data-science"
  else if includes contentLower "library" || includes contentLower "package"
          || includes contentLower "npm" then "library"
  else if includes contentLower "cli" || includes contentLower "command line"
  then "cli-tool"
  else "general".

Definition estimateComplexity (content : string) : Q :=
  let complexity := 0.3 in
  let complexity :=
    if includes content "architecture" || includes content "microservices"
    then complexity + 0.2 else complexity in
  let complexity :=
    if includes content "distributed" || includes content "scalable"
    then complexity + 0.2 else complexity in
  let complexity :=
    if includes content "algorithm" || includes content "optimization"
    then complexity + 0.2 else complexity in
  let complexity :=
    if includes content "machine learning" || includes content "ai"
    then complexity + 0.2 else complexity in
  let complexity :=
    if includes content "real-time" || includes content "streaming"
    then complexity + 0.1 else complexity in
  Qmin 1 complexity.

Definition countLearningResources (content : string) : Q :=
  let resources := 0 in
  let resources := if includes content "tutorial" then resources + 1 else resources in
  let resources := if includes content "example" then resources + 1 else resources in
  let resources := if includes content "demo" then resources + 1 else resources in
  let resources := if includes content "guide" then resources + 1 else resources in
  let resources :=
    if includes content "documentation" then resources + 1 else resources in
  let resources := if includes content "wiki" then resources + 1 else resources in
  let resources := if includes content "blog" then resources + 1 else resources in
  let resources := if includes content "video" then resources + 1 else resources in
  let resources := if includes content "course" then resources + 1 else resources in
  let resources := if includes content "workshop" then resources + 1 else resources in
  resources.

Definition assessSetupDifficulty (content : string) : Q :=
  let difficulty := 0.5 in
  let difficulty :=
    if includes content "docker" || includes content "kubernetes"
    then difficulty + 0.2 else difficulty in
  let difficulty :=
    if includes content "environment" || includes content "configuration"
    then difficulty + 0.1 else difficulty in
  let difficulty :=
    if includes content "database" || includes content "migration"
    then difficulty + 0.1 else difficulty in
  let difficulty :=
    if includes content "api key" || includes content "credentials"
    then difficulty + 0.1 else difficulty in
  let difficulty :=
    if includes content "install" && includes content "multiple"
    then difficulty + 0.1 else difficulty in
  Qmin 1 difficulty.

Definition getDefaultReadmeAnalysis : ReadmeAnalysis :=
  mkReadmeAnalysis 0 (Some []) "general" 0 0 0.

(** [analyzeReadme], from the content of README.md on. *)
Definition analyzeReadme (fetched : option string) : ReadmeAnalysis :=
  match fetched with
  | None => getDefaultReadmeAnalysis
  | Some content =>
      let contentQuality := calculateContentQuality content in
      let skillKeywords := extractSkillKeywords content in
      let projectType := detectProjectType content in
      let complexity := estimateComplexity content in
      let learningResources := countLearningResources content in
      let setupDifficulty := assessSetupDifficulty content in
      mkReadmeAnalysis (Qmin 1 contentQuality) (Some skillKeywords) projectType
        (Qmin 1 complexity) (Qmin 10 learningResources) (Qmin 1 setupDifficulty)
  end.

(** ** Commit messages and issue bodies *)



(** [x || ''] *)
Definition orEmpty (o : option string) : string :=
  match o with
  | Some s => s
  | None => EmptyString
  end.





(** ** package.json *)

(** The fields of a package.json that are read, typed as npm documents them:
    maps from names to strings for the scripts and the dependencies, a list
    of strings for the keywords, strings for the description and the license. *)
Record PackageJson : Type := mkPackageJson {
  pkg_scripts : option (Map string);
  pkg_engines : option (Map string);
  pkg_keywords : option (list string);
  pkg_description : option string;
  pkg_dependencies : option (Map string);
  pkg_devDependencies : option (Map string);
  pkg_license : option string
}.

(** [obj && obj[key]], as a truth value. *)
Definition hasEntry (obj : option (Map string)) (key : string) : bool :=
  match obj with
  | Some m => truthy_str (map_get m key)
  | None => false
  end.

Definition calculatePackageHealth (packageJson : PackageJson) : Q :=
  let healthScore := 0.5 in
  let healthScore :=
    if hasEntry (pkg_scripts packageJson) "test" then healthScore + 0.1
    else healthScore in
  let healthScore :=
    if hasEntry (pkg_scripts packageJson) "build" then healthScore + 0.1
    else healthScore in
  let healthScore :=
    if truthy_obj (pkg_engines packageJson) then healthScore + 0.1 else healthScore in
  let healthScore :=
    if match pkg_keywords packageJson with
       | Some ks => (0 <? length ks)%nat
       | None => false
       end
    then healthScore + 0.1 else healthScore in
  let healthScore :=
    if match pkg_description packageJson with
       | Some d => negb (String.eqb d EmptyString) && (10 <? strlen d)%nat
       | None => false
       end
    then healthScore + 0.1 else healthScore in
  healthScore.

(** [x || {}] *)
Definition orEmptyObject (o : option (Map string)) : Map string :=
  match o with
  | Some m => m
  | None => []
  end.

(** [{ ...a, ...b }] *)
Definition spread (a b : Map string) : Map string :=
  fold_left (fun m kv => map_set m (fst kv) (snd kv)) b a.

Definition calculateSecurityScore (packageJson : PackageJson) : Q :=
  let securityScore := 0.8 in
  let dependencies := orEmptyObject (pkg_dependencies packageJson) in
  let devDependencies := orEmptyObject (pkg_devDependencies packageJson) in
  let problematicPackages := ["request"; "moment"; "lodash"] in
  let allDeps := spread dependencies devDependencies in
  let securityScore :=
    fold_left
      (fun securityScore pkg =>
         if truthy_str (map_get allDeps pkg) then securityScore - 0.1
         else securityScore)
      problematicPackages securityScore in
  Qmax 0 securityScore.

Definition calculateUpdateFrequency (packageJson : PackageJson) : Q :=
  let depCount := length (orEmptyObject (pkg_dependencies packageJson)) in
  Qmin 1 (ofNat depCount / 20).

Definition countOutdatedDependencies (packageJson : PackageJson) : Q :=
  let depCount := length (orEmptyObject (pkg_dependencies packageJson)) in
  inject_Z (Qfloor (ofNat depCount * 0.3)).

Definition calculateLicenseCompatibility (packageJson : PackageJson) : Q :=
  if negb (truthy_str (pkg_license packageJson)) then 0.5 else
  let compatibleLicenses := ["MIT"; "Apache-2.0"; "BSD-3-Clause"; "ISC"] in
  if arr_includes compatibleLicenses (orEmpty (pkg_license packageJson))
  then 1.0 else 0.7.

Definition getDefaultDependencyAnalysis : DependencyAnalysis :=
  mkDependencyAnalysis 0 0 0 0 0 0.

(** [analyzeDependencies], from the parsed package.json on. *)
Definition analyzeDependencies (fetched : option PackageJson) : DependencyAnalysis :=
  match fetched with
  | None => getDefaultDependencyAnalysis
  | Some packageJson =>
      match pkg_dependencies packageJson with
      | None => getDefaultDependencyAnalysis
      | Some deps =>
          let dependencyCount := ofNat (length deps) in
          let healthScore := calculatePackageHealth packageJson in
          let securityScore := calculateSecurityScore packageJson in
          let updateFrequency := calculateUpdateFrequency packageJson in
          let outdatedDependencies := countOutdatedDependencies packageJson in
          let licenseCompatibility := calculateLicenseCompatibility packageJson in
          mkDependencyAnalysis (Qmin 1 healthScore) (Qmin 1 securityScore)
            (Qmin 1 updateFrequency) dependencyCount outdatedDependencies
            (Qmin 1 licenseCompatibility)
      end
  end.

End Enricher.

Import Enricher.

(* ================================================================== *)
(** * Notions used to state the further properties *)
(* ================================================================== *)

Module MoreProps.

(** The string is empty or starts with a character that [trim] keeps. *)
Definition startsClean (s : string) : Prop :=
  match s with
  | EmptyString => True
  | String c _ => is_space c = false
  end.

(** Number of nodes of a category in a graph. *)
Definition nodesOf (c : Category) (graph : Map SkillNode) : nat :=
  length (filter (fun e => Category_eqb (category (snd e)) c) graph).

Definition sumValues (m : Map nat) : nat :=
  fold_right (fun kv acc => (snd kv + acc)%nat) O m.

(** The token is empty once trimmed. *)
Definition isBlank (skill : string) : bool :=
  String.eqb (cleanToken skill) EmptyString.

Definition withForks (r : RepositoryDetails) (n : N) : RepositoryDetails :=
  mkRepo (id r) (full_name r) (description r) (stargazers_count r) n
    (open_issues_count r) (language r) (topics r) (goodFirstIssues r)
    (created_at r) (updated_at r) (pushed_at r) (homepage r) (license r)
    (enrichedData r).

(** Days between the last activity of a repository and the clock reading. *)
Definition idleDays (rt : Runtime) (repo : RepositoryDetails) : Q :=
  daysSince rt (lastActivity repo).

(** The base score of [calculateIssueScore] as a step function of the density. *)
Definition issueBase (issueDensity : Q) : Q :=
  if 0.1 <=? issueDensity then 1.0
  else if 0.05 <=? issueDensity then 0.8
  else if 0.02 <=? issueDensity then 0.6
  else if 0 <? issueDensity then 0.4
  else 0.2.

(** The final score of [y] is within 3% of [current], as [randomizeCloseScores]
    tests it. *)
Definition closeTo (current : Q) (y : ScoredRepo) : bool :=
  withinThreePercent (Qabs (final (score y) - current)) current.

(** No entry is within 3% of the entry before it. *)
Fixpoint spacedOut (l : list ScoredRepo) : bool :=
  match l with
  | x :: (y :: _) as rest => negb (closeTo (final (score x)) y) && spacedOut rest
  | _ => true
  end.

(** A runtime whose comparator turns every group it is given around. *)
Definition reversingRuntime (t : Z) : Runtime :=
  mkRuntime t (log10 (sampleRuntime t)) (fun _ g => rev g)
    (fun _ g => Permutation_sym (Permutation_rev g)).

(** A scored entry with all four scores equal to [f]. *)
Definition scoredAt (r : RepositoryDetails) (f : Q) : ScoredRepo :=
  mkScored r (mkScore f f f f (mkBreakdown 0 0 0 0 0 0 0 0 0 0 0 0 0)).


(** Descending by a natural, an integer or a rational key. *)
Definition descendingBy {A K} (le : K -> K -> Prop) (key : A -> K) (l : list A) : Prop :=
  StronglySorted (fun a b => le (key b) (key a)) l.

(** A repository whose enrichment holds the given README and dependency
    analyses and nothing else. *)
Definition withAnalyses (r : RepositoryDetails) (d : option DependencyAnalysis)
  (a : option ReadmeAnalysis) : RepositoryDetails :=
  mkRepo (id r) (full_name r) (description r) (stargazers_count r) (forks_count r)
    (open_issues_count r) (language r) (topics r) (goodFirstIssues r)
    (created_at r) (updated_at r) (pushed_at r) (homepage r) (license r)
    (Some (mkEnriched None None d a)).

Definition samplePackage : PackageJson :=
  mkPackageJson (Some [("test", "jest"); ("build", "tsc")]) None
    (Some ["widgets"]) (Some "A small widget library")
    (Some [("lodash", "^4.17.21"); ("react", "^18.2.0"); ("moment", "^2.29.4")])
    (Some [("typescript", "^5.4.0")]) (Some "MIT").

End MoreProps.

Import MoreProps.

(* ================================================================== *)
(** * Facts about the JavaScript primitives *)
(* ================================================================== *)

Section MapFacts.

Context {V : Type}.
Implicit Types (m : Map V) (k : string) (v : V).

Lemma map_get_In m k v : map_get m k = Some v -> In (k, v) m.
Proof.
  induction m as [|[k' v'] m IH]; simpl; [discriminate|].
  destruct (String.eqb_spec k' k) as [->|Hne].
  - intros [= ->]. now left.
  - intros H. right. now apply IH.
Qed.

Lemma map_get_None m k : map_get m k = None -> ~ In k (map fst m).
Proof.
  induction m as [|[k' v'] m IH]; simpl; [tauto|].
  destruct (String.eqb_spec k' k) as [->|Hne]; [discriminate|].
  intros H [Heq|Hin]; [congruence|]. now apply IH.
Qed.

Lemma map_set_absent m k v :
  map_get m k = None -> map_set m k v = (m ++ [(k, v)])%list.
Proof.
  induction m as [|[k' v'] m IH]; simpl; [reflexivity|].
  destruct (String.eqb_spec k' k) as [->|Hne]; [discriminate|].
  intros H. now rewrite IH.
Qed.

Lemma map_set_present_keys m k v e :
  map_get m k = Some e -> map fst (map_set m k v) = map fst m.
Proof.
  induction m as [|[k' v'] m IH]; simpl; [discriminate|].
  destruct (String.eqb_spec k' k) as [->|Hne]; [reflexivity|].
  intros H. simpl. now rewrite IH.
Qed.

(** Replacing the value of a key that is present: the entry of the key goes
    from [P] to [P'] by [Hk], the others by [Ho]. *)
Lemma map_set_present_Forall (P P' : string * V -> Prop) m k v e :
  NoDup (map fst m) ->
  map_get m k = Some e ->
  (P (k, e) -> P' (k, v)) ->
  (forall kv, fst kv <> k -> P kv -> P' kv) ->
  Forall P m -> Forall P' (map_set m k v).
Proof.
  intros Hnd Hget Hk Ho.
  induction m as [|[k' v'] m IH]; simpl in *; [discriminate|].
  inversion Hnd as [|? ? Hnotin Hnd']; subst.
  intros HF. inversion HF as [|? ? Hhd Htl]; subst.
  destruct (String.eqb_spec k' k) as [->|Hne].
  - injection Hget as ->. constructor; [auto|].
    rewrite Forall_forall in *. intros [k2 v2] Hin.
    apply Ho; [|auto]. simpl. intros ->.
    apply Hnotin. change k with (fst (k, v2)). now apply in_map.
  - constructor; [apply Ho; auto|]. now apply IH.
Qed.

Lemma map_get_set_same m k v : map_get (map_set m k v) k = Some v.
Proof.
  induction m as [|[k' v'] m IH]; simpl.
  - now rewrite String.eqb_refl.
  - destruct (String.eqb_spec k' k) as [->|Hne]; simpl.
    + now rewrite String.eqb_refl.
    + destruct (String.eqb_spec k' k); [contradiction|exact IH].
Qed.

End MapFacts.

Lemma sort_insert_perm x l : Permutation (sort_insert x l) (x :: l).
Proof.
  induction l as [|y l IH]; simpl; [reflexivity|].
  destruct (String.leb x y); [reflexivity|].
  rewrite IH. apply perm_swap.
Qed.

Lemma sort_strings_perm l : Permutation (sort_strings l) l.
Proof.
  induction l as [|x l IH]; simpl; [reflexivity|].
  rewrite sort_insert_perm. now constructor.
Qed.

Section SortFacts.

Let leR (a b : string) : Prop := String.leb a b = true.

Lemma sort_insert_sorted x l : Sorted leR l -> Sorted leR (sort_insert x l).
Proof.
  induction l as [|y l IH]; simpl; intros Hs.
  - repeat constructor.
  - destruct (String.leb x y) eqn:E.
    + constructor; [exact Hs|]. now constructor.
    + inversion Hs as [|? ? Hs' Hhd]; subst.
      constructor; [now apply IH|].
      assert (Hyx : leR y x).
      { destruct (String.leb_total x y) as [H|H]; [congruence|exact H]. }
      destruct l as [|z l]; simpl; [now constructor|].
      destruct (String.leb x z); constructor; [exact Hyx|].
      now inversion Hhd.
Qed.

Lemma sort_strings_sorted l : Sorted leR (sort_strings l).
Proof.
  induction l as [|x l IH]; simpl; [constructor|]. now apply sort_insert_sorted.
Qed.

Lemma sort_strings_fixed l : Sorted leR l -> sort_strings l = l.
Proof.
  induction l as [|x l IH]; simpl; intros Hs; [reflexivity|].
  inversion Hs as [|? ? Hs' Hhd]; subst. rewrite (IH Hs').
  destruct l as [|y l]; simpl; [reflexivity|].
  inversion Hhd as [|? ? Hxy]; subst. unfold leR in Hxy. now rewrite Hxy.
Qed.

(** Sorting in place a second time changes nothing. *)
Lemma sort_strings_idem l : sort_strings (sort_strings l) = sort_strings l.
Proof. apply sort_strings_fixed, sort_strings_sorted. Qed.

End SortFacts.

(* ================================================================== *)
(** * Properties of the skill normaliser *)
(* ================================================================== *)

Section SkillFacts.

Lemma skillGraph_eq : skillGraph = map (fun n => (name n, n)) catalog.
Proof. reflexivity. Qed.

Lemma catalog_names_NoDup : NoDup (map name catalog).
Proof.
  apply (NoDup_count_occ' string_dec).
  intros x Hin. simpl in Hin.
  repeat (destruct Hin as [<-|Hin]; [reflexivity|]). contradiction.
Qed.

Lemma map_get_names (l : list SkillNode) k n :
  map_get (map (fun n => (name n, n)) l) k = Some n -> In n l /\ name n = k.
Proof.
  induction l as [|a l IH]; simpl; [discriminate|].
  destruct (String.eqb_spec (name a) k) as [<-|Hne].
  - intros [= ->]. auto.
  - intros H. destruct (IH H). auto.
Qed.

Lemma map_get_names_None (l : list SkillNode) k :
  map_get (map (fun n => (name n, n)) l) k = None ->
  forall n, In n l -> name n <> k.
Proof.
  induction l as [|a l IH]; simpl; [tauto|].
  destruct (String.eqb_spec (name a) k) as [<-|Hne]; [discriminate|].
  intros H n [<-|Hin]; auto.
Qed.

Lemma graph_get_Some c n :
  map_get skillGraph c = Some n -> In n catalog /\ name n = c.
Proof. rewrite skillGraph_eq. apply map_get_names. Qed.

Lemma graph_get_direct c :
  directMatch c <-> exists n, map_get skillGraph c = Some n.
Proof.
  split.
  - intros (n & Hin & Hn).
    destruct (map_get skillGraph c) as [n'|] eqn:E; [eauto|].
    rewrite skillGraph_eq in E.
    exfalso. exact (map_get_names_None _ _ E n Hin Hn).
  - intros (n & Hn). exists n. now apply graph_get_Some.
Qed.

Lemma arr_includes_In arr x : arr_includes arr x = true <-> In x arr.
Proof.
  unfold arr_includes. rewrite existsb_exists. split.
  - intros (y & Hin & Heq). apply String.eqb_eq in Heq. now subst.
  - intros Hin. exists x. split; [assumption|apply String.eqb_refl].
Qed.

Lemma findAlias_Some (l : list SkillNode) c n :
  findAlias (map (fun n => (name n, n)) l) c = Some n ->
  In n l /\ In c (aliases n).
Proof.
  induction l as [|a l IH]; simpl; [discriminate|].
  destruct (arr_includes (aliases a) c) eqn:E.
  - intros [= ->]. split; [now left|now apply arr_includes_In].
  - intros H. destruct (IH H). auto.
Qed.

Lemma findAlias_None (l : list SkillNode) c :
  findAlias (map (fun n => (name n, n)) l) c = None ->
  forall n, In n l -> ~ In c (aliases n).
Proof.
  induction l as [|a l IH]; simpl; [tauto|].
  destruct (arr_includes (aliases a) c) eqn:E; [discriminate|].
  intros H n [<-|Hin]; [|auto].
  rewrite <- arr_includes_In. congruence.
Qed.

Lemma first_match_Some vars n :
  first_match skillGraph vars = Some n ->
  exists v, In v vars /\ In n catalog /\ name n = v.
Proof.
  induction vars as [|v vars IH]; cbn [first_match]; [discriminate|].
  destruct (map_get skillGraph v) as [m|] eqn:E.
  - intros [= ->]. exists v. destruct (graph_get_Some _ _ E). cbn [In]. auto.
  - intros H. destruct (IH H) as (v' & ? & ? & ?). exists v'. cbn [In]. auto.
Qed.

Lemma first_match_None vars :
  first_match skillGraph vars = None ->
  forall v, In v vars -> ~ directMatch v.
Proof.
  induction vars as [|v vars IH]; cbn [first_match In]; [tauto|].
  destruct (map_get skillGraph v) as [m|] eqn:E; [discriminate|].
  intros H v' [<-|Hin]; [|auto].
  rewrite graph_get_direct. intros (n & Hn). congruence.
Qed.

End SkillFacts.

Section NormalizeFacts.

Lemma normalizeSkill_weight_pos g t r :
  normalizeSkill g t = Some r -> 0 < weight r.
Proof.
  unfold normalizeSkill.
  destruct (String.eqb _ EmptyString); [discriminate|].
  destruct (map_get g _); [intros [= <-]; reflexivity|].
  destruct (findAlias _ _); [intros [= <-]; reflexivity|].
  destruct (findFuzzyMatch _ _); intros [= <-]; reflexivity.
Qed.

Lemma totalWeight_app k done t :
  totalWeight k (done ++ [t]) == totalWeight k done + tokenWeight k t.
Proof.
  induction done as [|a done IH]; simpl.
  - lra.
  - rewrite IH. lra.
Qed.

Lemma totalWeight_perm k l l' :
  Permutation l l' -> totalWeight k l == totalWeight k l'.
Proof.
  induction 1; simpl; lra.
Qed.

Lemma totalWeight_unseen k done :
  (forall t r, In t done -> normalizeSkill skillGraph t = Some r -> skillKey r <> k) ->
  totalWeight k done == 0.
Proof.
  induction done as [|a done IH]; simpl; intros H; [reflexivity|].
  rewrite IH by (intros t r Hin; apply H; now right).
  unfold tokenWeight.
  destruct (normalizeSkill skillGraph a) as [r|] eqn:E; [|reflexivity].
  destruct (String.eqb_spec (skillKey r) k) as [Heq|]; [|reflexivity].
  exfalso. apply (H a r); auto.
Qed.

Lemma tokenWeight_same t r :
  normalizeSkill skillGraph t = Some r -> tokenWeight (skillKey r) t = weight r.
Proof. intros H. unfold tokenWeight. now rewrite H, String.eqb_refl. Qed.

Lemma tokenWeight_other k t r :
  normalizeSkill skillGraph t = Some r -> skillKey r <> k -> tokenWeight k t = 0.
Proof.
  intros H Hne. unfold tokenWeight. rewrite H.
  now destruct (String.eqb_spec (skillKey r) k).
Qed.

Lemma tokenWeight_skipped k t :
  normalizeSkill skillGraph t = None -> tokenWeight k t = 0.
Proof. intros H. unfold tokenWeight. now rewrite H. Qed.

Lemma entry_ok_skipped done t kv :
  normalizeSkill skillGraph t = None -> entry_ok done kv -> entry_ok (done ++ [t]) kv.
Proof.
  intros Hn (Hk & Hp & Hw). repeat split; auto.
  rewrite totalWeight_app, (tokenWeight_skipped _ _ Hn), Hw. lra.
Qed.

Lemma entry_ok_other done t r kv :
  normalizeSkill skillGraph t = Some r -> fst kv <> skillKey r ->
  entry_ok done kv -> entry_ok (done ++ [t]) kv.
Proof.
  intros Hn Hne (Hk & Hp & Hw). repeat split; auto.
  rewrite totalWeight_app, (tokenWeight_other _ _ _ Hn), Hw by congruence. lra.
Qed.

(** One turn of the loop keeps the invariant. *)
Lemma normalizeStep_inv done m t :
  acc_inv done m -> acc_inv (done ++ [t]) (normalizeStep skillGraph m t).
Proof.
  intros (Hnd & Hall & Hcov). unfold normalizeStep.
  destruct (normalizeSkill skillGraph t) as [r|] eqn:Hn.
  2:{ repeat split; auto.
      - eapply Forall_impl; [|exact Hall]. intros kv. now apply entry_ok_skipped.
      - intros t' r' Hin Hn'. apply in_app_or in Hin as [Hin|[<-|[]]]; eauto.
        congruence. }
  fold (skillKey r).
  destruct (map_get m (skillKey r)) as [e|] eqn:Hget.
  - (* the key was seen before: the weight is added in place *)
    assert (Hkeys := map_set_present_keys m (skillKey r)
                       (set_weight e (weight e + weight r)) e Hget).
    repeat split.
    + now rewrite Hkeys.
    + apply (map_set_present_Forall (entry_ok done) (entry_ok (done ++ [t]))
               m (skillKey r) _ e Hnd Hget); [| |exact Hall].
      * intros (Hk & Hp & Hw). simpl in *. repeat split.
        -- exact Hk.
        -- simpl. pose proof (normalizeSkill_weight_pos _ _ _ Hn). lra.
        -- simpl. rewrite totalWeight_app, (tokenWeight_same _ _ Hn), Hw. reflexivity.
      * intros kv Hne. now apply (entry_ok_other done t r).
    + rewrite Hkeys. intros t' r' Hin Hn'.
      apply in_app_or in Hin as [Hin|[<-|[]]]; [eauto|].
      replace r' with r by congruence.
      apply map_get_In in Hget. change (skillKey r) with (fst (skillKey r, e)).
      now apply in_map.
  - (* a new key: a new entry at the end *)
    rewrite (map_set_absent _ _ _ Hget).
    pose proof (map_get_None _ _ Hget) as Hnotin.
    repeat split.
    + rewrite map_app. simpl.
      apply NoDup_app_remove_l with (l := []). simpl.
      apply Permutation_NoDup with (l := skillKey r :: map fst m).
      * apply Permutation_cons_append.
      * now constructor.
    + apply Forall_app. split.
      * rewrite Forall_forall in *. intros kv Hin.
        apply (entry_ok_other done t r); auto.
        intros Heq. apply Hnotin. rewrite <- Heq. now apply in_map.
      * constructor; [|constructor]. repeat split; simpl.
        -- eapply normalizeSkill_weight_pos; eauto.
        -- rewrite totalWeight_app, (tokenWeight_same _ _ Hn).
           rewrite totalWeight_unseen; [lra|].
           intros t' r' Hin Hn' Heq. apply Hnotin. rewrite <- Heq. eauto.
    + rewrite map_app. intros t' r' Hin Hn'.
      apply in_or_app. apply in_app_or in Hin as [Hin|[<-|[]]].
      * left. eauto.
      * right. replace r' with r by congruence. now left.
Qed.

End NormalizeFacts.

Section NormalizeTheorems.

Lemma normalizeLoop_inv ts : forall done m,
  acc_inv done m ->
  acc_inv (done ++ ts) (fold_left (normalizeStep skillGraph) ts m).
Proof.
  induction ts as [|t ts IH]; intros done m H; simpl.
  - now rewrite app_nil_r.
  - replace (done ++ t :: ts)%list with ((done ++ [t]) ++ ts)%list
      by (now rewrite <- app_assoc).
    apply IH. now apply normalizeStep_inv.
Qed.

Lemma acc_inv_nil : acc_inv [] [].
Proof. repeat split; simpl; [constructor|constructor|tauto]. Qed.

(** With a sound memo the result is what the loop builds from the sorted
    tokens, on a hit as on a miss. *)
Lemma normalizeSkills_compute redis skills :
  memoSound redis skills ->
  fst (normalizeSkills redis skills) = computeSkills skills.
Proof.
  unfold memoSound, normalizeSkills, getSkillNormalization. intros Hmemo.
  destruct skills as [|s skills]; [reflexivity|].
  destruct (getSkillKey (s :: skills)) as [sorted key] eqn:E.
  simpl in Hmemo.
  unfold getSkillKey in E. injection E as <- <-.
  destruct (map_get redis _) as [cached|] eqn:Hget; simpl.
  - now apply Hmemo.
  - reflexivity.
Qed.

Lemma memoSound_empty skills : memoSound [] skills.
Proof. intros cached H. discriminate H. Qed.

Lemma normalizeSkills_nonempty redis skills :
  skills <> [] ->
  normalizeSkills redis skills =
  match map_get redis (snd (getSkillKey skills)) with
  | Some cached => (cached, redis)
  | None =>
      (computeSkills skills,
       setSkillNormalization redis (sort_strings skills) (computeSkills skills))
  end.
Proof. destruct skills; [contradiction|reflexivity]. Qed.

(** A call leaves a memo that is sound for its list, and a second call with
    the same list returns what the first returned. *)
Lemma normalizeSkills_memoises redis skills :
  memoSound redis skills ->
  memoSound (snd (normalizeSkills redis skills)) skills /\
  fst (normalizeSkills (snd (normalizeSkills redis skills)) skills)
  = fst (normalizeSkills redis skills).
Proof.
  intros Hmemo.
  assert (Hafter : memoSound (snd (normalizeSkills redis skills)) skills).
  { destruct skills as [|s skills]; [exact Hmemo|].
    rewrite normalizeSkills_nonempty by discriminate.
    destruct (map_get redis _) as [cached|] eqn:Hget; cbn [snd]; [exact Hmemo|].
    unfold setSkillNormalization, getSkillKey, memoSound. cbn [snd].
    rewrite sort_strings_idem, map_get_set_same. intros cached [= <-].
    reflexivity. }
  split; [exact Hafter|].
  now rewrite !normalizeSkills_compute.
Qed.

Lemma acc_inv_keys done m :
  acc_inv done m -> map skillKey (map_values m) = map fst m.
Proof.
  intros (_ & Hall & _). unfold map_values. rewrite map_map.
  apply map_ext_in. intros kv Hin.
  rewrite Forall_forall in Hall. destruct (Hall kv Hin) as (Hk & _). now symmetry.
Qed.

(** C7: a token that is not empty after trimming always resolves, and the
    first of the four rules that applies decides: a canonical name gives
    weight 1.0, otherwise an alias gives 0.9, otherwise a variation that is a
    canonical name gives 0.8, otherwise the cleaned token is kept with weight
    0.5; [normalizeSkills(["reactjs"])] is the single entry "react" with
    weight 0.9. *)
Theorem normalizeSkill_first_match_wins :
  (forall skill, cleanToken skill <> EmptyString ->
     exists r,
       normalizeSkill skillGraph skill = Some r /\ original r = skill /\
       (directMatch (cleanToken skill) ->
          weight r == 1.0 /\ normalized r = cleanToken skill) /\
       (~ directMatch (cleanToken skill) -> aliasMatch (cleanToken skill) ->
          weight r == 0.9 /\
          exists node, In node catalog /\ In (cleanToken skill) (aliases node) /\
                       normalized r = name node) /\
       (~ directMatch (cleanToken skill) -> ~ aliasMatch (cleanToken skill) ->
        fuzzyMatch (cleanToken skill) ->
          weight r == 0.8 /\
          exists v, In v (generateVariations (cleanToken skill)) /\
                    directMatch v /\ normalized r = v) /\
       (~ directMatch (cleanToken skill) -> ~ aliasMatch (cleanToken skill) ->
        ~ fuzzyMatch (cleanToken skill) ->
          weight r == 0.5 /\ normalized r = cleanToken skill /\
          skill_category r = concept /\ expanded r = [cleanToken skill]))
  /\
  (forall redis, memoSound redis ["reactjs"] ->
     exists r, fst (normalizeSkills redis ["reactjs"]) = [r] /\
               normalized r = "react" /\ weight r == 0.9).
Proof.
  split.
  - intros skill Hne. unfold normalizeSkill. fold (cleanToken skill).
    set (c := cleanToken skill) in *.
    destruct (String.eqb_spec c EmptyString) as [|_]; [contradiction|].
    destruct (map_get skillGraph c) as [d|] eqn:Hd.
    { (* direct *)
      destruct (graph_get_Some _ _ Hd) as (Hin & Hname).
      assert (Hdir : directMatch c) by (exists d; auto).
      eexists. split; [reflexivity|]. split; [reflexivity|].
      split; [intros _; split; [reflexivity|exact Hname]|].
      split; [intros H; contradiction|].
      split; intros H; contradiction. }
    assert (Hnodir : ~ directMatch c).
    { rewrite graph_get_direct. intros (n & Hn). congruence. }
    unfold map_entries.
    destruct (findAlias skillGraph c) as [a|] eqn:Ha.
    { (* alias *)
      rewrite skillGraph_eq in Ha. destruct (findAlias_Some _ _ _ Ha) as (Hin & Hal).
      assert (Halias : aliasMatch c) by (exists a; auto).
      eexists. split; [reflexivity|]. split; [reflexivity|].
      split; [intros H; contradiction|].
      split; [intros _ _; split; [reflexivity|exists a; auto]|].
      split; intros _ H; contradiction. }
    assert (Hnoalias : ~ aliasMatch c).
    { intros (n & Hin & Hal). rewrite skillGraph_eq in Ha.
      exact (findAlias_None _ _ Ha n Hin Hal). }
    unfold findFuzzyMatch.
    destruct (first_match skillGraph (generateVariations c)) as [f|] eqn:Hf.
    { (* fuzzy *)
      destruct (first_match_Some _ _ Hf) as (v & Hv & Hin & Hname).
      assert (Hfz : fuzzyMatch c) by (exists v, f; auto).
      eexists. split; [reflexivity|]. split; [reflexivity|].
      split; [intros H; contradiction|].
      split; [intros _ H; contradiction|].
      split; [|intros _ _ H; contradiction].
      intros _ _ _. split; [reflexivity|].
      exists v. split; [exact Hv|]. split; [exists f; auto|exact Hname]. }
    assert (Hnofz : ~ fuzzyMatch c).
    { intros (v & n & Hv & Hin & Hname).
      apply (first_match_None _ Hf v Hv). exists n; auto. }
    eexists. split; [reflexivity|]. split; [reflexivity|].
    split; [intros H; contradiction|].
    split; [intros _ H; contradiction|].
    split; [intros _ _ H; contradiction|].
    intros _ _ _. repeat split; reflexivity.
  - intros redis Hmemo. rewrite (normalizeSkills_compute _ _ Hmemo). unfold computeSkills.
    eexists. split; [vm_compute; reflexivity|]. split; reflexivity.
Qed.

Lemma normalizeSkill_first_match_wins_witness :
  (exists r, normalizeSkill skillGraph " Vue3 " = Some r /\ weight r == 0.8) /\
  (exists r, fst (normalizeSkills [] ["reactjs"]) = [r] /\
             normalized r = "react" /\ weight r == 0.9).
Proof.
  destruct normalizeSkill_first_match_wins as [Htok Hreact].
  split.
  - destruct (Htok " Vue3 ") as (r & Hr & _ & _ & _ & Hfz & _).
    + vm_compute. discriminate.
    + exists r. split; [exact Hr|].
      apply Hfz.
      * intros (n & Hin & Hn). vm_compute in Hin, Hn.
        repeat (destruct Hin as [<-|Hin]; [discriminate Hn|]). contradiction.
      * intros (n & Hin & Hn). vm_compute in Hin.
        repeat (destruct Hin as [<-|Hin];
                [vm_compute in Hn; repeat (destruct Hn as [Hn|Hn]; [discriminate Hn|]);
                 contradiction|]).
        contradiction.
      * exists "vue", (mkSkillNode "vue" ["vuejs"] framework
                         ["javascript"; "typescript"; "nuxt"]
                         ["vue"; "vuejs"; "javascript"; "js"; "frontend"; "web";
                          "ui"; "component"]).
        split; [vm_compute; tauto|]. split; [vm_compute; tauto|reflexivity].
  - apply Hreact. intros cached Hc. discriminate Hc.
Defined.

(** C6: the result of [normalizeSkills] has at most one entry per lowercased
    normalised name; every token that resolves is represented; the weight of
    an entry is the plain sum of the weights of all tokens that resolve to
    its key, hence positive; a token whose key is already present leaves the
    keys as they are and adds its weight to the entry; a weight can exceed 1. *)
Theorem normalizeSkills_dedup_accumulates :
  (forall redis skills, memoSound redis skills ->
     NoDup (map skillKey (fst (normalizeSkills redis skills))) /\
     (forall t r, In t skills -> normalizeSkill skillGraph t = Some r ->
        In (skillKey r) (map skillKey (fst (normalizeSkills redis skills)))) /\
     (forall e, In e (fst (normalizeSkills redis skills)) ->
        0 < weight e /\ weight e == totalWeight (skillKey e) skills))
  /\
  (forall m t r e,
     normalizeSkill skillGraph t = Some r ->
     map_get m (skillKey r) = Some e ->
     map fst (normalizeStep skillGraph m t) = map fst m /\
     length (normalizeStep skillGraph m t) = length m /\
     map_get (normalizeStep skillGraph m t) (skillKey r)
       = Some (set_weight e (weight e + weight r)))
  /\
  (exists e, fst (normalizeSkills [] ["javascript"; "javascript"]) = [e] /\
             weight e == 2 /\ 1 < weight e).
Proof.
  split; [|split].
  - intros redis skills Hmemo. rewrite (normalizeSkills_compute _ _ Hmemo). unfold computeSkills.
    pose proof (normalizeLoop_inv (sort_strings skills) [] [] acc_inv_nil) as Hinv.
    simpl in Hinv.
    rewrite (acc_inv_keys _ _ Hinv).
    destruct Hinv as (Hnd & Hall & Hcov).
    split; [exact Hnd|]. split.
    + intros t r Hin Hn. apply (Hcov t r); [|exact Hn].
      apply (Permutation_in t (Permutation_sym (sort_strings_perm skills)) Hin).
    + intros e Hin. unfold map_values in Hin. apply in_map_iff in Hin.
      destruct Hin as ([k v] & <- & Hin). simpl.
      rewrite Forall_forall in Hall. destruct (Hall _ Hin) as (Hk & Hp & Hw).
      simpl in *. split; [exact Hp|].
      rewrite Hw, <- Hk. apply totalWeight_perm, sort_strings_perm.
  - intros m t r e Hn Hget. unfold normalizeStep. rewrite Hn.
    fold (skillKey r). rewrite Hget.
    split; [eapply map_set_present_keys; eauto|]. split.
    + rewrite <- (length_map fst), <- (length_map fst m).
      f_equal. eapply map_set_present_keys; eauto.
    + clear Hn. induction m as [|[k' v'] m IH]; simpl in *; [discriminate|].
      destruct (String.eqb_spec k' (skillKey r)) as [->|Hne].
      * simpl. rewrite String.eqb_refl. congruence.
      * simpl. destruct (String.eqb_spec k' (skillKey r)); [contradiction|]. auto.
  - eexists. split; [vm_compute; reflexivity|]. split; reflexivity.
Qed.

Lemma normalizeSkills_dedup_accumulates_witness :
  NoDup (map skillKey (fst (normalizeSkills [] ["JS"; "react"; "javascript"; "reactjs"])))
  /\ (forall e, In e (fst (normalizeSkills [] ["JS"; "react"; "javascript"; "reactjs"])) ->
        0 < weight e /\
        weight e == totalWeight (skillKey e) ["JS"; "react"; "javascript"; "reactjs"]).
Proof.
  destruct normalizeSkills_dedup_accumulates as [H _].
  destruct (H [] ["JS"; "react"; "javascript"; "reactjs"]) as (Hnd & _ & Hw).
  - intros cached Hc. discriminate Hc.
  - split; [exact Hnd|exact Hw].
Defined.

(** C1 (as stated): for ["js","js"] the single entry does not have weight
    2.0, and "js" is not a canonical name. *)
Lemma js_js_weight_is_not_two :
  ~ (exists e, fst (normalizeSkills [] ["js"; "js"]) = [e] /\ weight e == 2.0)
  /\ map_get skillGraph (cleanToken "js") = None.
Proof.
  split; [|reflexivity].
  intros (e & He & Hw). vm_compute in He. injection He as <-.
  vm_compute in Hw. discriminate Hw.
Qed.

(** C1 (amended): for ["js","js"] [normalizeSkills] returns exactly one
    entry, "javascript", of weight 1.8: "js" is no canonical name but an alias
    of "javascript", each occurrence resolves at 0.9 and the second weight is
    added to the entry of the first. *)
Theorem js_js_accumulates_alias_weight :
  forall redis, memoSound redis ["js"; "js"] ->
    exists e r,
      fst (normalizeSkills redis ["js"; "js"]) = [e] /\
      normalized e = "javascript" /\
      normalizeSkill skillGraph "js" = Some r /\
      ~ directMatch (cleanToken "js") /\ aliasMatch (cleanToken "js") /\
      weight r == 0.9 /\
      weight e == weight r + weight r /\
      weight e == 1.8.
Proof.
  intros redis Hmemo. rewrite (normalizeSkills_compute _ _ Hmemo). unfold computeSkills.
  eexists. eexists. split; [vm_compute; reflexivity|].
  split; [reflexivity|]. split; [vm_compute; reflexivity|].
  split.
  { rewrite graph_get_direct. intros (n & Hn). vm_compute in Hn. discriminate. }
  split.
  { exists (mkSkillNode "javascript" ["js"; "ecmascript"] Skills.language
              ["typescript"; "nodejs"; "react"; "vue"; "angular"]
              ["javascript"; "js"; "ecmascript"; "frontend"; "web"; "browser"]).
    split; [vm_compute; tauto|vm_compute; tauto]. }
  repeat split; reflexivity.
Qed.

Lemma js_js_accumulates_alias_weight_witness :
  exists e, fst (normalizeSkills [] ["js"; "js"]) = [e] /\ weight e == 1.8.
Proof.
  destruct (js_js_accumulates_alias_weight []) as (e & r & He & _ & _ & _ & _ & _ & _ & Hw).
  - intros cached Hc. discriminate Hc.
  - exists e. split; [exact He|exact Hw].
Defined.

End NormalizeTheorems.

(* ================================================================== *)
(** * Properties of the ranking *)
(* ================================================================== *)

Section RankingFacts.

Local Open Scope nat_scope.

Lemma tiers_exclusive x :
  (isSmall x = true -> isMedium x = false /\ isLarge x = false) /\
  (isMedium x = true -> isSmall x = false /\ isLarge x = false) /\
  (isLarge x = true -> isSmall x = false /\ isMedium x = false).
Proof.
  unfold isSmall, isMedium, isLarge.
  destruct (N.leb_spec 50 (stars x)), (N.ltb_spec (stars x) 500),
    (N.leb_spec 500 (stars x)), (N.ltb_spec (stars x) 2000),
    (N.leb_spec 2000 (stars x)); simpl; repeat split; intros; try reflexivity;
    try discriminate; lia.
Qed.

Lemma tier_stars x :
  isSmall x || isMedium x || isLarge x = true <-> (50 <= stars x)%N.
Proof.
  unfold isSmall, isMedium, isLarge.
  destruct (N.leb_spec 50 (stars x)), (N.ltb_spec (stars x) 500),
    (N.leb_spec 500 (stars x)), (N.ltb_spec (stars x) 2000),
    (N.leb_spec 2000 (stars x)); simpl; split; intros; try reflexivity;
    try discriminate; lia.
Qed.

Lemma tiers_length (l : list ScoredRepo) :
  (length (filter isSmall l) + length (filter isMedium l)
   + length (filter isLarge l) <= length l)%nat.
Proof.
  induction l as [|x l IH]; simpl; [lia|].
  destruct (tiers_exclusive x) as (Hs & Hm & Hl).
  destruct (isSmall x) eqn:Es.
  - destruct (Hs eq_refl) as [-> ->]. simpl. lia.
  - destruct (isMedium x) eqn:Em.
    + destruct (Hm eq_refl) as [_ ->]. simpl. lia.
    + destruct (isLarge x); simpl; lia.
Qed.

Lemma skipn_nth_error {A} (l : list A) i :
  (i < length l)%nat ->
  exists x, nth_error l i = Some x /\ skipn i l = x :: skipn (S i) l.
Proof.
  revert i. induction l as [|a l IH]; intros i Hi; simpl in Hi; [lia|].
  destruct i as [|i]; simpl.
  - eauto.
  - apply IH. lia.
Qed.

Lemma skipn_exhausted {A} (l : list A) i :
  (length l <= i)%nat -> skipn i l = [].
Proof. intros H. now apply skipn_all2. Qed.

Lemma pattern_cases i :
  ((i mod 4 = 0 \/ i mod 4 = 1) /\ pattern i = Small) \/
  (i mod 4 = 2 /\ pattern i = Medium) \/
  (i mod 4 = 3 /\ pattern i = Large).
Proof.
  unfold pattern. pose proof (Nat.mod_upper_bound i 4 ltac:(lia)) as Hlt.
  destruct (i mod 4)%nat as [|[|[|[|k]]]]; auto; lia.
Qed.

(** The loop over indices emits what the pattern emits on the parts of the
    tiers that lie from the indices on. *)
Lemma tierLoop_emit small medium large n : forall i si mi li,
  tierLoop small medium large n i si mi li =
  emit n i (skipn si small, skipn mi medium, skipn li large).
Proof.
  induction n as [|n IH]; intros i si mi li; [reflexivity|].
  cbn [tierLoop]. rewrite !IH. cbn [emit]. unfold pull, pullFrom.
  destruct (Nat.ltb_spec si (length small)) as [Hs|Hs];
  destruct (Nat.ltb_spec mi (length medium)) as [Hm|Hm];
  destruct (Nat.ltb_spec li (length large)) as [Hl|Hl];
  try (destruct (skipn_nth_error small si Hs) as (xs & -> & ->));
  try (destruct (skipn_nth_error medium mi Hm) as (xm & -> & ->));
  try (destruct (skipn_nth_error large li Hl) as (xl & -> & ->));
  try rewrite (skipn_exhausted small si Hs);
  try rewrite (skipn_exhausted medium mi Hm);
  try rewrite (skipn_exhausted large li Hl);
  destruct (pattern_cases i) as [[[-> | ->] ->] | [[-> ->] | [-> ->]]];
  cbn [Nat.eqb orb andb push]; reflexivity.
Qed.

Lemma pull_length t s m l x s' m' l' :
  pull t (s, m, l) = Some (x, (s', m', l')) ->
  (length s + length m + length l = S (length s' + length m' + length l'))%nat.
Proof.
  unfold pull, pullFrom.
  destruct t, s, m, l; simpl; intros [= <- <- <- <-]; simpl; lia.
Qed.

Lemma pull_None t s m l :
  pull t (s, m, l) = None -> s = [] /\ m = [] /\ l = [].
Proof.
  unfold pull, pullFrom. destruct t, s, m, l; simpl; try discriminate; auto.
Qed.

(** A budget that covers what is left in the tiers is as good as any larger one. *)
Lemma emit_budget b : forall b' i s m l,
  (length s + length m + length l <= b)%nat -> (b <= b')%nat ->
  emit b i (s, m, l) = emit b' i (s, m, l).
Proof.
  induction b as [|b IH]; intros b' i s m l Hlen Hle.
  - destruct s, m, l; simpl in Hlen; try lia.
    destruct b'; [reflexivity|]. cbn [emit]. unfold pull, pullFrom.
    now destruct (pattern i).
  - destruct b' as [|b']; [lia|]. cbn [emit].
    destruct (pull (pattern i) (s, m, l)) as [[x [[s' m'] l']]|] eqn:E; [|reflexivity].
    f_equal. apply IH; [|lia].
    apply pull_length in E. lia.
Qed.


Lemma pull_In t s m l x s' m' l' :
  pull t (s, m, l) = Some (x, (s', m', l')) ->
  (In x s \/ In x m \/ In x l) /\
  incl s' s /\ incl m' m /\ incl l' l.
Proof.
  unfold pull, pullFrom.
  destruct t, s, m, l; simpl; intros [= <- <- <- <-];
    (split; [tauto|]); repeat split;
    try apply incl_refl; try (apply incl_tl, incl_refl).
Qed.

Lemma emit_In b : forall i s m l x,
  In x (emit b i (s, m, l)) -> In x s \/ In x m \/ In x l.
Proof.
  induction b as [|b IH]; intros i s m l x; cbn [emit]; [simpl; tauto|].
  destruct (pull (pattern i) (s, m, l)) as [[y [[s' m'] l']]|] eqn:E; [|simpl; tauto].
  destruct (pull_In _ _ _ _ _ _ _ _ E) as (Hy & Hs & Hm & Hl).
  intros [<-|Hin]; [exact Hy|].
  destruct (IH _ _ _ _ _ Hin) as [H|[H|H]]; auto.
Qed.

Lemma applyDiversityTiers_spec (ranked : list ScoredRepo) :
  applyDiversityTiers ranked = diversitySpec ranked.
Proof.
  unfold applyDiversityTiers, diversitySpec. rewrite tierLoop_emit. simpl skipn.
  destruct (Nat.le_gt_cases (length ranked) 50) as [Hle|Hgt].
  - rewrite Nat.min_l by exact Hle.
    apply emit_budget; [|exact Hle]. apply tiers_length.
  - rewrite Nat.min_r by lia. reflexivity.
Qed.

Lemma applyDiversityTiers_stars (ranked : list ScoredRepo) x :
  In x (applyDiversityTiers ranked) -> In x ranked /\ (50 <= stars x)%N.
Proof.
  rewrite applyDiversityTiers_spec. unfold diversitySpec. intros Hin.
  apply emit_In in Hin. rewrite !filter_In in Hin.
  rewrite <- tier_stars.
  destruct Hin as [[? ->]|[[? ->]|[? ->]]]; rewrite ?orb_true_r; auto.
Qed.

End RankingFacts.

(* ================================================================== *)
(** * Properties of the dimension scorers *)
(* ================================================================== *)

Section NumberFacts.

Lemma Qleb_cases a b : ((a <=? b) = true /\ a <= b) \/ ((a <=? b) = false /\ b < a).
Proof.
  destruct (a <=? b) eqn:E.
  - left. split; [reflexivity|]. now apply Qle_bool_iff.
  - right. split; [reflexivity|]. apply Qnot_le_lt. rewrite <- Qle_bool_iff. congruence.
Qed.

Lemma Qdiv_nonneg a b : 0 <= a -> 0 <= b -> 0 <= a / b.
Proof.
  intros Ha Hb. unfold Qdiv. apply Qmult_le_0_compat; [exact Ha|].
  now apply Qinv_le_0_compat.
Qed.

Lemma ofNat_nonneg n : 0 <= ofNat n.
Proof. unfold ofNat, Qle. simpl. lia. Qed.

Lemma ofN_nonneg n : 0 <= ofN n.
Proof. unfold ofN, Qle. simpl. lia. Qed.

Lemma Qmin_bounds x hi : 0 <= x -> 0 <= hi -> 0 <= Qmin x hi <= hi.
Proof. intros. split; [now apply Q.min_glb|apply Q.le_min_r]. Qed.


End NumberFacts.

Section ScorerFacts.

Implicit Types (rt : Runtime) (repo : RepositoryDetails)
  (skills : list NormalizedSkill) (options : ScoringOptions).

Lemma calculateStarsScore_bounds n : 0 <= calculateStarsScore n <= 0.7.
Proof.
  unfold calculateStarsScore.
  destruct (n =? 0)%N; [lra|].
  destruct (20000 <? n)%N; [lra|].
  destruct (5000 <? n)%N; [lra|].
  destruct (1000 <? n)%N; [lra|].
  apply Qmin_bounds; [|lra].
  apply Qdiv_nonneg; [apply ofN_nonneg|lra].
Qed.

Lemma calculateActivityScore_bounds rt repo :
  0 <= calculateActivityScore rt repo <= 1.
Proof.
  unfold calculateActivityScore.
  set (d := daysSince rt (lastActivity repo)).
  assert (H1 : forall x, 0 <= x -> 0 <= Qmin x 1.0 <= 1).
  { intros x Hx. split; [apply Q.min_glb; lra|].
    eapply Qle_trans; [apply Q.le_min_r|lra]. }
  apply H1.
  destruct (d <=? 1), (d <=? 7), (d <=? 30), (d <=? 90), (d <=? 365), (d <=? 3); lra.
Qed.

Lemma calculateIssueScore_bounds repo : 0 <= calculateIssueScore repo <= 1.
Proof.
  unfold calculateIssueScore.
  destruct (open_issues_count repo =? 0)%N; [lra|].
  set (dens := ofN (goodFirstIssues repo) / ofN (open_issues_count repo)).
  assert (Hb : 0 <= Qmin (ofN (open_issues_count repo) / 20) 0.1).
  { apply Q.min_glb; [|lra]. apply Qdiv_nonneg; [apply ofN_nonneg|lra]. }
  split.
  - apply Q.min_glb; [|lra].
    destruct (0.1 <=? dens), (0.05 <=? dens), (0.02 <=? dens), (0 <? dens); lra.
  - eapply Qle_trans; [apply Q.le_min_r|lra].
Qed.

Lemma calculateContributorScore_bounds repo :
  0 <= calculateContributorScore repo <= 1.
Proof.
  unfold calculateContributorScore.
  assert (Hf : 0 <= Qmin (ofN (forks_count repo) / 100) 1.0 <= 1).
  { split; [apply Q.min_glb; [apply Qdiv_nonneg; [apply ofN_nonneg|lra]|lra]|].
    eapply Qle_trans; [apply Q.le_min_r|lra]. }
  assert (Hs : 0 <= Qmin (ofN (stargazers_count repo) / 1000) 1.0 <= 1).
  { split; [apply Q.min_glb; [apply Qdiv_nonneg; [apply ofN_nonneg|lra]|lra]|].
    eapply Qle_trans; [apply Q.le_min_r|lra]. }
  lra.
Qed.

(** ** Scorers that read optional fields: they return, and within bounds *)

Lemma calculateLanguageMatch_Ok repo skills :
  exists q, calculateLanguageMatch repo skills = Ok q /\ 0 <= q <= 1 /\
            (truthy_str (language repo) = false -> q = 0).
Proof.
  unfold calculateLanguageMatch.
  destruct (language repo) as [l|]; simpl.
  2:{ exists 0. repeat split; lra. }
  destruct (String.eqb l EmptyString); simpl.
  { exists 0. repeat split; lra. }
  destruct (isEmpty skills); simpl.
  { exists 0. repeat split; try lra; try discriminate. }
  repeat match goal with
         | |- context [if ?b then _ else _] => destruct b
         end;
    eexists; (split; [reflexivity|]); (split; [lra|discriminate]).
Qed.

Lemma ratio_score_bounds a b k :
  0 <= k -> 0 <= Qmin (ofNat a / ofNat b * k) 1.0 <= 1.
Proof.
  intros Hk. split.
  - apply Q.min_glb; [|lra].
    apply Qmult_le_0_compat; [|exact Hk].
    apply Qdiv_nonneg; apply ofNat_nonneg.
  - eapply Qle_trans; [apply Q.le_min_r|lra].
Qed.

Lemma calculateTopicMatch_Ok repo skills :
  exists q, calculateTopicMatch repo skills = Ok q /\ 0 <= q <= 1 /\
            (topics repo = None -> q = 0).
Proof.
  unfold calculateTopicMatch.
  destruct (topics repo) as [ts|]; simpl.
  2:{ exists 0. repeat split; lra. }
  destruct (isEmpty ts || isEmpty skills).
  { exists 0. repeat split; try lra; try discriminate. }
  eexists. split; [reflexivity|]. split; [|discriminate].
  apply ratio_score_bounds. lra.
Qed.

Lemma calculateReadmeMatch_Ok repo skills :
  exists q, calculateReadmeMatch repo skills = Ok q /\ 0 <= q <= 1 /\
            (truthy_str (description repo) = false -> q = 0).
Proof.
  unfold calculateReadmeMatch.
  destruct (description repo) as [d|]; simpl.
  2:{ exists 0. repeat split; lra. }
  destruct (String.eqb d EmptyString); simpl.
  { exists 0. repeat split; lra. }
  destruct (isEmpty skills); simpl.
  { exists 0. repeat split; try lra; try discriminate. }
  eexists. split; [reflexivity|]. split; [|discriminate].
  apply ratio_score_bounds. lra.
Qed.

Lemma calculateDocumentationScore_Ok repo :
  exists q, calculateDocumentationScore repo = Ok q /\ 0 <= q <= 1.
Proof.
  unfold calculateDocumentationScore, and_then.
  destruct (description repo) as [d|], (homepage repo) as [h|],
    (license repo) as [[[n|]]|], (topics repo) as [ts|]; simpl;
    repeat match goal with
           | |- context [if ?b then _ else _] => destruct b; simpl
           end;
    eexists; (split; [reflexivity|]);
    (split; [apply Q.min_glb; lra|eapply Qle_trans; [apply Q.le_min_r|lra]]).
Qed.

Lemma Qmin_le_1 x : Qmin x 1 <= 1.
Proof. apply Q.le_min_r. Qed.

Lemma Qmin_nonneg x y : 0 <= x -> 0 <= y -> 0 <= Qmin x y.
Proof. intros. now apply Q.min_glb. Qed.

Lemma Qmax0_nonneg x : 0 <= Qmax 0 x.
Proof. apply Q.le_max_l. Qed.

Lemma calculateCommitActivityScore_Ok repo :
  exists q, calculateCommitActivityScore repo = Ok q /\ q <= 1 /\
            (enrichedNonneg repo -> 0 <= q) /\
            (opt_chain (enrichedData repo) commitAnalysis = None -> q = 0).
Proof.
  unfold calculateCommitActivityScore, enrichedNonneg.
  destruct (enrichedData repo) as [e|]; simpl.
  2:{ exists 0. repeat split; try lra; auto. }
  destruct (commitAnalysis e) as [c|]; simpl.
  2:{ exists 0. repeat split; try lra; auto. }
  eexists. split; [reflexivity|]. split; [apply Qmin_le_1|]. split; [|discriminate].
  intros ((Hf & Hc & Hm & Hb) & _).
  assert (0 <= Qmin (frequency c / 5) 1)
    by (apply Qmin_nonneg; [apply Qdiv_nonneg|]; lra).
  pose proof (Qmax0_nonneg (1 - recency c / 30)).
  apply Qmin_nonneg; lra.
Qed.

Lemma calculateIssueResponseScore_Ok repo :
  exists q, calculateIssueResponseScore repo = Ok q /\ q <= 1 /\
            (enrichedNonneg repo -> 0 <= q) /\
            (opt_chain (enrichedData repo) issueAnalysis = None -> q = 0).
Proof.
  unfold calculateIssueResponseScore, enrichedNonneg.
  destruct (enrichedData repo) as [e|]; simpl.
  2:{ exists 0. repeat split; try lra; auto. }
  destruct (issueAnalysis e) as [a|]; simpl.
  2:{ exists 0. repeat split; try lra; auto. }
  eexists. split; [reflexivity|]. split; [apply Qmin_le_1|]. split; [|discriminate].
  intros (_ & (H1 & H2 & H3 & H4 & H5) & _).
  pose proof (Qmax0_nonneg (1 - responseTime a / 24)).
  apply Qmin_nonneg; lra.
Qed.

Lemma calculateDependencyHealthScore_Ok repo :
  exists q, calculateDependencyHealthScore repo = Ok q /\ q <= 1 /\
            (enrichedNonneg repo -> 0 <= q) /\
            (opt_chain (enrichedData repo) dependencyAnalysis = None -> q = 0).
Proof.
  unfold calculateDependencyHealthScore, enrichedNonneg.
  destruct (enrichedData repo) as [e|]; simpl.
  2:{ exists 0. repeat split; try lra; auto. }
  destruct (dependencyAnalysis e) as [a|]; simpl.
  2:{ exists 0. repeat split; try lra; auto. }
  eexists. split; [reflexivity|]. split; [apply Qmin_le_1|]. split; [|discriminate].
  intros (_ & _ & (H1 & H2 & H3 & H4) & _).
  match goal with
  | |- context [Qmax 0 ?x] => pose proof (Qmax0_nonneg x)
  end.
  apply Qmin_nonneg; lra.
Qed.

Lemma calculateReadmeQualityScore_Ok repo :
  exists q, calculateReadmeQualityScore repo = Ok q /\ q <= 1 /\
            (enrichedNonneg repo -> 0 <= q) /\
            (opt_chain (enrichedData repo) readmeAnalysis = None -> q = 0).
Proof.
  unfold calculateReadmeQualityScore, enrichedNonneg.
  destruct (enrichedData repo) as [e|]; simpl.
  2:{ exists 0. repeat split; try lra; auto. }
  destruct (readmeAnalysis e) as [a|]; simpl.
  2:{ exists 0. repeat split; try lra; auto. }
  eexists. split; [reflexivity|]. split; [apply Qmin_le_1|]. split; [|discriminate].
  intros (_ & _ & _ & (H1 & H2)).
  assert (0 <= Qmin (learningResources a / 5) 1)
    by (apply Qmin_nonneg; [apply Qdiv_nonneg|]; lra).
  pose proof (Qmax0_nonneg (1 - setupDifficulty a)).
  apply Qmin_nonneg; lra.
Qed.

Lemma fold_add_nonneg {A} (f : A -> bool) (k : Q) (l : list A) : forall acc,
  0 <= k -> 0 <= acc ->
  0 <= fold_left (fun m x => if f x then m + k else m) l acc.
Proof.
  induction l as [|x l IH]; intros acc Hk Hacc; simpl; [exact Hacc|].
  apply IH; [exact Hk|]. destruct (f x); lra.
Qed.

Lemma calculateSkillMatchScore_Ok repo skills :
  exists q, calculateSkillMatchScore repo skills = Ok q /\ 0 <= q <= 1 /\
            (opt_chain (opt_chain (enrichedData repo) readmeAnalysis) skillKeywords
             = None -> q = 0).
Proof.
  unfold calculateSkillMatchScore.
  destruct (enrichedData repo) as [e|]; simpl.
  2:{ exists 0. repeat split; try lra; auto. }
  destruct (readmeAnalysis e) as [a|]; simpl.
  2:{ exists 0. repeat split; try lra; auto. }
  destruct (skillKeywords a) as [ks|]; simpl.
  2:{ exists 0. repeat split; try lra; auto. }
  destruct (isEmpty skills); simpl.
  { exists 0. repeat split; try lra; try discriminate. }
  eexists. split; [reflexivity|]. split; [|discriminate].
  destruct (0 <? length (map _ skills))%nat; [|lra].
  split; [|apply Qmin_le_1].
  apply Qmin_nonneg; [|lra]. apply Qdiv_nonneg; [|apply ofNat_nonneg].
  apply fold_add_nonneg; [lra|]. apply fold_add_nonneg; lra.
Qed.

Lemma calculateRelevanceScore_Ok repo skills options :
  exists q, calculateRelevanceScore repo skills options = Ok q /\ 0 <= q <= 1.
Proof.
  unfold calculateRelevanceScore.
  destruct (calculateLanguageMatch_Ok repo skills) as (lm & -> & Hlm & _).
  destruct (calculateTopicMatch_Ok repo skills) as (tm & -> & Htm & _).
  destruct (calculateReadmeMatch_Ok repo skills) as (rm & -> & Hrm & _).
  destruct (calculateSkillMatchScore_Ok repo skills) as (sm & -> & Hsm & _).
  cbn [bind]. eexists. split; [reflexivity|].
  destruct (mode_is options learning), (mode_is options quick_wins);
    cbn [rw_language rw_topic rw_readme rw_skillMatch]; lra.
Qed.

Lemma calculateQualityScore_Ok rt repo options :
  exists q, calculateQualityScore rt repo options = Ok q /\ q <= 1 /\
            (enrichedNonneg repo -> 0 <= q).
Proof.
  unfold calculateQualityScore.
  destruct (calculateDocumentationScore_Ok repo) as (doc & -> & Hdoc).
  destruct (calculateCommitActivityScore_Ok repo) as (ca & -> & _ & Hca & _).
  destruct (calculateDependencyHealthScore_Ok repo) as (dh & -> & _ & Hdh & _).
  destruct (calculateReadmeQualityScore_Ok repo) as (rq & -> & _ & Hrq & _).
  cbn [bind]. eexists. split; [reflexivity|].
  split; [eapply Qle_trans; [apply Q.le_min_r|lra]|].
  intros Hwf. specialize (Hca Hwf). specialize (Hdh Hwf). specialize (Hrq Hwf).
  pose proof (calculateStarsScore_bounds (stargazers_count repo)).
  pose proof (calculateActivityScore_bounds rt repo).
  assert (0 <= Qmin (ofN (forks_count repo) / 20) 0.05)
    by (apply Qmin_nonneg; [apply Qdiv_nonneg; [apply ofN_nonneg|]|]; lra).
  apply Qmin_nonneg; [|lra].
  destruct (mode_is options learning), (mode_is options quick_wins),
    (mode_is options profile_building);
    cbn [qw_stars qw_activity qw_documentation qw_commitActivity
         qw_dependencyHealth qw_readmeQuality];
    destruct ((50 <=? stargazers_count repo)%N && (stargazers_count repo <=? 500)%N),
      (0 <? forks_count repo)%N; lra.
Qed.

Lemma calculateOpportunityScore_Ok repo options :
  exists q, calculateOpportunityScore repo options = Ok q /\ q <= 1 /\
            (enrichedNonneg repo -> 0 <= q).
Proof.
  unfold calculateOpportunityScore.
  destruct (calculateIssueResponseScore_Ok repo) as (ir & -> & Hle & Hir & _).
  cbn [bind]. eexists. split; [reflexivity|].
  pose proof (calculateIssueScore_bounds repo).
  pose proof (calculateContributorScore_bounds repo).
  split; [|intros Hwf; specialize (Hir Hwf)];
    destruct (mode_is options learning), (mode_is options quick_wins),
      (mode_is options profile_building);
    cbn [ow_issues ow_contributors ow_response]; lra.
Qed.

Lemma calculateModePenalties_Ok rt repo options :
  exists p, calculateModePenalties rt repo options = Ok p.
Proof.
  unfold calculateModePenalties.
  destruct (mode options) as [[]|]; [eauto| |eauto|eauto].
  destruct (description repo) as [d|]; simpl; [destruct (String.eqb d EmptyString)|];
    simpl; eauto.
Qed.

Lemma modeBonus_Ok rt repo options :
  exists b, modeBonus rt repo options = Ok b.
Proof.
  unfold modeBonus, descriptionIncludes, topicsSome, and_then.
  destruct (mode options) as [[]|];
    destruct (description repo) as [d|], (topics repo) as [ts|]; simpl;
    try destruct (String.eqb d EmptyString); simpl; eauto.
Qed.

(** The composite scorer returns, and its result is put together as follows. *)
Lemma scoreRepository_Ok rt repo skills options :
  exists rel qual opp bonus modeP lm tm rm doc ca ir dh rq sm,
    calculateRelevanceScore repo skills options = Ok rel /\
    calculateQualityScore rt repo options = Ok qual /\
    calculateOpportunityScore repo options = Ok opp /\
    modeBonus rt repo options = Ok bonus /\
    calculateModePenalties rt repo options = Ok modeP /\
    calculateLanguageMatch repo skills = Ok lm /\
    calculateTopicMatch repo skills = Ok tm /\
    calculateReadmeMatch repo skills = Ok rm /\
    calculateDocumentationScore repo = Ok doc /\
    calculateCommitActivityScore repo = Ok ca /\
    calculateIssueResponseScore repo = Ok ir /\
    calculateDependencyHealthScore repo = Ok dh /\
    calculateReadmeQualityScore repo = Ok rq /\
    calculateSkillMatchScore repo skills = Ok sm /\
    scoreRepository rt repo skills options =
    Ok (mkScore rel qual opp
          (applyFreshnessBoost rt
             (clamp01
                (rel * w_relevance (effectiveWeights options) +
                 qual * w_quality (effectiveWeights options) +
                 opp * w_opportunity (effectiveWeights options) +
                 bonus - (0 + calculateSizePenalty rt repo + modeP)))
             repo)
          (mkBreakdown lm tm rm
             (calculateStarsScore (stargazers_count repo))
             (calculateActivityScore rt repo)
             doc
             (calculateIssueScore repo)
             (calculateContributorScore repo)
             ca ir dh rq sm)).
Proof.
  destruct (calculateRelevanceScore_Ok repo skills options) as (rel & Hrel & _).
  destruct (calculateQualityScore_Ok rt repo options) as (qual & Hqual & _).
  destruct (calculateOpportunityScore_Ok repo options) as (opp & Hopp & _).
  destruct (modeBonus_Ok rt repo options) as (bonus & Hbonus).
  destruct (calculateModePenalties_Ok rt repo options) as (modeP & HmodeP).
  destruct (calculateLanguageMatch_Ok repo skills) as (lm & Hlm & _).
  destruct (calculateTopicMatch_Ok repo skills) as (tm & Htm & _).
  destruct (calculateReadmeMatch_Ok repo skills) as (rm & Hrm & _).
  destruct (calculateDocumentationScore_Ok repo) as (doc & Hdoc & _).
  destruct (calculateCommitActivityScore_Ok repo) as (ca & Hca & _).
  destruct (calculateIssueResponseScore_Ok repo) as (ir & Hir & _).
  destruct (calculateDependencyHealthScore_Ok repo) as (dh & Hdh & _).
  destruct (calculateReadmeQualityScore_Ok repo) as (rq & Hrq & _).
  destruct (calculateSkillMatchScore_Ok repo skills) as (sm & Hsm & _).
  exists rel, qual, opp, bonus, modeP, lm, tm, rm, doc, ca, ir, dh, rq, sm.
  repeat (split; [assumption|]).
  unfold scoreRepository, applyModeBonuses.
  rewrite Hrel, Hqual, Hopp. cbn [bind].
  rewrite HmodeP, Hbonus. cbn [bind].
  rewrite Hlm, Htm, Hrm, Hdoc, Hca, Hir, Hdh, Hrq, Hsm. cbn [bind].
  reflexivity.
Qed.

Lemma mapM_Ok {A B} (f : A -> result B) (l : list A) :
  (forall x, exists y, f x = Ok y) ->
  exists ys, mapM f l = Ok ys /\ length ys = length l /\
             forall y, In y ys -> exists x, In x l /\ f x = Ok y.
Proof.
  intros Hf. induction l as [|x l (ys & Hys & Hlen & Hin)]; simpl.
  - exists []. repeat split. intros y [].
  - destruct (Hf x) as (y & Hy). rewrite Hy, Hys. cbn [bind].
    exists (y :: ys). split; [reflexivity|]. split; [simpl; congruence|].
    intros y' [<-|Hy']; [eauto|].
    destruct (Hin y' Hy') as (x' & ? & ?). eauto.
Qed.

(** The batch scorer returns: every repository is scored, the scored list is
    sorted and shuffled within its bands into [ranked], and [ranked] is tiered. *)
Lemma scoreRepositories_Ok rt repos skills options :
  exists scored,
    mapM (fun repo =>
            s <- scoreRepository rt repo skills options ;; Ok (mkScored repo s))
      repos = Ok scored /\
    length scored = length repos /\
    (forall x, In x scored ->
       In (repo x) repos /\ scoreRepository rt (repo x) skills options = Ok (score x)) /\
    scoreRepositories rt repos skills options =
    Ok (applyDiversityTiers (randomizeCloseScores rt (sortByScore scored))).
Proof.
  destruct (mapM_Ok
              (fun repo =>
                 s <- scoreRepository rt repo skills options ;; Ok (mkScored repo s))
              repos) as (scored & Hm & Hlen & Hin).
  { intros r.
    destruct (scoreRepository_Ok rt r skills options)
      as (? & ? & ? & ? & ? & ? & ? & ? & ? & ? & ? & ? & ? & ? & H).
    decompose [and] H. 
    match goal with E : scoreRepository _ _ _ _ = _ |- _ => rewrite E end.
    cbn [bind]. eauto. }
  exists scored. split; [exact Hm|]. split; [exact Hlen|]. split.
  - intros x Hx. destruct (Hin x Hx) as (r & Hr & Hs).
    destruct (scoreRepository rt r skills options) as [s|] eqn:E; [|discriminate].
    cbn [bind] in Hs. injection Hs as <-. simpl. auto.
  - unfold scoreRepositories. rewrite Hm. reflexivity.
Qed.

End ScorerFacts.

(* ================================================================== *)
(** * Properties of the scoring engine and of the ranking *)
(* ================================================================== *)

Section ScoringTheorems.

Implicit Types (rt : Runtime) (repo : RepositoryDetails)
  (skills : list NormalizedSkill) (options : ScoringOptions).

(** C8: the stars score is 0 for 0 stars, 0.5 above 20000, 0.6 above 5000,
    0.7 above 1000 and min(stars/1000, 0.7) otherwise; it never exceeds 0.7
    and does not increase above 1000 stars. *)
Theorem calculateStarsScore_tiers :
  forall n,
    (n = 0%N -> calculateStarsScore n == 0) /\
    ((20000 < n)%N -> calculateStarsScore n == 0.5) /\
    ((5000 < n <= 20000)%N -> calculateStarsScore n == 0.6) /\
    ((1000 < n <= 5000)%N -> calculateStarsScore n == 0.7) /\
    ((0 < n <= 1000)%N -> calculateStarsScore n == Qmin (ofN n / 1000) 0.7) /\
    calculateStarsScore n <= 0.7 /\
    (forall n', (1000 < n <= n')%N -> calculateStarsScore n' <= calculateStarsScore n).
Proof.
  intros n.
  assert (Hform : forall k,
    calculateStarsScore k =
    if (k =? 0)%N then 0 else if (20000 <? k)%N then 0.5
    else if (5000 <? k)%N then 0.6 else if (1000 <? k)%N then 0.7
    else Qmin (ofN k / 1000) 0.7) by reflexivity.
  repeat split.
  - intros ->. reflexivity.
  - intros H. rewrite Hform.
    destruct (N.eqb_spec n 0); [lia|]. destruct (N.ltb_spec 20000 n); [reflexivity|lia].
  - intros H. rewrite Hform.
    destruct (N.eqb_spec n 0); [lia|]. destruct (N.ltb_spec 20000 n); [lia|].
    destruct (N.ltb_spec 5000 n); [reflexivity|lia].
  - intros H. rewrite Hform.
    destruct (N.eqb_spec n 0); [lia|]. destruct (N.ltb_spec 20000 n); [lia|].
    destruct (N.ltb_spec 5000 n); [lia|]. destruct (N.ltb_spec 1000 n); [reflexivity|lia].
  - intros H. rewrite Hform.
    destruct (N.eqb_spec n 0); [lia|]. destruct (N.ltb_spec 20000 n); [lia|].
    destruct (N.ltb_spec 5000 n); [lia|]. destruct (N.ltb_spec 1000 n); [lia|reflexivity].
  - apply calculateStarsScore_bounds.
  - intros n' H. rewrite (Hform n), (Hform n').
    destruct (N.eqb_spec n 0); [lia|]. destruct (N.eqb_spec n' 0); [lia|].
    destruct (N.ltb_spec 20000 n), (N.ltb_spec 20000 n'),
      (N.ltb_spec 5000 n), (N.ltb_spec 5000 n'),
      (N.ltb_spec 1000 n), (N.ltb_spec 1000 n'); try lia; lra.
Qed.

Lemma calculateStarsScore_tiers_witness :
  calculateStarsScore 0 == 0 /\ calculateStarsScore 25000 == 0.5 /\
  calculateStarsScore 6000 == 0.6 /\ calculateStarsScore 1500 == 0.7 /\
  calculateStarsScore 300 == Qmin (ofN 300 / 1000) 0.7 /\
  calculateStarsScore 6000 <= calculateStarsScore 1500.
Proof.
  destruct (calculateStarsScore_tiers 0) as (H0 & _).
  destruct (calculateStarsScore_tiers 25000) as (_ & H1 & _).
  destruct (calculateStarsScore_tiers 6000) as (_ & _ & H2 & _).
  destruct (calculateStarsScore_tiers 1500) as (_ & _ & _ & H3 & _ & _ & Hm).
  destruct (calculateStarsScore_tiers 300) as (_ & _ & _ & _ & H4 & _).
  split; [apply H0; reflexivity|].
  split; [apply H1; lia|].
  split; [apply H2; lia|].
  split; [apply H3; lia|].
  split; [apply H4; lia|].
  apply Hm. lia.
Defined.




Lemma insertByScore_perm x l : Permutation (insertByScore x l) (x :: l).
Proof.
  induction l as [|y l IH]; simpl; [reflexivity|].
  destruct (final (score x) <? final (score y)); [|reflexivity].
  rewrite IH. apply perm_swap.
Qed.

Lemma sortByScore_perm l : Permutation (sortByScore l) l.
Proof.
  induction l as [|x l IH]; simpl; [reflexivity|].
  rewrite insertByScore_perm. now constructor.
Qed.

Lemma randomizeFrom_perm rt rest : forall i c g,
  Permutation (randomizeFrom rt i c g rest) (g ++ rest).
Proof.
  induction rest as [|x rest IH]; intros i c g; simpl.
  - rewrite app_nil_r. apply shuffle_perm.
  - destruct (withinThreePercent _ _).
    + rewrite IH, <- app_assoc. reflexivity.
    + rewrite IH. apply Permutation_app_tail, shuffle_perm.
Qed.

Lemma randomizeCloseScores_perm rt l : Permutation (randomizeCloseScores rt l) l.
Proof.
  destruct l as [|x l]; simpl; [reflexivity|].
  apply (randomizeFrom_perm rt l 0%nat (final (score x)) [x]).
Qed.

Lemma ranked_perm rt l :
  Permutation (randomizeCloseScores rt (sortByScore l)) l.
Proof. rewrite randomizeCloseScores_perm. apply sortByScore_perm. Qed.

Lemma pull_Some_iff t s m l :
  pull t (s, m, l) = None <-> (length s + length m + length l = 0)%nat.
Proof.
  split; [intros H; apply pull_None in H as (-> & -> & ->); reflexivity|].
  destruct s, m, l; simpl; try lia. now destruct t.
Qed.

Lemma emit_length_exact b : forall i s m l,
  length (emit b i (s, m, l)) = Nat.min b (length s + length m + length l).
Proof.
  induction b as [|b IH]; intros i s m l; cbn [emit]; [reflexivity|].
  destruct (pull (pattern i) (s, m, l)) as [[x [[s' m'] l']]|] eqn:E.
  - cbn [length]. rewrite IH. apply pull_length in E. rewrite E. reflexivity.
  - apply pull_Some_iff in E. rewrite E. reflexivity.
Qed.

(** C3: nothing with fewer than 50 stars is in the list [scoreRepositories]
    returns. The three tiers start at 50 stars, so such a repository is in no
    tier, and every returned entry is a scored input repository of a tier. *)
Theorem scoreRepositories_drops_below_50_stars :
  (forall rt repos skills options,
     exists out,
       scoreRepositories rt repos skills options = Ok out /\
       forall x, In x out ->
         In (repo x) repos /\ (50 <= stargazers_count (repo x))%N /\
         (isSmall x || isMedium x || isLarge x = true))
  /\
  (forall x, (stargazers_count (repo x) < 50)%N ->
     isSmall x = false /\ isMedium x = false /\ isLarge x = false /\
     forall ranked, ~ In x (applyDiversityTiers ranked)).
Proof.
  split.
  - intros rt repos skills options.
    destruct (scoreRepositories_Ok rt repos skills options)
      as (scored & _ & _ & Hin & Heq).
    eexists. split; [exact Heq|].
    intros x Hx. apply applyDiversityTiers_stars in Hx as (Hx & Hstars).
    apply (Permutation_in x (ranked_perm rt scored)) in Hx.
    split; [apply (Hin x Hx)|]. split; [exact Hstars|].
    now apply tier_stars.
  - intros x Hlt.
    assert (Hno : isSmall x || isMedium x || isLarge x = false).
    { apply not_true_iff_false. rewrite tier_stars. unfold stars. lia. }
    apply orb_false_iff in Hno as (Hno & Hl).
    apply orb_false_iff in Hno as (Hs & Hm).
    repeat split; auto.
    intros ranked Hin. apply applyDiversityTiers_stars in Hin as (_ & Hge).
    unfold stars in Hge. lia.
Qed.

Lemma scoreRepositories_drops_below_50_stars_witness :
  isSmall (mkScored (withStars sampleRepo 49)
             (mkScore 1 1 1 1.2 (mkBreakdown 1 1 1 1 1 1 1 1 1 1 1 1 1))) = false /\
  isMedium (mkScored (withStars sampleRepo 49)
              (mkScore 1 1 1 1.2 (mkBreakdown 1 1 1 1 1 1 1 1 1 1 1 1 1))) = false /\
  isLarge (mkScored (withStars sampleRepo 49)
             (mkScore 1 1 1 1.2 (mkBreakdown 1 1 1 1 1 1 1 1 1 1 1 1 1))) = false.
Proof.
  destruct scoreRepositories_drops_below_50_stars as (_ & H).
  destruct (H (mkScored (withStars sampleRepo 49)
                 (mkScore 1 1 1 1.2 (mkBreakdown 1 1 1 1 1 1 1 1 1 1 1 1 1))))
    as (Hs & Hm & Hl & _); [reflexivity|].
  split; [exact Hs|]. split; [exact Hm|exact Hl].
Defined.

Lemma pull_cases t s m l x s' m' l' :
  pull t (s, m, l) = Some (x, (s', m', l')) ->
  (s = x :: s' /\ m' = m /\ l' = l) \/
  (m = x :: m' /\ s' = s /\ l' = l) \/
  (l = x :: l' /\ s' = s /\ m' = m).
Proof.
  unfold pull, pullFrom.
  destruct t, s, m, l; simpl; intros [= <- <- <- <-]; auto.
Qed.







(** C4 (as stated): the same repository, skills and options scored at two
    clock readings give two different scores. *)
Lemma scoreRepository_reads_the_clock :
  exists s1 s2,
    scoreRepository (sampleRuntime (1001 * day)) sampleRepo sampleSkills
      defaultOptions = Ok s1 /\
    scoreRepository (sampleRuntime (1400 * day)) sampleRepo sampleSkills
      defaultOptions = Ok s2 /\
    s1 <> s2 /\
    ~ final s1 == final s2 /\
    ~ quality s1 == quality s2 /\
    ~ activityScore (breakdown s1) == activityScore (breakdown s2).
Proof.
  eexists. eexists.
  split; [vm_compute; reflexivity|]. split; [vm_compute; reflexivity|].
  split; [discriminate|].
  repeat split; intros H; vm_compute in H; discriminate H.
Qed.

(** C4 (amended): [scoreRepository] is a function of its arguments and of
    the clock reading. Two runs at the same clock reading (and with the same
    [Math.log10]) return the same score; at any two clock readings the
    relevance, the opportunity and every sub-score of the breakdown other
    than the activity score are the same. *)
Theorem scoreRepository_function_of_arguments_and_clock :
  forall rt1 rt2 repo skills options,
    (now rt1 = now rt2 -> (forall q, log10 rt1 q = log10 rt2 q) ->
     scoreRepository rt1 repo skills options = scoreRepository rt2 repo skills options)
    /\
    exists s1 s2,
      scoreRepository rt1 repo skills options = Ok s1 /\
      scoreRepository rt2 repo skills options = Ok s2 /\
      relevance s1 = relevance s2 /\
      opportunity s1 = opportunity s2 /\
      languageMatch (breakdown s1) = languageMatch (breakdown s2) /\
      topicMatch (breakdown s1) = topicMatch (breakdown s2) /\
      readmeMatch (breakdown s1) = readmeMatch (breakdown s2) /\
      starsScore (breakdown s1) = starsScore (breakdown s2) /\
      documentationScore (breakdown s1) = documentationScore (breakdown s2) /\
      issueScore (breakdown s1) = issueScore (breakdown s2) /\
      contributorScore (breakdown s1) = contributorScore (breakdown s2) /\
      commitActivityScore (breakdown s1) = commitActivityScore (breakdown s2) /\
      issueResponseScore (breakdown s1) = issueResponseScore (breakdown s2) /\
      dependencyHealthScore (breakdown s1) = dependencyHealthScore (breakdown s2) /\
      readmeQualityScore (breakdown s1) = readmeQualityScore (breakdown s2) /\
      skillMatchScore (breakdown s1) = skillMatchScore (breakdown s2).
Proof.
  intros rt1 rt2 repo skills options. split.
  - intros Hnow Hlog.
    unfold scoreRepository, calculateQualityScore, calculateActivityScore,
      applyModeBonuses, calculateSizePenalty, calculateModePenalties, modeBonus,
      applyFreshnessBoost, daysSince.
    rewrite Hnow, Hlog. reflexivity.
  - destruct (scoreRepository_Ok rt1 repo skills options)
      as (rel & qual & opp & bonus & modeP & lm & tm & rm & doc & ca & ir & dh & rq & sm
          & Hrel & _ & Hopp & _ & _ & Hlm & Htm & Hrm & Hdoc & Hca & Hir & Hdh & Hrq
          & Hsm & Hs1).
    destruct (scoreRepository_Ok rt2 repo skills options)
      as (rel' & qual' & opp' & bonus' & modeP' & lm' & tm' & rm' & doc' & ca' & ir'
          & dh' & rq' & sm' & Hrel' & _ & Hopp' & _ & _ & Hlm' & Htm' & Hrm' & Hdoc'
          & Hca' & Hir' & Hdh' & Hrq' & Hsm' & Hs2).
    eexists. eexists. split; [exact Hs1|]. split; [exact Hs2|].
    cbn [relevance opportunity breakdown languageMatch topicMatch readmeMatch
         starsScore documentationScore issueScore contributorScore
         commitActivityScore issueResponseScore dependencyHealthScore
         readmeQualityScore skillMatchScore].
    repeat split; congruence.
Qed.

Lemma scoreRepository_function_of_arguments_and_clock_witness :
  scoreRepository (sampleRuntime (1001 * day)) sampleRepo sampleSkills defaultOptions
  = scoreRepository
      (mkRuntime (1001 * day) (log10 (sampleRuntime 0)) (fun _ g => rev g)
         (fun _ g => Permutation_sym (Permutation_rev g)))
      sampleRepo sampleSkills defaultOptions.
Proof.
  apply (scoreRepository_function_of_arguments_and_clock
           (sampleRuntime (1001 * day))
           (mkRuntime (1001 * day) (log10 (sampleRuntime 0)) (fun _ g => rev g)
              (fun _ g => Permutation_sym (Permutation_rev g)))
           sampleRepo sampleSkills defaultOptions).
  - reflexivity.
  - intros q. reflexivity.
Defined.

(** C10: each scorer of enrichment data returns 0 when its block is absent;
    [scoreRepository] returns a score whatever optional data is missing, with
    0 for the dimension whose input is missing and the documentation score
    reduced to its good-first-issue part; [scoreRepositories] returns too. *)
Theorem missing_optional_data_degrades_to_defaults :
  (forall repo, opt_chain (enrichedData repo) commitAnalysis = None ->
     calculateCommitActivityScore repo = Ok 0) /\
  (forall repo, opt_chain (enrichedData repo) issueAnalysis = None ->
     calculateIssueResponseScore repo = Ok 0) /\
  (forall repo, opt_chain (enrichedData repo) dependencyAnalysis = None ->
     calculateDependencyHealthScore repo = Ok 0) /\
  (forall repo, opt_chain (enrichedData repo) readmeAnalysis = None ->
     calculateReadmeQualityScore repo = Ok 0) /\
  (forall repo skills,
     opt_chain (opt_chain (enrichedData repo) readmeAnalysis) skillKeywords = None ->
     calculateSkillMatchScore repo skills = Ok 0) /\
  (forall rt repo skills options,
     exists s,
       scoreRepository rt repo skills options = Ok s /\
       (description repo = None -> readmeMatch (breakdown s) = 0) /\
       (topics repo = None -> topicMatch (breakdown s) = 0) /\
       (language repo = None -> languageMatch (breakdown s) = 0) /\
       (enrichedData repo = None ->
          commitActivityScore (breakdown s) = 0 /\
          issueResponseScore (breakdown s) = 0 /\
          dependencyHealthScore (breakdown s) = 0 /\
          readmeQualityScore (breakdown s) = 0 /\
          skillMatchScore (breakdown s) = 0) /\
       (description repo = None -> homepage repo = None -> license repo = None ->
        topics repo = None ->
          documentationScore (breakdown s)
          == if (0 <? goodFirstIssues repo)%N then 0.2 else 0)) /\
  (forall rt repos skills options,
     exists out, scoreRepositories rt repos skills options = Ok out).
Proof.
  split; [|split; [|split; [|split; [|split; [|split]]]]].
  - intros repo H. unfold calculateCommitActivityScore. now rewrite H.
  - intros repo H. unfold calculateIssueResponseScore. now rewrite H.
  - intros repo H. unfold calculateDependencyHealthScore. now rewrite H.
  - intros repo H. unfold calculateReadmeQualityScore. now rewrite H.
  - intros repo skills H. unfold calculateSkillMatchScore. now rewrite H.
  - intros rt repo skills options.
    destruct (scoreRepository_Ok rt repo skills options)
      as (rel & qual & opp & bonus & modeP & lm & tm & rm & doc & ca & ir & dh & rq & sm
          & _ & _ & _ & _ & _ & Hlm & Htm & Hrm & Hdoc & Hca & Hir & Hdh & Hrq
          & Hsm & Hs).
    eexists. split; [exact Hs|].
    cbn [breakdown languageMatch topicMatch readmeMatch documentationScore
         commitActivityScore issueResponseScore dependencyHealthScore
         readmeQualityScore skillMatchScore].
    split; [|split; [|split; [|split]]].
    + intros H. destruct (calculateReadmeMatch_Ok repo skills) as (q & E & _ & Hq).
      rewrite H in Hq. specialize (Hq eq_refl). congruence.
    + intros H. destruct (calculateTopicMatch_Ok repo skills) as (q & E & _ & Hq).
      specialize (Hq H). congruence.
    + intros H. destruct (calculateLanguageMatch_Ok repo skills) as (q & E & _ & Hq).
      rewrite H in Hq. specialize (Hq eq_refl). congruence.
    + intros H.
      destruct (calculateCommitActivityScore_Ok repo) as (q1 & E1 & _ & _ & H1).
      destruct (calculateIssueResponseScore_Ok repo) as (q2 & E2 & _ & _ & H2).
      destruct (calculateDependencyHealthScore_Ok repo) as (q3 & E3 & _ & _ & H3).
      destruct (calculateReadmeQualityScore_Ok repo) as (q4 & E4 & _ & _ & H4).
      destruct (calculateSkillMatchScore_Ok repo skills) as (q5 & E5 & _ & H5).
      rewrite H in H1, H2, H3, H4, H5.
      specialize (H1 eq_refl). specialize (H2 eq_refl). specialize (H3 eq_refl).
      specialize (H4 eq_refl). specialize (H5 eq_refl).
      repeat split; congruence.
    + intros H1 H2 H3 H4. unfold calculateDocumentationScore in Hdoc.
      rewrite H1, H2, H3, H4 in Hdoc. cbn in Hdoc.
      destruct (0 <? goodFirstIssues repo)%N; injection Hdoc as <-; reflexivity.
  - intros rt repos skills options.
    destruct (scoreRepositories_Ok rt repos skills options) as (scored & _ & _ & _ & H).
    eauto.
Qed.

Lemma missing_optional_data_degrades_to_defaults_witness :
  calculateCommitActivityScore bareRepo = Ok 0 /\
  calculateSkillMatchScore bareRepo sampleSkills = Ok 0 /\
  exists s, scoreRepository (sampleRuntime (1001 * day)) bareRepo sampleSkills
              defaultOptions = Ok s /\
            readmeMatch (breakdown s) = 0 /\ topicMatch (breakdown s) = 0 /\
            languageMatch (breakdown s) = 0 /\
            documentationScore (breakdown s) == 0.
Proof.
  destruct missing_optional_data_degrades_to_defaults
    as (Hc & _ & _ & _ & Hk & Hs & _).
  split; [apply Hc; reflexivity|]. split; [apply Hk; reflexivity|].
  destruct (Hs (sampleRuntime (1001 * day)) bareRepo sampleSkills defaultOptions)
    as (s & Es & Hr & Ht & Hl & _ & Hd).
  exists s. split; [exact Es|].
  split; [apply Hr; reflexivity|]. split; [apply Ht; reflexivity|].
  split; [apply Hl; reflexivity|].
  rewrite Hd by reflexivity. reflexivity.
Defined.

End ScoringTheorems.

(* ================================================================== *)
(** * Further properties of lib/skills.ts *)
(* ================================================================== *)

Section StringFacts.

Lemma lower_ascii_idem c : lower_ascii (lower_ascii c) = lower_ascii c.
Proof. destruct c as [[] [] [] [] [] [] [] []]; reflexivity. Qed.

Lemma is_space_lower c : is_space (lower_ascii c) = is_space c.
Proof. destruct c as [[] [] [] [] [] [] [] []]; reflexivity. Qed.

Lemma toLowerCase_idem s : toLowerCase (toLowerCase s) = toLowerCase s.
Proof.
  induction s as [|c s IH]; simpl; [reflexivity|].
  now rewrite lower_ascii_idem, IH.
Qed.

Lemma toLowerCase_is_empty s :
  String.eqb (toLowerCase s) EmptyString = String.eqb s EmptyString.
Proof. now destruct s. Qed.

Lemma trimStart_lower s : trimStart (toLowerCase s) = toLowerCase (trimStart s).
Proof.
  induction s as [|c s IH]; simpl; [reflexivity|].
  rewrite is_space_lower. now destruct (is_space c).
Qed.

Lemma trimEnd_lower s : trimEnd (toLowerCase s) = toLowerCase (trimEnd s).
Proof.
  induction s as [|c s IH]; simpl; [reflexivity|].
  rewrite is_space_lower, IH, toLowerCase_is_empty.
  now destruct (is_space c && String.eqb (trimEnd s) EmptyString).
Qed.

Lemma trim_lower s : trim (toLowerCase s) = toLowerCase (trim s).
Proof. unfold trim. now rewrite trimStart_lower, trimEnd_lower. Qed.

Lemma trimEnd_idem s : trimEnd (trimEnd s) = trimEnd s.
Proof.
  induction s as [|c s IH]; simpl; [reflexivity|].
  destruct (is_space c && String.eqb (trimEnd s) EmptyString) eqn:E; simpl;
    [reflexivity|].
  now rewrite IH, E.
Qed.

Lemma trimStart_startsClean s : startsClean (trimStart s).
Proof.
  induction s as [|c s IH]; simpl; [exact I|].
  destruct (is_space c) eqn:E; [exact IH|exact E].
Qed.

Lemma trimStart_fixed s : startsClean s -> trimStart s = s.
Proof. destruct s as [|c s]; simpl; [reflexivity|]. now intros ->. Qed.

Lemma trimEnd_startsClean s : startsClean s -> startsClean (trimEnd s).
Proof. destruct s as [|c s]; simpl; [auto|]. intros H. rewrite H. exact H. Qed.

Lemma trim_idem s : trim (trim s) = trim s.
Proof.
  unfold trim.
  rewrite (trimStart_fixed (trimEnd (trimStart s))).
  - apply trimEnd_idem.
  - apply trimEnd_startsClean, trimStart_startsClean.
Qed.

(** Cleaning a token twice is cleaning it once. *)
Lemma cleanToken_idem s : cleanToken (cleanToken s) = cleanToken s.
Proof.
  unfold cleanToken. now rewrite trim_lower, toLowerCase_idem, trim_idem.
Qed.

End StringFacts.

Section ExpandedSkills.

Lemma set_add_In set x y : In y (set_add set x) <-> In y set \/ y = x.
Proof.
  unfold set_add. destruct (arr_includes set x) eqn:E.
  - apply arr_includes_In in E. split; [auto|]. intros [H| ->]; assumption.
  - rewrite in_app_iff. simpl. intuition.
Qed.

Lemma set_add_NoDup set x : NoDup set -> NoDup (set_add set x).
Proof.
  intros Hnd. unfold set_add. destruct (arr_includes set x) eqn:E; [exact Hnd|].
  apply NoDup_app_remove_l with (l := []). simpl.
  apply Permutation_NoDup with (l := x :: set); [apply Permutation_cons_append|].
  constructor; [|exact Hnd]. rewrite <- arr_includes_In. congruence.
Qed.

Lemma set_add_all_In l : forall set y,
  In y (fold_left set_add l set) <-> In y set \/ In y l.
Proof.
  induction l as [|x l IH]; intros set y; simpl; [tauto|].
  rewrite IH, set_add_In. intuition.
Qed.

Lemma set_add_all_NoDup l : forall set,
  NoDup set -> NoDup (fold_left set_add l set).
Proof.
  induction l as [|x l IH]; intros set H; simpl; [exact H|].
  now apply IH, set_add_NoDup.
Qed.

Lemma expand_loop skills : forall set,
  NoDup set ->
  NoDup (fold_left
           (fun expanded_ skill =>
              fold_left set_add (expanded skill) (set_add expanded_ (normalized skill)))
           skills set) /\
  forall y,
    In y (fold_left
            (fun expanded_ skill =>
               fold_left set_add (expanded skill) (set_add expanded_ (normalized skill)))
            skills set) <->
    In y set \/ exists skill, In skill skills /\
                         (y = normalized skill \/ In y (expanded skill)).
Proof.
  induction skills as [|sk skills IH]; intros set Hnd; simpl.
  - split; [exact Hnd|]. intros y. split; [auto|]. intros [H|(k & [] & _)]. exact H.
  - destruct (IH (fold_left set_add (expanded sk) (set_add set (normalized sk))))
      as (Hnd' & Hin).
    { now apply set_add_all_NoDup, set_add_NoDup. }
    split; [exact Hnd'|]. intros y. rewrite Hin, set_add_all_In, set_add_In.
    split.
    + intros [[[H|H]|H]|(k & Hk & H)]; eauto 6.
    + intros [H|(k & [<-|Hk] & [H|H])]; eauto 6.
Qed.

(** X1: the keyword bag of [getExpandedSkills] lists nothing twice, and it
    holds a string exactly when the string is the normalised name or an
    expanded keyword of one of the skills. *)
Theorem getExpandedSkills_is_the_union :
  forall skills,
    NoDup (getExpandedSkills skills) /\
    forall y, In y (getExpandedSkills skills) <->
              exists skill, In skill skills /\
                            (y = normalized skill \/ In y (expanded skill)).
Proof.
  intros skills. destruct (expand_loop skills [] (NoDup_nil _)) as (Hnd & Hin).
  split; [exact Hnd|]. intros y. unfold getExpandedSkills. rewrite Hin.
  simpl. tauto.
Qed.

End ExpandedSkills.

Section SkillStats.

Local Open Scope nat_scope.

Lemma map_get_set {V} (m : Map V) k k' (v : V) :
  map_get (map_set m k v) k' = if String.eqb k k' then Some v else map_get m k'.
Proof.
  induction m as [|[k0 v0] m IH]; simpl.
  - reflexivity.
  - destruct (String.eqb_spec k0 k) as [->|Hne]; simpl.
    + destruct (String.eqb_spec k k'); reflexivity.
    + rewrite IH. destruct (String.eqb_spec k0 k') as [->|]; [|reflexivity].
      destruct (String.eqb_spec k k'); [congruence|reflexivity].
Qed.

Lemma sumValues_set (m : Map nat) k v :
  sumValues (map_set m k v)
  + match map_get m k with Some n => n | None => 0 end
  = sumValues m + v.
Proof.
  induction m as [|[k0 v0] m IH]; simpl; [lia|].
  destruct (String.eqb_spec k0 k) as [->|Hne]; simpl; lia.
Qed.

Lemma categoryName_inj c c' : categoryName c = categoryName c' -> c = c'.
Proof. destruct c, c'; simpl; intros H; try reflexivity; discriminate H. Qed.

Lemma Category_eqb_eq c c' : Category_eqb c c' = true <-> c = c'.
Proof. destruct c, c'; simpl; split; intros H; try reflexivity; discriminate H. Qed.

Lemma nodesOf_app c (g : Map SkillNode) e :
  nodesOf c (g ++ [e])%list =
  nodesOf c g + if Category_eqb (category (snd e)) c then 1 else 0.
Proof.
  unfold nodesOf. rewrite filter_app, length_app. simpl.
  now destruct (Category_eqb (category (snd e)) c).
Qed.

(** The counting loop: after the entries [done] the table holds, for every
    category, the number of its nodes (no entry when there is none), and the
    counts add up to the number of entries. *)
Lemma count_loop (rest : Map SkillNode) : forall done cats,
  (forall c, map_get cats (categoryName c) =
             if nodesOf c done =? 0 then None else Some (nodesOf c done)) ->
  sumValues cats = length done ->
  let cats' :=
    fold_left (fun categories entry => countCategory categories (category (snd entry)))
      rest cats in
  (forall c, map_get cats' (categoryName c) =
             if nodesOf c (done ++ rest)%list =? 0 then None
             else Some (nodesOf c (done ++ rest)%list)) /\
  sumValues cats' = length (done ++ rest)%list.
Proof.
  induction rest as [|e rest IH]; intros done cats Hget Hsum; simpl.
  - rewrite app_nil_r. auto.
  - replace (done ++ e :: rest)%list with ((done ++ [e]) ++ rest)%list
      by now rewrite <- app_assoc.
    apply IH.
    + intros c. unfold countCategory. rewrite map_get_set, nodesOf_app.
      rewrite (Hget (category (snd e))), (Hget c).
      destruct (String.eqb_spec (categoryName (category (snd e))) (categoryName c))
        as [Heq|Hne].
      * apply categoryName_inj in Heq. rewrite Heq.
        replace (Category_eqb c c) with true by (symmetry; now apply Category_eqb_eq).
        destruct (nodesOf c done) as [|k]; reflexivity.
      * destruct (Category_eqb (category (snd e)) c) eqn:E.
        { apply Category_eqb_eq in E. congruence. }
        now rewrite Nat.add_0_r.
    + unfold countCategory.
      pose proof (sumValues_set cats (categoryName (category (snd e)))
                    (match map_get cats (categoryName (category (snd e))) with
                     | Some n => n | None => 0 end + 1)).
      rewrite length_app. simpl. lia.
Qed.

(** X2: for every graph, [getSkillStats] reports the number of nodes, files
    every node under its category (a category without node has no entry) and
    its per-category counts add up to the total. *)
Theorem getSkillStats_counts_every_node :
  forall graph,
    fst (getSkillStats graph) = length graph /\
    (forall c, map_get (snd (getSkillStats graph)) (categoryName c) =
               if nodesOf c graph =? 0 then None else Some (nodesOf c graph)) /\
    sumValues (snd (getSkillStats graph)) = fst (getSkillStats graph).
Proof.
  intros graph. unfold getSkillStats. cbn [fst snd].
  destruct (count_loop graph [] []) as (Hget & Hsum); [reflexivity|reflexivity|].
  simpl in Hget, Hsum. auto.
Qed.

End SkillStats.

Section VersionedTokens.

Lemma generateVariations_digits c :
  has_digit c = true -> In (strip_digits c) (generateVariations c).
Proof.
  intros H. unfold generateVariations. rewrite H.
  apply in_or_app. right. now left.
Qed.

Lemma first_match_found (graph : Map SkillNode) vars :
  first_match graph vars = None -> forall v, In v vars -> map_get graph v = None.
Proof.
  induction vars as [|v vars IH]; cbn [first_match In]; [tauto|].
  destruct (map_get graph v) as [m|] eqn:E; [discriminate|].
  intros H v' [<-|Hin]; auto.
Qed.

Lemma first_match_node (graph : Map SkillNode) vars n :
  first_match graph vars = Some n -> exists key, In (key, n) graph.
Proof.
  induction vars as [|v vars IH]; cbn [first_match]; [discriminate|].
  destruct (map_get graph v) as [m|] eqn:E.
  - intros [= ->]. exists v. now apply map_get_In.
  - exact IH.
Qed.

Lemma findAlias_node (entries : list (string * SkillNode)) c n :
  findAlias entries c = Some n -> exists key, In (key, n) entries.
Proof.
  induction entries as [|[k a] entries IH]; simpl; [discriminate|].
  destruct (arr_includes (aliases a) c).
  - intros [= ->]. eauto.
  - intros H. destruct (IH H) as (key & ?). eauto.
Qed.

Lemma has_digit_nonempty c : has_digit c = true -> c <> EmptyString.
Proof. now destruct c. Qed.

(** X3: a token that carries digits and whose digit-free form is a canonical
    name of the graph never falls back to an unknown concept: it resolves to
    a node of the graph, with weight at least 0.8. *)
Theorem versioned_name_resolves :
  forall (graph : Map SkillNode) skill n,
    has_digit (cleanToken skill) = true ->
    map_get graph (strip_digits (cleanToken skill)) = Some n ->
    exists r node key,
      normalizeSkill graph skill = Some r /\
      In (key, node) graph /\
      normalized r = name node /\
      expanded r = node_expanded node /\
      0.8 <= weight r.
Proof.
  intros graph skill n Hdig Hget.
  unfold normalizeSkill. fold (cleanToken skill).
  set (c := cleanToken skill) in *.
  destruct (String.eqb_spec c EmptyString) as [E|_].
  { now apply has_digit_nonempty in Hdig. }
  destruct (map_get graph c) as [d|] eqn:Hd.
  { exists (mkNormalizedSkill skill (name d) (category d) (node_expanded d) 1.0), d, c.
    repeat split; [now apply map_get_In|discriminate]. }
  unfold map_entries.
  destruct (findAlias graph c) as [a|] eqn:Ha.
  { destruct (findAlias_node _ _ _ Ha) as (key & Hin).
    exists (mkNormalizedSkill skill (name a) (category a) (node_expanded a) 0.9), a, key.
    repeat split; [exact Hin|discriminate]. }
  unfold findFuzzyMatch.
  destruct (first_match graph (generateVariations c)) as [f|] eqn:Hf.
  { destruct (first_match_node _ _ _ Hf) as (key & Hin).
    exists (mkNormalizedSkill skill (name f) (category f) (node_expanded f) 0.8), f, key.
    repeat split; [exact Hin|discriminate]. }
  pose proof (first_match_found _ _ Hf _ (generateVariations_digits c Hdig)).
  congruence.
Qed.

Lemma versioned_name_resolves_witness :
  exists r, normalizeSkill skillGraph "Python3" = Some r /\
            normalized r = "python" /\ 0.8 <= weight r.
Proof.
  destruct (versioned_name_resolves skillGraph "Python3"
              (mkSkillNode "python" ["py"] Skills.language
                 ["django"; "flask"; "fastapi"; "pandas"; "numpy"]
                 ["python"; "py"; "backend"; "server"; "scripting"; "data-science"]))
    as (r & node & key & Hr & _ & _ & _ & Hw); [reflexivity|reflexivity|].
  exists r. split; [exact Hr|]. split; [|exact Hw].
  vm_compute in Hr. injection Hr as <-. reflexivity.
Defined.

End VersionedTokens.

Section BlankTokens.

Local Open Scope nat_scope.

Lemma normalizeSkill_blank g t : isBlank t = true -> normalizeSkill g t = None.
Proof. unfold isBlank, cleanToken, normalizeSkill. now intros ->. Qed.

Lemma map_set_length {V} (m : Map V) k (v : V) :
  length (map_set m k v) <= S (length m).
Proof.
  induction m as [|[k0 v0] m IH]; simpl; [lia|].
  destruct (String.eqb k0 k); simpl; lia.
Qed.

Lemma normalizeStep_length g m t :
  length (normalizeStep g m t) <= length m + if isBlank t then 0 else 1.
Proof.
  unfold normalizeStep. destruct (isBlank t) eqn:E.
  - rewrite (normalizeSkill_blank g t E). lia.
  - destruct (normalizeSkill g t) as [r|]; [|lia].
    destruct (map_get m _);
      match goal with |- context [map_set ?a ?b ?c] =>
        pose proof (map_set_length a b c) end; lia.
Qed.

Lemma normalizeLoop_length g ts : forall m,
  length (fold_left (normalizeStep g) ts m)
  <= length m + length (filter (fun s => negb (isBlank s)) ts).
Proof.
  induction ts as [|t ts IH]; intros m; simpl; [lia|].
  specialize (IH (normalizeStep g m t)).
  pose proof (normalizeStep_length g m t).
  destruct (isBlank t); simpl in *; lia.
Qed.

Lemma filter_perm_length {A} (f : A -> bool) l l' :
  Permutation l l' -> length (filter f l) = length (filter f l').
Proof.
  induction 1; simpl; try congruence.
  - destruct (f x); simpl; congruence.
  - destruct (f x), (f y); reflexivity.
Qed.

(** X4: blank tokens are skipped: the result has at most as many entries as
    there are tokens that are not empty once trimmed, and is empty when all
    tokens are blank. *)
Theorem normalizeSkills_skips_blank_tokens :
  forall redis skills,
    memoSound redis skills ->
    length (fst (normalizeSkills redis skills))
    <= length (filter (fun s => negb (isBlank s)) skills) /\
    (forallb isBlank skills = true -> fst (normalizeSkills redis skills) = []).
Proof.
  intros redis skills Hmemo.
  assert (Hlen : length (fst (normalizeSkills redis skills))
                 <= length (filter (fun s => negb (isBlank s)) skills)).
  { rewrite (normalizeSkills_compute _ _ Hmemo). unfold computeSkills, map_values.
    rewrite length_map.
    pose proof (normalizeLoop_length skillGraph (sort_strings skills) []) as H.
    rewrite (filter_perm_length _ _ _ (sort_strings_perm skills)) in H.
    exact H. }
  split; [exact Hlen|].
  intros Hall.
  assert (Hnone : filter (fun s => negb (isBlank s)) skills = []).
  { clear - Hall. induction skills as [|s skills IH]; simpl in *; [reflexivity|].
    apply andb_true_iff in Hall as (-> & Hrest). simpl. auto. }
  rewrite Hnone in Hlen. simpl in Hlen.
  destruct (fst (normalizeSkills redis skills)); [reflexivity|simpl in Hlen; lia].
Qed.

Lemma normalizeSkills_skips_blank_tokens_witness :
  fst (normalizeSkills [] ["  "; EmptyString; "   "]) = [] /\
  length (fst (normalizeSkills [] [" "; "react"; "ReactJS "; "go"])) <= 3.
Proof.
  destruct (normalizeSkills_skips_blank_tokens [] ["  "; EmptyString; "   "])
    as (_ & H1); [intros c Hc; discriminate Hc|].
  destruct (normalizeSkills_skips_blank_tokens [] [" "; "react"; "ReactJS "; "go"])
    as (H2 & _); [intros c Hc; discriminate Hc|].
  split; [apply H1; reflexivity|exact H2].
Defined.

End BlankTokens.

Section Renormalising.

Lemma catalog_names_clean n : In n catalog -> cleanToken (name n) = name n.
Proof.
  intros H. unfold catalog in H. simpl in H.
  repeat (destruct H as [<-|H]; [reflexivity|]). contradiction.
Qed.

Lemma catalog_names_nonempty n : In n catalog -> name n <> EmptyString.
Proof.
  intros H. unfold catalog in H. simpl in H.
  repeat (destruct H as [<-|H]; [discriminate|]). contradiction.
Qed.

Lemma NoDup_map_inj {A B} (f : A -> B) (l : list A) a b :
  NoDup (map f l) -> In a l -> In b l -> f a = f b -> a = b.
Proof.
  induction l as [|x l IH]; simpl; [tauto|].
  intros Hnd Ha Hb Hf. inversion Hnd as [|? ? Hnotin Hnd']; subst.
  destruct Ha as [<-|Ha], Hb as [<-|Hb]; auto.
  - exfalso. apply Hnotin. rewrite Hf. now apply in_map.
  - exfalso. apply Hnotin. rewrite <- Hf. now apply in_map.
Qed.

(** A catalogue node resolves, by its own name, to itself with weight 1.0. *)
Lemma normalizeSkill_canonical node :
  In node catalog ->
  normalizeSkill skillGraph (name node) =
  Some (mkNormalizedSkill (name node) (name node) (category node)
          (node_expanded node) 1.0).
Proof.
  intros Hin. unfold normalizeSkill. fold (cleanToken (name node)).
  rewrite (catalog_names_clean _ Hin).
  destruct (String.eqb_spec (name node) EmptyString) as [E|_].
  { now apply catalog_names_nonempty in E. }
  destruct (map_get skillGraph (name node)) as [d|] eqn:Hd.
  - destruct (graph_get_Some _ _ Hd) as (Hd_in & Hname).
    assert (d = node)
      by (apply (NoDup_map_inj name catalog); auto using catalog_names_NoDup).
    now subst d.
  - exfalso. rewrite skillGraph_eq in Hd.
    exact (map_get_names_None _ _ Hd node Hin eq_refl).
Qed.

(** X5: normalised names are fixed points: feeding the normalised name of a
    resolved token back into [normalizeSkill] gives the same name, category
    and keywords, with a weight that is not lower (1.0 for a catalogue skill,
    0.5 for an unknown one). *)
Theorem renormalising_is_stable :
  forall skill r,
    normalizeSkill skillGraph skill = Some r ->
    exists r',
      normalizeSkill skillGraph (normalized r) = Some r' /\
      normalized r' = normalized r /\
      skill_category r' = skill_category r /\
      expanded r' = expanded r /\
      weight r <= weight r' /\
      (weight r' == 1.0 \/ weight r' == 0.5).
Proof.
  intros skill r. unfold normalizeSkill at 1. fold (cleanToken skill).
  set (c := cleanToken skill).
  destruct (String.eqb_spec c EmptyString) as [|Hne]; [discriminate|].
  assert (Hcanon : forall node w,
            In node catalog -> w <= 1.0 ->
            exists r',
              normalizeSkill skillGraph (name node) = Some r' /\
              normalized r' = name node /\
              skill_category r' = category node /\
              expanded r' = node_expanded node /\
              w <= weight r' /\ (weight r' == 1.0 \/ weight r' == 0.5)).
  { intros node w Hin Hw. eexists. split; [now apply normalizeSkill_canonical|].
    simpl. repeat split; auto. left. reflexivity. }
  destruct (map_get skillGraph c) as [d|] eqn:Hd.
  { intros [= <-]. simpl. destruct (graph_get_Some _ _ Hd) as (Hin & _).
    apply Hcanon; [exact Hin|discriminate]. }
  unfold map_entries.
  destruct (findAlias skillGraph c) as [a|] eqn:Ha.
  { intros [= <-]. simpl. rewrite skillGraph_eq in Ha.
    destruct (findAlias_Some _ _ _ Ha) as (Hin & _).
    apply Hcanon; [exact Hin|discriminate]. }
  unfold findFuzzyMatch.
  destruct (first_match skillGraph (generateVariations c)) as [f|] eqn:Hf.
  { intros [= <-]. simpl. destruct (first_match_Some _ _ Hf) as (v & _ & Hin & _).
    apply Hcanon; [exact Hin|discriminate]. }
  intros [= <-]. simpl.
  exists (mkNormalizedSkill c c concept [c] 0.5).
  split; [|repeat split; try discriminate; right; reflexivity].
  unfold normalizeSkill. fold (cleanToken c).
  replace (cleanToken c) with c by (symmetry; apply cleanToken_idem).
  destruct (String.eqb_spec c EmptyString); [contradiction|].
  unfold map_entries, findFuzzyMatch. now rewrite Hd, Ha, Hf.
Qed.

Lemma renormalising_is_stable_witness :
  exists r r',
    normalizeSkill skillGraph " ReactJS" = Some r /\
    normalizeSkill skillGraph (normalized r) = Some r' /\
    normalized r' = normalized r /\ weight r <= weight r'.
Proof.
  destruct (renormalising_is_stable " ReactJS"
              (mkNormalizedSkill " ReactJS" "react" framework
                 ["react"; "reactjs"; "javascript"; "js"; "frontend"; "web"; "ui";
                  "component"; "jsx"; "hooks"] 0.9))
    as (r' & Hr' & Hn & _ & _ & Hw & _); [reflexivity|].
  eexists. exists r'. split; [reflexivity|]. split; [exact Hr'|].
  split; [exact Hn|exact Hw].
Defined.

End Renormalising.

(* ================================================================== *)
(** * Further properties of lib/scoring.ts *)
(* ================================================================== *)

Section StepScores.

Implicit Types (rt : Runtime) (repo : RepositoryDetails).

Lemma Qltb_cases a b : ((a <? b) = true /\ a < b) \/ ((a <? b) = false /\ b <= a).
Proof.
  unfold Qltb. destruct (Qleb_cases b a) as [[-> H]|[-> H]]; simpl; auto.
Qed.

Lemma Qmin_const_l x y : x <= y -> Qmin x y == x.
Proof. apply Q.min_l. Qed.

Lemma Qmin_const_r x y : y <= x -> Qmin x y == y.
Proof. apply Q.min_r. Qed.

(** The activity score as a step function of the idle time. *)
Lemma calculateActivityScore_cases rt repo :
  (idleDays rt repo <= 3 /\ calculateActivityScore rt repo == 1) \/
  (3 < idleDays rt repo <= 7 /\ calculateActivityScore rt repo == 0.95) \/
  (7 < idleDays rt repo <= 30 /\ calculateActivityScore rt repo == 0.8) \/
  (30 < idleDays rt repo <= 90 /\ calculateActivityScore rt repo == 0.6) \/
  (90 < idleDays rt repo <= 365 /\ calculateActivityScore rt repo == 0.3) \/
  (365 < idleDays rt repo /\ calculateActivityScore rt repo == 0.1).
Proof.
  unfold calculateActivityScore, idleDays.
  set (d := daysSince rt (lastActivity repo)).
  destruct (Qleb_cases d 1) as [[E1 H1]|[E1 H1]];
  destruct (Qleb_cases d 3) as [[E3 H3]|[E3 H3]];
  destruct (Qleb_cases d 7) as [[E7 H7]|[E7 H7]];
  destruct (Qleb_cases d 30) as [[E30 H30]|[E30 H30]];
  destruct (Qleb_cases d 90) as [[E90 H90]|[E90 H90]];
  destruct (Qleb_cases d 365) as [[E365 H365]|[E365 H365]];
  try (exfalso; lra);
  rewrite ?E1, ?E3, ?E7, ?E30, ?E90, ?E365.
  - left. split; [lra|]. rewrite Qmin_const_r by lra. lra.
  - left. split; [lra|]. rewrite Qmin_const_l by lra. lra.
  - right; left. split; [lra|]. rewrite Qmin_const_l by lra. lra.
  - right; right; left. split; [lra|]. rewrite Qmin_const_l by lra. lra.
  - right; right; right; left. split; [lra|]. rewrite Qmin_const_l by lra. lra.
  - right; right; right; right; left. split; [lra|]. rewrite Qmin_const_l by lra. lra.
  - right; right; right; right; right. split; [lra|]. rewrite Qmin_const_l by lra. lra.
Qed.




Lemma ofN_div_le a b c : (a <= b)%N -> 0 <= c -> ofN a / c <= ofN b / c.
Proof.
  intros H Hc. unfold Qdiv. apply Qmult_le_compat_r.
  - unfold ofN. rewrite <- Zle_Qle. lia.
  - now apply Qinv_le_0_compat.
Qed.

Lemma issueBase_mono d d' : d <= d' -> issueBase d <= issueBase d'.
Proof.
  intros H. unfold issueBase.
  destruct (Qleb_cases 0.1 d) as [[E1 ?]|[E1 ?]];
  destruct (Qleb_cases 0.05 d) as [[E2 ?]|[E2 ?]];
  destruct (Qleb_cases 0.02 d) as [[E3 ?]|[E3 ?]];
  destruct (Qltb_cases 0 d) as [[E4 ?]|[E4 ?]];
  destruct (Qleb_cases 0.1 d') as [[E5 ?]|[E5 ?]];
  destruct (Qleb_cases 0.05 d') as [[E6 ?]|[E6 ?]];
  destruct (Qleb_cases 0.02 d') as [[E7 ?]|[E7 ?]];
  destruct (Qltb_cases 0 d') as [[E8 ?]|[E8 ?]];
  try (exfalso; lra);
  rewrite ?E1, ?E2, ?E3, ?E4, ?E5, ?E6, ?E7, ?E8; lra.
Qed.

Lemma calculateIssueScore_open repo :
  open_issues_count repo <> 0%N ->
  calculateIssueScore repo =
  Qmin (issueBase (ofN (goodFirstIssues repo) / ofN (open_issues_count repo))
        + Qmin (ofN (open_issues_count repo) / 20) 0.1) 1.0.
Proof.
  intros H. unfold calculateIssueScore, issueBase.
  destruct (N.eqb_spec (open_issues_count repo) 0); [contradiction|reflexivity].
Qed.

(** X7: the issue score never falls when good first issues are added; it is
    1.0 as soon as one open issue in ten is a good first issue; and a
    repository with open issues but no good first issue scores below the 0.5
    of a repository without any open issue. *)
Theorem calculateIssueScore_rewards_good_first_issues :
  forall repo,
    (forall g g', (g <= g')%N ->
       calculateIssueScore (withGoodFirstIssues repo g)
       <= calculateIssueScore (withGoodFirstIssues repo g')) /\
    (open_issues_count repo = 0%N -> calculateIssueScore repo == 0.5) /\
    (open_issues_count repo <> 0%N -> goodFirstIssues repo = 0%N ->
       calculateIssueScore repo < 0.5) /\
    (open_issues_count repo <> 0%N ->
     (open_issues_count repo <= 10 * goodFirstIssues repo)%N ->
       calculateIssueScore repo == 1).
Proof.
  intros repo. split; [|split; [|split]].
  - intros g g' Hle.
    destruct (N.eq_dec (open_issues_count repo) 0) as [E|E].
    + unfold calculateIssueScore. simpl. rewrite E. simpl. lra.
    + rewrite !calculateIssueScore_open by exact E. simpl.
      apply Q.min_le_compat_r.
      pose proof (issueBase_mono _ _
                    (ofN_div_le g g' (ofN (open_issues_count repo)) Hle
                       (ofN_nonneg _))).
      lra.
  - intros E. unfold calculateIssueScore. rewrite E. reflexivity.
  - intros E Hg. rewrite calculateIssueScore_open by exact E. rewrite Hg.
    assert (Hd : ofN 0 / ofN (open_issues_count repo) == 0)
      by (unfold Qdiv; change (ofN 0) with 0; lra).
    assert (Hb : issueBase (ofN 0 / ofN (open_issues_count repo)) == 0.2).
    { unfold issueBase.
      destruct (Qleb_cases 0.1 (ofN 0 / ofN (open_issues_count repo))) as [[E1 ?]|[E1 ?]];
      destruct (Qleb_cases 0.05 (ofN 0 / ofN (open_issues_count repo))) as [[E2 ?]|[E2 ?]];
      destruct (Qleb_cases 0.02 (ofN 0 / ofN (open_issues_count repo))) as [[E3 ?]|[E3 ?]];
      destruct (Qltb_cases 0 (ofN 0 / ofN (open_issues_count repo))) as [[E4 ?]|[E4 ?]];
      try (exfalso; lra); rewrite ?E1, ?E2, ?E3, ?E4; lra. }
    eapply Qle_lt_trans; [apply Q.le_min_l|].
    pose proof (Q.le_min_r (ofN (open_issues_count repo) / 20) 0.1). lra.
  - intros E Hg. rewrite calculateIssueScore_open by exact E.
    assert (Hpos : 0 < ofN (open_issues_count repo)).
    { unfold ofN. change 0 with (inject_Z 0). rewrite <- Zlt_Qlt. lia. }
    assert (Hd : 0.1 <= ofN (goodFirstIssues repo) / ofN (open_issues_count repo)).
    { apply Qle_shift_div_l; [exact Hpos|].
      assert (ofN (open_issues_count repo) <= 10 * ofN (goodFirstIssues repo)).
      { unfold ofN. change 10 with (inject_Z 10).
        rewrite <- inject_Z_mult, <- Zle_Qle. lia. }
      lra. }
    assert (Hb : issueBase (ofN (goodFirstIssues repo) / ofN (open_issues_count repo))
                 == 1.0).
    { unfold issueBase. apply Qle_bool_iff in Hd. rewrite Hd. reflexivity. }
    assert (0 <= Qmin (ofN (open_issues_count repo) / 20) 0.1).
    { apply Qmin_nonneg; [apply Qdiv_nonneg; [apply ofN_nonneg|lra]|lra]. }
    rewrite Qmin_const_r by lra. reflexivity.
Qed.

Lemma calculateIssueScore_rewards_good_first_issues_witness :
  calculateIssueScore (withGoodFirstIssues eagerRepo 0)
  <= calculateIssueScore (withGoodFirstIssues eagerRepo 4) /\
  calculateIssueScore sampleRepo == 0.5 /\
  calculateIssueScore (withGoodFirstIssues eagerRepo 0) < 0.5 /\
  calculateIssueScore eagerRepo == 1.
Proof.
  destruct (calculateIssueScore_rewards_good_first_issues eagerRepo)
    as (Hm & _ & _ & H1).
  destruct (calculateIssueScore_rewards_good_first_issues sampleRepo)
    as (_ & H0 & _).
  destruct (calculateIssueScore_rewards_good_first_issues
              (withGoodFirstIssues eagerRepo 0)) as (_ & _ & Hlow & _).
  split; [apply Hm; lia|]. split; [apply H0; reflexivity|].
  split; [apply Hlow; [discriminate|reflexivity]|].
  apply H1; [discriminate|]. vm_compute. discriminate.
Defined.

Lemma Qmin_one_iff x : Qmin x 1.0 == 1 <-> 1 <= x.
Proof.
  split; intros H.
  - pose proof (Q.le_min_l x 1.0). lra.
  - rewrite Qmin_const_r by lra. reflexivity.
Qed.

Lemma ofN_ge_iff n k : (0 < k)%Z ->
  (1 <= ofN n / inject_Z k <-> (k <= Z.of_N n)%Z).
Proof.
  intros Hk.
  assert (Hq : 0 < inject_Z k) by (change 0 with (inject_Z 0); now rewrite <- Zlt_Qlt).
  unfold ofN. split; intros H.
  - apply (Qmult_le_compat_r _ _ (inject_Z k)) in H; [|lra].
    assert (E : inject_Z (Z.of_N n) / inject_Z k * inject_Z k == inject_Z (Z.of_N n))
      by (field; lra).
    rewrite E in H. rewrite Zle_Qle. lra.
  - apply Qle_shift_div_l; [exact Hq|]. rewrite Zle_Qle in H. lra.
Qed.

(** X8: the contributor score lies in [0,1], never falls when forks or stars
    grow, and is 1 exactly for repositories with at least 100 forks and at
    least 1000 stars. *)
Theorem calculateContributorScore_saturates :
  forall repo,
    0 <= calculateContributorScore repo <= 1 /\
    (forall f f', (f <= f')%N ->
       calculateContributorScore (withForks repo f)
       <= calculateContributorScore (withForks repo f')) /\
    (forall n n', (n <= n')%N ->
       calculateContributorScore (withStars repo n)
       <= calculateContributorScore (withStars repo n')) /\
    (calculateContributorScore repo == 1 <->
     (100 <= forks_count repo)%N /\ (1000 <= stargazers_count repo)%N).
Proof.
  intros repo. split; [apply calculateContributorScore_bounds|].
  split; [|split].
  - intros f f' H. unfold calculateContributorScore. simpl.
    pose proof (Q.min_le_compat_r _ _ 1.0 (ofN_div_le f f' 100 H ltac:(lra))). lra.
  - intros n n' H. unfold calculateContributorScore. simpl.
    pose proof (Q.min_le_compat_r _ _ 1.0 (ofN_div_le n n' 1000 H ltac:(lra))). lra.
  - unfold calculateContributorScore.
    pose proof (Q.le_min_r (ofN (forks_count repo) / 100) 1.0) as Hf.
    pose proof (Q.le_min_r (ofN (stargazers_count repo) / 1000) 1.0) as Hs.
    pose proof (Qmin_one_iff (ofN (forks_count repo) / 100)) as Hf1.
    pose proof (Qmin_one_iff (ofN (stargazers_count repo) / 1000)) as Hs1.
    pose proof (ofN_ge_iff (forks_count repo) 100 ltac:(lia)) as Hf2.
    pose proof (ofN_ge_iff (stargazers_count repo) 1000 ltac:(lia)) as Hs2.
    change (inject_Z 100) with 100 in Hf2. change (inject_Z 1000) with 1000 in Hs2.
    split.
    + intros H.
      assert (Qmin (ofN (forks_count repo) / 100) 1.0 == 1) by lra.
      assert (Qmin (ofN (stargazers_count repo) / 1000) 1.0 == 1) by lra.
      split; [apply Hf1, Hf2 in H0|apply Hs1, Hs2 in H1]; lia.
    + intros [H1 H2].
      assert (Qmin (ofN (forks_count repo) / 100) 1.0 == 1)
        by (apply Hf1, Hf2; lia).
      assert (Qmin (ofN (stargazers_count repo) / 1000) 1.0 == 1)
        by (apply Hs1, Hs2; lia).
      lra.
Qed.

Lemma calculateContributorScore_saturates_witness :
  calculateContributorScore (withForks sampleRepo 3)
  <= calculateContributorScore (withForks sampleRepo 80) /\
  calculateContributorScore (withStars (withForks sampleRepo 100) 1000) == 1.
Proof.
  destruct (calculateContributorScore_saturates sampleRepo) as (_ & Hf & _).
  destruct (calculateContributorScore_saturates (withStars (withForks sampleRepo 100) 1000))
    as (_ & _ & _ & H1).
  split; [apply Hf; lia|]. apply H1. split; vm_compute; discriminate.
Defined.

End StepScores.

Section MoreSkills.

Implicit Types (repo : RepositoryDetails) (skills extra : list NormalizedSkill).

Lemma arr_includes_app a b x :
  arr_includes (a ++ b) x = arr_includes a x || arr_includes b x.
Proof. apply existsb_app. Qed.

Lemma filter_length_le {A} (f g : A -> bool) (l : list A) :
  (forall x, f x = true -> g x = true) ->
  (length (filter f l) <= length (filter g l))%nat.
Proof.
  intros H. induction l as [|x l IH]; simpl; [lia|].
  destruct (f x) eqn:E.
  - rewrite (H x E). simpl. lia.
  - destruct (g x); simpl; lia.
Qed.

Lemma ofNat_le a b : (a <= b)%nat -> ofNat a <= ofNat b.
Proof. intros H. unfold ofNat. rewrite <- Zle_Qle. lia. Qed.

Lemma isEmpty_app_l {A} (a b : list A) : isEmpty a = false -> isEmpty (a ++ b) = false.
Proof. now destruct a. Qed.

Lemma calculateLanguageMatch_more repo skills extra :
  exists l1 l2,
    calculateLanguageMatch repo skills = Ok l1 /\
    calculateLanguageMatch repo (skills ++ extra) = Ok l2 /\ l1 <= l2.
Proof.
  destruct (isEmpty skills) eqn:Hs.
  { destruct (calculateLanguageMatch_Ok repo (skills ++ extra)) as (l2 & E2 & B2 & _).
    exists 0, l2. split; [|split; [exact E2|lra]].
    unfold calculateLanguageMatch. rewrite Hs, orb_true_r. reflexivity. }
  pose proof (isEmpty_app_l skills extra Hs) as Hs'.
  unfold calculateLanguageMatch. rewrite Hs, Hs'.
  destruct (language repo) as [l|]; simpl; [|exists 0, 0; repeat split; lra].
  destruct (String.eqb l EmptyString); simpl; [exists 0, 0; repeat split; lra|].
  rewrite !flat_map_app, !filter_app, !map_app, !arr_includes_app, !length_app.
  destruct (arr_includes
              (map (fun skill => toLowerCase (normalized skill))
                 (filter (fun skill => Category_eqb (skill_category skill) Skills.language)
                    skills)) (toLowerCase l));
    destruct (arr_includes
                (map (fun skill => toLowerCase (normalized skill))
                   (filter (fun skill => Category_eqb (skill_category skill) Skills.language)
                      extra)) (toLowerCase l));
    destruct (arr_includes (map toLowerCase (filter isLanguage (flat_map expanded skills)))
                (toLowerCase l));
    destruct (arr_includes (map toLowerCase (filter isLanguage (flat_map expanded extra)))
                (toLowerCase l));
    destruct (length
                (filter (fun e => includes e (toLowerCase l) || includes (toLowerCase l) e)
                   (flat_map expanded skills)));
    destruct (length
                (filter (fun e => includes e (toLowerCase l) || includes (toLowerCase l) e)
                   (flat_map expanded extra)));
    simpl; eexists; eexists; (split; [reflexivity|]); (split; [reflexivity|]); lra.
Qed.

Lemma skillWords_app skills extra :
  skillWords (skills ++ extra) = (skillWords skills ++ skillWords extra)%list.
Proof. unfold skillWords. now rewrite flat_map_app, map_app. Qed.

Lemma calculateTopicMatch_more repo skills extra :
  exists t1 t2,
    calculateTopicMatch repo skills = Ok t1 /\
    calculateTopicMatch repo (skills ++ extra) = Ok t2 /\ t1 <= t2.
Proof.
  destruct (isEmpty skills) eqn:Hs.
  { destruct (calculateTopicMatch_Ok repo (skills ++ extra)) as (t2 & E2 & B2 & _).
    destruct (calculateTopicMatch_Ok repo skills) as (t1 & E1 & B1 & _).
    exists t1, t2. split; [exact E1|]. split; [exact E2|].
    assert (t1 = 0); [|subst; lra].
    unfold calculateTopicMatch in E1. rewrite Hs in E1.
    destruct (topics repo) as [ts|]; simpl in E1; [|congruence].
    rewrite orb_true_r in E1. congruence. }
  pose proof (isEmpty_app_l skills extra Hs) as Hs'.
  unfold calculateTopicMatch. rewrite Hs, Hs'.
  destruct (topics repo) as [ts|]; simpl; [|exists 0, 0; repeat split; lra].
  destruct (isEmpty ts); simpl; [exists 0, 0; repeat split; lra|].
  eexists. eexists. split; [reflexivity|]. split; [reflexivity|].
  apply Q.min_le_compat_r.
  apply Qmult_le_compat_r; [|lra].
  unfold Qdiv. apply Qmult_le_compat_r.
  - apply ofNat_le, filter_length_le. intros topic H.
    rewrite skillWords_app, existsb_app, H. reflexivity.
  - apply Qinv_le_0_compat, ofNat_nonneg.
Qed.

(** X9: adding skills to the user's list never lowers the language match
    or the topic match of a repository. *)
Theorem more_skills_never_lower_language_or_topic_match :
  forall repo skills extra,
    exists l1 l2 t1 t2,
      calculateLanguageMatch repo skills = Ok l1 /\
      calculateLanguageMatch repo (skills ++ extra) = Ok l2 /\
      l1 <= l2 /\
      calculateTopicMatch repo skills = Ok t1 /\
      calculateTopicMatch repo (skills ++ extra) = Ok t2 /\
      t1 <= t2.
Proof.
  intros repo skills extra.
  destruct (calculateLanguageMatch_more repo skills extra) as (l1 & l2 & ? & ? & ?).
  destruct (calculateTopicMatch_more repo skills extra) as (t1 & t2 & ? & ? & ?).
  exists l1, l2, t1, t2. auto 10.
Qed.

End MoreSkills.

Section Explanations.

Implicit Types (rt : Runtime) (repo : RepositoryDetails) (s : RepositoryScore).

Lemma concat_nonempty sep p ps :
  p <> EmptyString -> String.concat sep (p :: ps) <> EmptyString.
Proof.
  intros Hp. destruct p as [|c p]; [contradiction|].
  destruct ps; simpl; discriminate.
Qed.

Lemma explanationPhrases_nonempty repo s p :
  In p (explanationPhrases repo s) -> p <> EmptyString.
Proof.
  unfold explanationPhrases.
  destruct (0.5 <? languageMatch (breakdown s)), (0.5 <? topicMatch (breakdown s)),
    (0.7 <? starsScore (breakdown s)), (0.7 <? activityScore (breakdown s)),
    (0.6 <? issueScore (breakdown s)); simpl;
    intuition (subst; discriminate).
Qed.

(** X10: the explanation is never the empty string, and is the fixed
    sentence when no sub-score is notable; for a score that [scoreRepository]
    returned, the phrase on community interest is never part of it (the stars
    score stops at 0.7, the phrase needs more), and the phrase on recent
    activity is part of it exactly when the last activity is at most 30 days
    old. *)
Theorem getScoringExplanation_phrases :
  (forall repo s,
     getScoringExplanation repo s <> EmptyString /\
     (explanationPhrases repo s = [] ->
      getScoringExplanation repo s = "Standard repository metrics") /\
     (explanationPhrases repo s <> [] ->
      getScoringExplanation repo s = String.concat ", " (explanationPhrases repo s)))
  /\
  (forall rt repo skills options s,
     scoreRepository rt repo skills options = Ok s ->
     ~ In (phraseStars repo) (explanationPhrases repo s) /\
     (In phraseActive (explanationPhrases repo s) <-> idleDays rt repo <= 30)).
Proof.
  split.
  - intros repo s. unfold getScoringExplanation.
    destruct (explanationPhrases repo s) as [|p ps] eqn:E.
    + simpl. split; [discriminate|]. split; [reflexivity|].
      intros H. now contradiction H.
    + assert (Hp : p <> EmptyString).
      { apply (explanationPhrases_nonempty repo s). rewrite E. now left. }
      pose proof (concat_nonempty ", " p ps Hp) as Hc.
      destruct (String.eqb_spec (String.concat ", " (p :: ps)) EmptyString) as [H|_];
        [contradiction|].
      split; [exact Hc|]. split; [discriminate|]. intros _. reflexivity.
  - intros rt repo skills options s Hs.
    destruct (scoreRepository_Ok rt repo skills options)
      as (rel & qual & opp & bonus & modeP & lm & tm & rm & doc & ca & ir & dh & rq & sm
          & _ & _ & _ & _ & _ & _ & _ & _ & _ & _ & _ & _ & _ & _ & Hs').
    rewrite Hs' in Hs. injection Hs as <-.
    unfold explanationPhrases.
    cbn [breakdown languageMatch topicMatch starsScore activityScore issueScore].
    pose proof (calculateStarsScore_bounds (stargazers_count repo)) as [_ Hstars].
    destruct (Qltb_cases 0.7 (calculateStarsScore (stargazers_count repo)))
      as [[_ Hlt]|[-> _]]; [exfalso; lra|].
    pose proof (calculateActivityScore_cases rt repo) as Hact.
    destruct (Qltb_cases 0.7 (calculateActivityScore rt repo)) as [[-> Ha]|[-> Ha]].
    + assert (Hd : idleDays rt repo <= 30).
      { destruct Hact as [[? E]|[[? E]|[[? E]|[[? E]|[[? E]|[? E]]]]]];
          rewrite E in Ha; lra. }
      destruct (0.5 <? lm), (0.5 <? tm), (0.6 <? calculateIssueScore repo);
        simpl; unfold phraseStars, phraseActive, phraseLanguage, phraseTopic,
                 phraseIssues; simpl;
        (split; [intuition discriminate|split; [intros _; exact Hd|tauto]]).
    + assert (Hd : ~ idleDays rt repo <= 30).
      { intros Hd. destruct Hact as [[? E]|[[? E]|[[? E]|[[? E]|[[? E]|[? E]]]]]];
          rewrite E in Ha; lra. }
      destruct (0.5 <? lm), (0.5 <? tm), (0.6 <? calculateIssueScore repo);
        simpl; unfold phraseStars, phraseActive, phraseLanguage, phraseTopic,
                 phraseIssues; simpl;
        (split; [intuition discriminate
                |split; [intuition discriminate|intros H; contradiction]]).
Qed.

Lemma getScoringExplanation_phrases_witness :
  exists s,
    scoreRepository (sampleRuntime (1010 * day)) sampleRepo sampleSkills defaultOptions
    = Ok s /\
    In phraseActive (explanationPhrases sampleRepo s).
Proof.
  destruct getScoringExplanation_phrases as (_ & H).
  destruct (scoreRepository (sampleRuntime (1010 * day)) sampleRepo sampleSkills
              defaultOptions) as [s|] eqn:E; [|vm_compute in E; discriminate E].
  exists s. split; [reflexivity|].
  apply (H _ _ _ _ _ E). vm_compute. discriminate.
Defined.

End Explanations.

(* ================================================================== *)
(** * Shuffling within bands *)
(* ================================================================== *)

Section CloseScores.

Lemma shuffle_single rt i x : shuffle rt i [x] = [x].
Proof. apply Permutation_length_1_inv. symmetry. apply shuffle_perm. Qed.

Lemma randomizeFrom_spaced rt rest : forall i x,
  spacedOut (x :: rest) = true ->
  randomizeFrom rt i (final (score x)) [x] rest = x :: rest.
Proof.
  induction rest as [|y rest IH]; intros i x H.
  - simpl. apply shuffle_single.
  - cbn [spacedOut] in H. apply andb_true_iff in H as [Hc Hs].
    apply negb_true_iff in Hc. unfold closeTo in Hc.
    cbn [randomizeFrom]. rewrite Hc, shuffle_single, IH by exact Hs. reflexivity.
Qed.

Lemma closeTo_zero c y : c == 0 -> closeTo c y = false.
Proof.
  intros H. unfold closeTo, withinThreePercent.
  apply Qeq_bool_iff in H. now rewrite H.
Qed.

Lemma spacedOut_zero l :
  (forall x, In x l -> final (score x) == 0) -> spacedOut l = true.
Proof.
  induction l as [|x [|y l] IH]; intros H; try reflexivity.
  cbn [spacedOut]. rewrite closeTo_zero by (apply H; now left).
  apply IH. intros z Hz. apply H. now right.
Qed.

(** X11: a ranked list in which no entry is within 3% of the entry before it
    comes out of [randomizeCloseScores] unchanged, whatever the random
    comparator does: every band is a single entry. Entries with final score 0
    are never in a band with anything (the relative difference divides by 0),
    so a list of zero scores comes out unchanged too. *)
Theorem randomizeCloseScores_leaves_spaced_scores_alone :
  forall rt l,
    (spacedOut l = true -> randomizeCloseScores rt l = l) /\
    ((forall x, In x l -> final (score x) == 0) -> randomizeCloseScores rt l = l).
Proof.
  intros rt l.
  assert (H : spacedOut l = true -> randomizeCloseScores rt l = l).
  { destruct l as [|x rest]; [reflexivity|]. intros H.
    apply (randomizeFrom_spaced rt rest 0%nat x H). }
  split; [exact H|]. intros Hz. apply H, spacedOut_zero, Hz.
Qed.

Lemma randomizeCloseScores_leaves_spaced_scores_alone_witness :
  spacedOut [scoredAt sampleRepo 0.9; scoredAt bareRepo 0.5; scoredAt eagerRepo 0] = true /\
  randomizeCloseScores (reversingRuntime 0)
    [scoredAt sampleRepo 0.9; scoredAt bareRepo 0.5; scoredAt eagerRepo 0]
  = [scoredAt sampleRepo 0.9; scoredAt bareRepo 0.5; scoredAt eagerRepo 0].
Proof.
  split; [reflexivity|].
  destruct (randomizeCloseScores_leaves_spaced_scores_alone (reversingRuntime 0)
              [scoredAt sampleRepo 0.9; scoredAt bareRepo 0.5; scoredAt eagerRepo 0])
    as [H _].
  apply H. reflexivity.
Defined.

Lemma insertDesc_perm key x l : Permutation (insertDesc key x l) (x :: l).
Proof.
  induction l as [|y l IH]; simpl; [reflexivity|].
  destruct (key x <? key y); [|reflexivity].
  rewrite IH. apply perm_swap.
Qed.

Lemma sortDesc_perm key l : Permutation (sortDesc key l) l.
Proof.
  induction l as [|x l IH]; simpl; [reflexivity|].
  rewrite insertDesc_perm. now constructor.
Qed.

Lemma insertDesc_sorted key x l :
  descendingBy Qle key l -> descendingBy Qle key (insertDesc key x l).
Proof.
  unfold descendingBy.
  induction l as [|y l IH]; intros H; simpl.
  - constructor; constructor.
  - apply StronglySorted_inv in H as [Hs Hy].
    destruct (Qltb_cases (key x) (key y)) as [[-> Hlt]|[-> Hle]].
    + constructor; [apply IH, Hs|].
      apply Forall_forall. intros z Hz.
      apply (Permutation_in z (insertDesc_perm key x l)) in Hz.
      destruct Hz as [<-|Hz]; [lra|].
      rewrite Forall_forall in Hy. now apply Hy.
    + constructor; [now constructor|].
      constructor; [exact Hle|].
      rewrite Forall_forall in Hy |- *. intros z Hz.
      specialize (Hy z Hz). lra.
Qed.

Lemma sortDesc_sorted key l : descendingBy Qle key (sortDesc key l).
Proof.
  induction l as [|x l IH]; simpl; [constructor|].
  apply insertDesc_sorted, IH.
Qed.

Lemma insertByScore_insertDesc x l : insertByScore x l = insertDesc keyFinal x l.
Proof.
  induction l as [|y l IH]; simpl; [reflexivity|].
  unfold keyFinal at 1 2. now rewrite IH.
Qed.

Lemma sortByScore_sortDesc l : sortByScore l = sortDesc keyFinal l.
Proof.
  induction l as [|x l IH]; simpl; [reflexivity|].
  now rewrite IH, insertByScore_insertDesc.
Qed.

(** The first entry of a sorted list has the highest key. *)
Lemma descending_head {K} (le : K -> K -> Prop) (key : ScoredRepo -> K) h t x :
  (forall k, le k k) ->
  descendingBy le key (h :: t) -> In x (h :: t) -> le (key x) (key h).
Proof.
  intros Hrefl H Hin. apply StronglySorted_inv in H as [_ H].
  destruct Hin as [<-|Hin]; [apply Hrefl|].
  rewrite Forall_forall in H. now apply H.
Qed.

Lemma closeTo_near c y :
  0 <= c -> closeTo c y = true -> 0.97 * c <= final (score y).
Proof.
  unfold closeTo, withinThreePercent. intros Hc H.
  destruct (Qeq_bool c 0) eqn:E; [discriminate|].
  assert (Hnz : ~ c == 0).
  { intros Hz. apply Qeq_bool_iff in Hz. congruence. }
  apply Qle_bool_iff in H.
  assert (Hpos : 0 < c) by (apply Qle_lteq in Hc as [?|Hz]; [assumption|]; now symmetry in Hz).
  assert (Habs : Qabs (final (score y) - c) <= 0.03 * c).
  { setoid_replace (Qabs (final (score y) - c))
      with (Qabs (final (score y) - c) / c * c) by (field; exact Hnz).
    apply Qmult_le_compat_r; [exact H|lra]. }
  apply Qabs_Qle_condition in Habs as [Hlo _]. lra.
Qed.

Lemma randomizeFrom_head rt rest : forall i c g,
  g <> [] ->
  exists h t,
    randomizeFrom rt i c g rest = h :: t /\
    (In h g \/ (In h rest /\ closeTo c h = true)).
Proof.
  assert (Hshuffle : forall i g, g <> [] ->
            exists h t, shuffle rt i g = h :: t /\ In h g).
  { intros i g Hg. destruct (shuffle rt i g) as [|h t] eqn:E.
    - pose proof (shuffle_perm rt i g) as P. rewrite E in P.
      apply Permutation_nil in P. contradiction.
    - exists h, t. split; [reflexivity|].
      apply (Permutation_in h (shuffle_perm rt i g)). rewrite E. now left. }
  induction rest as [|x rest IH]; intros i c g Hg; cbn [randomizeFrom].
  - destruct (Hshuffle i g Hg) as (h & t & E & Hin). eauto.
  - destruct (withinThreePercent _ _) eqn:W.
    + destruct (IH i c (g ++ [x])%list) as (h & t & E & Hin).
      { destruct g; discriminate. }
      exists h, t. split; [exact E|].
      destruct Hin as [Hin|[Hin Hc]].
      * apply in_app_or in Hin as [Hin|[<-|[]]]; [now left|].
        right. split; [now left|exact W].
      * right. split; [now right|exact Hc].
    + destruct (Hshuffle i g Hg) as (h & t & E & Hin).
      rewrite E. simpl. eauto.
Qed.

(** X12: whatever the random comparator does, the entry that ends up first
    in the ranked list (sorted, then shuffled within bands) has a final score
    of at least 97% of every other final score: the top band only holds
    entries within 3% of the best score. Final scores are not negative. *)
Theorem first_ranked_is_within_three_percent_of_the_best :
  forall rt scored,
    scored <> [] ->
    (forall x, In x scored -> 0 <= final (score x)) ->
    exists h t,
      randomizeCloseScores rt (sortByScore scored) = h :: t /\
      In h scored /\
      forall x, In x scored -> 0.97 * final (score x) <= final (score h).
Proof.
  intros rt scored Hne Hpos.
  pose proof (sortByScore_perm scored) as P.
  pose proof (sortDesc_sorted keyFinal scored) as S.
  rewrite <- sortByScore_sortDesc in S.
  destruct (sortByScore scored) as [|m rest] eqn:E.
  { apply Permutation_nil in P. contradiction. }
  assert (Hm : forall x, In x scored -> final (score x) <= final (score m)).
  { intros x Hx. apply (descending_head Qle keyFinal m rest x Qle_refl S).
    apply (Permutation_in x (Permutation_sym P) Hx). }
  assert (Hm0 : 0 <= final (score m)).
  { apply Hpos, (Permutation_in m P). now left. }
  cbn [randomizeCloseScores].
  destruct (randomizeFrom_head rt rest 0%nat (final (score m)) [m])
    as (h & t & Eh & Hin); [discriminate|].
  exists h, t. split; [exact Eh|].
  assert (Hh : In h (m :: rest)).
  { destruct Hin as [[<-|[]]|[Hin _]]; [now left|now right]. }
  split; [apply (Permutation_in h P Hh)|].
  intros x Hx. specialize (Hm x Hx).
  destruct Hin as [[<-|[]]|[_ Hc]]; [lra|].
  apply closeTo_near in Hc; [lra|exact Hm0].
Qed.

Lemma first_ranked_is_within_three_percent_of_the_best_witness :
  exists h t,
    randomizeCloseScores (reversingRuntime 0)
      (sortByScore [scoredAt bareRepo 0.5; scoredAt sampleRepo 0.98; scoredAt eagerRepo 1])
    = h :: t /\
    0.97 * final (score (scoredAt eagerRepo 1)) <= final (score h).
Proof.
  destruct (first_ranked_is_within_three_percent_of_the_best (reversingRuntime 0)
              [scoredAt bareRepo 0.5; scoredAt sampleRepo 0.98; scoredAt eagerRepo 1])
    as (h & t & E & _ & H).
  - discriminate.
  - intros x [<-|[<-|[<-|[]]]]; vm_compute; discriminate.
  - exists h, t. split; [exact E|]. apply H. right. right. now left.
Defined.

End CloseScores.

(* ================================================================== *)
(** * The search route: pre-filter, rank, sort, paginate *)
(* ================================================================== *)

Section SearchRoute.

Lemma descendingBy_impl {A K K'} (le : K -> K -> Prop) (le' : K' -> K' -> Prop)
  (key : A -> K) (key' : A -> K') (l : list A) :
  (forall a b, le (key b) (key a) -> le' (key' b) (key' a)) ->
  descendingBy le key l -> descendingBy le' key' l.
Proof.
  intros Himp. unfold descendingBy. induction 1 as [|a l Hs IH Hf]; constructor.
  - exact IH.
  - rewrite Forall_forall in Hf |- *. intros b Hb. apply Himp, Hf, Hb.
Qed.

(** X13: [sortRepositories] rearranges the scored repositories, without
    adding or losing any, in descending order of the requested criterion: the
    star count for 'stars', the time of the last update for 'activity', the
    opportunity score for 'opportunity', and the final score (not the
    relevance score) for 'relevance' and for every other string. *)
Theorem sortRepositories_orders_by_the_requested_key :
  forall scoredRepos sort,
    Permutation (sortRepositories scoredRepos sort) scoredRepos /\
    (sort = "stars" ->
     descendingBy N.le stars (sortRepositories scoredRepos sort)) /\
    (sort = "activity" ->
     descendingBy Z.le (fun x => updated_at (repo x))
       (sortRepositories scoredRepos sort)) /\
    (sort = "opportunity" ->
     descendingBy Qle (fun x => opportunity (score x))
       (sortRepositories scoredRepos sort)) /\
    (sort <> "stars" -> sort <> "activity" -> sort <> "opportunity" ->
     descendingBy Qle (fun x => final (score x))
       (sortRepositories scoredRepos sort) /\
     sortRepositories scoredRepos sort = sortByScore scoredRepos).
Proof.
  intros scoredRepos sort. unfold sortRepositories.
  split; [apply sortDesc_perm|].
  pose proof (sortDesc_sorted (sortKey sort) scoredRepos) as S.
  split; [|split; [|split]].
  - intros ->. change (sortKey "stars") with keyStars in *.
    revert S. apply descendingBy_impl. intros a b.
    unfold keyStars, ofN, stars. rewrite <- Zle_Qle. lia.
  - intros ->. change (sortKey "activity") with keyActivity in *.
    revert S. apply descendingBy_impl. intros a b.
    unfold keyActivity. now rewrite <- Zle_Qle.
  - intros ->. exact S.
  - intros H1 H2 H3.
    assert (E : sortKey sort = keyFinal).
    { unfold sortKey.
      destruct (String.eqb_spec sort "stars"); [contradiction|].
      destruct (String.eqb_spec sort "activity"); [contradiction|].
      destruct (String.eqb_spec sort "opportunity"); [contradiction|].
      reflexivity. }
    rewrite E in *. split; [exact S|]. symmetry. apply sortByScore_sortDesc.
Qed.

Lemma sortRepositories_orders_by_the_requested_key_witness :
  descendingBy Qle (fun x => final (score x))
    (sortRepositories
       [scoredAt bareRepo 0.5; scoredAt sampleRepo 0.98; scoredAt eagerRepo 1]
       "relevance") /\
  sortRepositories
    [scoredAt bareRepo 0.5; scoredAt sampleRepo 0.98; scoredAt eagerRepo 1] "relevance"
  = [scoredAt eagerRepo 1; scoredAt sampleRepo 0.98; scoredAt bareRepo 0.5].
Proof.
  destruct (sortRepositories_orders_by_the_requested_key
              [scoredAt bareRepo 0.5; scoredAt sampleRepo 0.98; scoredAt eagerRepo 1]
              "relevance") as (_ & _ & _ & _ & H).
  destruct H as [H _]; [discriminate|discriminate|discriminate|].
  split; [exact H|reflexivity].
Defined.

(** X14: a repository that passes the quick-wins pre-filter of the search
    route has between 1 and 500 open issues, was updated within 180 days and,
    with more than 100 open issues, has a good first issue. Scored in
    quick-wins mode at the same clock reading, it therefore never gets the
    0.6 penalty for more than 500 open issues, the 0.5 penalty for no open
    issue or the 0.3 penalty for being stale: its mode penalty is the base
    penalty for few stars, the penalty for more than 10000 stars and at most
    0.4 for its open issues, 0.7 at most. *)
Theorem quick_wins_prefilter_rules_out_heavy_penalties :
  forall rt repos repo options,
    mode options = Some quick_wins ->
    In repo (applyModeSpecificFiltering rt repos (Some quick_wins)) ->
    In repo repos /\
    (0 < open_issues_count repo <= 500)%N /\
    daysSince rt (updated_at repo) <= 180 /\
    ((100 < open_issues_count repo)%N -> (0 < goodFirstIssues repo)%N) /\
    exists p,
      calculateModePenalties rt repo options = Ok p /\
      p == unknownRepoPenalty repo + overPopularPenalty repo +
           (if (200 <? open_issues_count repo)%N then 0.4
            else if (100 <? open_issues_count repo)%N then 0.2 else 0) /\
      p <= 0.7.
Proof.
  intros rt repos repo options Hmode Hin.
  cbn [applyModeSpecificFiltering] in Hin. apply filter_In in Hin as [Hin Hk].
  unfold keepForQuickWins in Hk.
  destruct (N.eqb_spec (open_issues_count repo) 0) as [|Hopen]; [discriminate|].
  destruct (N.ltb_spec 500 (open_issues_count repo)) as [|H500]; [discriminate|].
  destruct (Qltb_cases 180 (daysSince rt (updated_at repo))) as [[E Hd]|[E Hd]];
    rewrite E in Hk; [discriminate|].
  apply orb_true_iff in Hk. rewrite N.ltb_lt, N.leb_le in Hk.
  split; [exact Hin|]. split; [lia|]. split; [exact Hd|]. split; [lia|].
  unfold calculateModePenalties. rewrite Hmode.
  eexists. split; [reflexivity|].
  rewrite E.
  destruct (N.ltb_spec 500 (open_issues_count repo)); [lia|].
  destruct (N.eqb_spec (open_issues_count repo) 0); [lia|].
  unfold unknownRepoPenalty, overPopularPenalty.
  destruct (N.ltb_spec (stargazers_count repo) 10),
    (N.ltb_spec (stargazers_count repo) 20),
    (N.ltb_spec 10000 (stargazers_count repo)),
    (N.ltb_spec 200 (open_issues_count repo)),
    (N.ltb_spec 100 (open_issues_count repo));
    try (exfalso; lia); split; lra.
Qed.

Lemma quick_wins_prefilter_rules_out_heavy_penalties_witness :
  In eagerRepo
    (applyModeSpecificFiltering (sampleRuntime (1010 * day))
       [sampleRepo; eagerRepo] (Some quick_wins)) /\
  exists p,
    calculateModePenalties (sampleRuntime (1010 * day)) eagerRepo quickWinsOptions
    = Ok p /\ p <= 0.7.
Proof.
  split; [vm_compute; now left|].
  destruct (quick_wins_prefilter_rules_out_heavy_penalties
              (sampleRuntime (1010 * day)) [sampleRepo; eagerRepo] eagerRepo
              quickWinsOptions)
    as (_ & _ & _ & _ & p & Hp & _ & Hle).
  - reflexivity.
  - vm_compute. now left.
  - exists p. split; [exact Hp|exact Hle].
Defined.

(** X15: a repository that passes the profile-building pre-filter has at
    least 50 stars, is at least 30 days old and has a description of at least
    20 characters. Scored in profile-building mode at the same clock reading,
    it never gets the 0.5 penalty for low visibility, the 0.3 penalty for a
    very new project or a base penalty for few stars: its mode penalty is at
    most 0.3 for its stars, 0.1 for being younger than 90 days and 0.2 for
    more than 50000 stars, 0.4 at most. *)
Theorem profile_building_prefilter_rules_out_heavy_penalties :
  forall rt repos repo options,
    mode options = Some profile_building ->
    In repo (applyModeSpecificFiltering rt repos (Some profile_building)) ->
    In repo repos /\
    (50 <= stargazers_count repo)%N /\
    30 <= daysSince rt (created_at repo) /\
    descriptionShorterThan repo 20 = false /\
    exists p,
      calculateModePenalties rt repo options = Ok p /\
      p == (if (stargazers_count repo <? 100)%N then 0.3
            else if (stargazers_count repo <? 200)%N then 0.1 else 0) +
           (if daysSince rt (created_at repo) <? 90 then 0.1 else 0) +
           (if (50000 <? stargazers_count repo)%N then 0.2 else 0) /\
      p <= 0.4.
Proof.
  intros rt repos repo options Hmode Hin.
  cbn [applyModeSpecificFiltering] in Hin. apply filter_In in Hin as [Hin Hk].
  unfold keepForProfileBuilding in Hk.
  destruct (N.ltb_spec (stargazers_count repo) 50) as [|H50]; [discriminate|].
  destruct (Qltb_cases (daysSince rt (created_at repo)) 30) as [[E Hd]|[E Hd]];
    rewrite E in Hk; [discriminate|].
  destruct (descriptionShorterThan repo 20) eqn:Edesc; [discriminate|].
  split; [exact Hin|]. split; [exact H50|]. split; [exact Hd|].
  split; [reflexivity|].
  unfold calculateModePenalties. rewrite Hmode.
  eexists. split; [reflexivity|].
  rewrite E.
  destruct (N.ltb_spec (stargazers_count repo) 50); [lia|].
  destruct (Qltb_cases (daysSince rt (created_at repo)) 90) as [[E9 _]|[E9 _]];
    rewrite E9;
    destruct (N.ltb_spec (stargazers_count repo) 10),
      (N.ltb_spec (stargazers_count repo) 20),
      (N.ltb_spec (stargazers_count repo) 100),
      (N.ltb_spec (stargazers_count repo) 200),
      (N.ltb_spec 50000 (stargazers_count repo));
    try (exfalso; lia); split; lra.
Qed.

Lemma profile_building_prefilter_rules_out_heavy_penalties_witness :
  In sampleRepo
    (applyModeSpecificFiltering (sampleRuntime (1010 * day))
       [sampleRepo; withStars eagerRepo 12] (Some profile_building)) /\
  exists p,
    calculateModePenalties (sampleRuntime (1010 * day)) sampleRepo
      (mkOptions (Some profile_building) None None None)
    = Ok p /\ p <= 0.4.
Proof.
  split; [vm_compute; now left|].
  destruct (profile_building_prefilter_rules_out_heavy_penalties
              (sampleRuntime (1010 * day)) [sampleRepo; withStars eagerRepo 12]
              sampleRepo (mkOptions (Some profile_building) None None None))
    as (_ & _ & _ & _ & p & Hp & _ & Hle).
  - reflexivity.
  - vm_compute. now left.
  - exists p. split; [exact Hp|exact Hle].
Defined.

Lemma tiers_perm (l : list ScoredRepo) :
  (forall x, In x l -> (50 <= stars x)%N) ->
  Permutation (filter isSmall l ++ filter isMedium l ++ filter isLarge l)%list l.
Proof.
  induction l as [|x l IH]; intros H; [reflexivity|].
  assert (IH' := IH (fun y Hy => H y (or_intror Hy))).
  assert (Hx : isSmall x || isMedium x || isLarge x = true).
  { apply tier_stars, H. now left. }
  destruct (tiers_exclusive x) as (Hs & Hm & Hl).
  cbn [filter].
  destruct (isSmall x) eqn:Es.
  - destruct (Hs eq_refl) as [-> ->]. simpl. now constructor.
  - destruct (isMedium x) eqn:Em.
    + destruct (Hm eq_refl) as [_ ->]. cbn [app].
      rewrite <- Permutation_middle. now constructor.
    + simpl in Hx. rewrite Hx.
      rewrite app_assoc, <- Permutation_middle, <- app_assoc. now constructor.
Qed.

Lemma emit_perm b : forall i s m l,
  (length s + length m + length l <= b)%nat ->
  Permutation (emit b i (s, m, l)) (s ++ m ++ l)%list.
Proof.
  induction b as [|b IH]; intros i s m l Hb; cbn [emit].
  - destruct s, m, l; simpl in Hb; try lia. reflexivity.
  - destruct (pull (pattern i) (s, m, l)) as [[x [[s' m'] l']]|] eqn:E.
    + destruct (pull_cases _ _ _ _ _ _ _ _ E)
        as [(-> & -> & ->)|[(-> & -> & ->)|(-> & -> & ->)]].
      * simpl. constructor. apply IH. simpl in Hb. lia.
      * cbn [app]. rewrite <- Permutation_middle. constructor. apply IH.
        simpl in Hb. lia.
      * rewrite app_assoc, <- Permutation_middle, <- app_assoc. constructor.
        apply IH. simpl in Hb. lia.
    + apply pull_None in E as (-> & -> & ->). reflexivity.
Qed.

Lemma mapM_scored rt skills options repos : forall scored,
  mapM (fun repo =>
          s <- scoreRepository rt repo skills options ;; Ok (mkScored repo s))
    repos = Ok scored ->
  map repo scored = repos.
Proof.
  induction repos as [|r repos IH]; intros scored; simpl.
  - intros [= <-]. reflexivity.
  - destruct (scoreRepository rt r skills options) as [s|]; [|discriminate].
    cbn [bind].
    destruct (mapM _ repos) as [ys|]; [|discriminate].
    cbn [bind]. intros [= <-]. simpl. now rewrite (IH ys eq_refl).
Qed.

(** X16: when every repository given to [scoreRepositories] has at least 50
    stars, nothing is lost to the tiers: the result has min(50, number of
    repositories) entries and, for at most 50 repositories, holds each of
    them exactly once. The repositories that pass the profile-building
    pre-filter of the search route are such a list. *)
Theorem scoreRepositories_keeps_all_with_50_stars :
  (forall rt repos skills options,
     (forall r, In r repos -> (50 <= stargazers_count r)%N) ->
     exists out,
       scoreRepositories rt repos skills options = Ok out /\
       length out = Nat.min 50 (length repos) /\
       ((length repos <= 50)%nat -> Permutation (map repo out) repos))
  /\
  (forall rt repos r,
     In r (applyModeSpecificFiltering rt repos (Some profile_building)) ->
     (50 <= stargazers_count r)%N).
Proof.
  split.
  - intros rt repos skills options Hstars.
    destruct (scoreRepositories_Ok rt repos skills options)
      as (scored & Hm & Hlen & Hin & Heq).
    eexists. split; [exact Heq|].
    set (ranked := randomizeCloseScores rt (sortByScore scored)).
    pose proof (ranked_perm rt scored) as P. fold ranked in P.
    assert (Hr : forall x, In x ranked -> (50 <= stars x)%N).
    { intros x Hx. apply (Permutation_in x P) in Hx.
      apply Hstars, (Hin x Hx). }
    pose proof (tiers_perm ranked Hr) as PT.
    assert (Hl : (length (filter isSmall ranked) + length (filter isMedium ranked)
                  + length (filter isLarge ranked))%nat = length repos).
    { rewrite <- Hlen, <- (Permutation_length P), <- (Permutation_length PT).
      rewrite !length_app. lia. }
    rewrite applyDiversityTiers_spec. unfold diversitySpec.
    split; [rewrite emit_length_exact, Hl; reflexivity|].
    intros Hle. rewrite <- (mapM_scored _ _ _ _ _ Hm).
    apply Permutation_map.
    rewrite emit_perm by lia. now rewrite PT.
  - intros rt repos r Hin.
    cbn [applyModeSpecificFiltering] in Hin. apply filter_In in Hin as [_ Hk].
    unfold keepForProfileBuilding in Hk.
    destruct (N.ltb_spec (stargazers_count r) 50); [discriminate|assumption].
Qed.

Lemma scoreRepositories_keeps_all_with_50_stars_witness :
  exists out,
    scoreRepositories (reversingRuntime (1010 * day)) [sampleRepo; eagerRepo; bareRepo]
      sampleSkills defaultOptions = Ok out /\
    length out = 3%nat /\
    Permutation (map repo out) [sampleRepo; eagerRepo; bareRepo].
Proof.
  destruct scoreRepositories_keeps_all_with_50_stars as [H _].
  destruct (H (reversingRuntime (1010 * day)) [sampleRepo; eagerRepo; bareRepo]
              sampleSkills defaultOptions) as (out & E & Hlen & Hperm).
  - intros r [<-|[<-|[<-|[]]]]; vm_compute; discriminate.
  - exists out. split; [exact E|]. split; [exact Hlen|].
    apply Hperm. simpl. lia.
Defined.






End SearchRoute.

(* ================================================================== *)
(** * The enrichment signals *)
(* ================================================================== *)

Section Enrichment.

Ltac split_ifs :=
  repeat match goal with
         | |- context [if ?c then _ else _] => destruct c
         end.

Lemma Qmin_between lo hi c x : lo <= x <= hi -> lo <= c -> lo <= Qmin c x <= hi.
Proof.
  intros [Hlo Hhi] Hc. split; [now apply Q.min_glb|].
  pose proof (Q.le_min_r c x). lra.
Qed.

Lemma Qmin_capped lo c x : lo <= x -> lo <= c -> lo <= Qmin c x <= c.
Proof.
  intros Hlo Hc. split; [now apply Q.min_glb|apply Q.le_min_l].
Qed.

Lemma calculateContentQuality_range content :
  0 <= calculateContentQuality content <= 0.9.
Proof.
  unfold calculateContentQuality. cbv zeta.
  apply Qmin_between; [|lra]. split_ifs; lra.
Qed.

Lemma estimateComplexity_range content : 0.3 <= estimateComplexity content <= 1.
Proof.
  unfold estimateComplexity. cbv zeta.
  apply Qmin_capped; [|lra]. split_ifs; lra.
Qed.

Lemma countLearningResources_range content :
  0 <= countLearningResources content <= 10.
Proof. unfold countLearningResources. cbv zeta. split_ifs; lra. Qed.

Lemma assessSetupDifficulty_range content :
  0.5 <= assessSetupDifficulty content <= 1.
Proof.
  unfold assessSetupDifficulty. cbv zeta.
  apply Qmin_capped; [|lra]. split_ifs; lra.
Qed.

Lemma analyzeReadme_signals content :
  0 <= contentQuality (analyzeReadme (Some content)) <= 0.9 /\
  0.3 <= complexity (analyzeReadme (Some content)) <= 1 /\
  0 <= learningResources (analyzeReadme (Some content)) <= 10 /\
  0.5 <= setupDifficulty (analyzeReadme (Some content)) <= 1.
Proof.
  cbn [analyzeReadme contentQuality complexity learningResources setupDifficulty].
  pose proof (calculateContentQuality_range content) as Hq.
  pose proof (estimateComplexity_range content) as Hc.
  pose proof (countLearningResources_range content) as Hl.
  pose proof (assessSetupDifficulty_range content) as Hs.
  split; [apply Qmin_between; [exact Hq|lra]|].
  split; [apply Qmin_capped; [apply Hc|lra]|].
  split; [apply Qmin_between; [exact Hl|lra]|].
  apply Qmin_capped; [apply Hs|lra].
Qed.

(** X18: whatever the README says, its analysis gives a content quality
    between 0 and 0.9 (nine indicators of 0.1 each: the cap of 1 is never
    reached), a complexity between 0.3 and 1, between 0 and 10 learning
    resources and a setup difficulty between 0.5 and 1. The signals the
    scorer reads are therefore not negative, and the analysis of a README
    that was read never equals the default block, whose setup difficulty
    and complexity are 0. *)
Theorem analyzeReadme_ranges :
  forall content,
    0 <= contentQuality (analyzeReadme (Some content)) <= 0.9 /\
    0.3 <= complexity (analyzeReadme (Some content)) <= 1 /\
    0 <= learningResources (analyzeReadme (Some content)) <= 10 /\
    0.5 <= setupDifficulty (analyzeReadme (Some content)) <= 1 /\
    readmeNonneg (analyzeReadme (Some content)) /\
    readmeNonneg (analyzeReadme None) /\
    analyzeReadme (Some content) <> analyzeReadme None.
Proof.
  intros content.
  destruct (analyzeReadme_signals content) as (Hq & Hc & Hl & Hs).
  split; [exact Hq|]. split; [exact Hc|]. split; [exact Hl|]. split; [exact Hs|].
  split; [split; [apply Hq|apply Hl]|].
  split; [split; cbn; lra|].
  intros E. rewrite E in Hs.
  cbn [analyzeReadme getDefaultReadmeAnalysis setupDifficulty] in Hs. lra.
Qed.

(** X19: the README quality score of a repository whose README was analysed
    is at most 0.85, because an analysed setup difficulty is at least 0.5. A
    README that could not be read gives the default block and the score 0.2,
    which is more than the 0.1 of a README that is empty. *)
Theorem readme_quality_of_an_analysed_readme :
  forall repo e fetched,
    enrichedData repo = Some e ->
    readmeAnalysis e = Some (analyzeReadme fetched) ->
    exists q,
      calculateReadmeQualityScore repo = Ok q /\
      match fetched with
      | None => q == 0.2
      | Some content =>
          0 <= q <= 0.85 /\ (content = EmptyString -> q == 0.1)
      end.
Proof.
  intros repo e fetched He Ha.
  unfold calculateReadmeQualityScore, opt_chain. rewrite He.
  cbn [truthy_obj negb deref bind]. rewrite Ha. cbn [truthy_obj negb deref bind].
  eexists. split; [reflexivity|].
  destruct fetched as [content|].
  - destruct (analyzeReadme_signals content) as (Hq & _ & Hl & Hs).
    set (a := analyzeReadme (Some content)) in *.
    split.
    + assert (H1 : 0 <= Qmin (learningResources a / 5) 1 <= 1).
      { split; [apply Q.min_glb; [|lra]|apply Q.le_min_r].
        apply Qle_shift_div_l; lra. }
      assert (H2 : 0 <= Qmax 0 (1 - setupDifficulty a) <= 0.5).
      { split; [apply Q.le_max_l|apply Q.max_lub; lra]. }
      split; [apply Q.min_glb; lra|].
      match goal with |- Qmin ?x 1 <= _ => pose proof (Q.le_min_l x 1) end. lra.
    + intros ->. vm_compute. reflexivity.
  - vm_compute. reflexivity.
Qed.

Lemma readme_quality_of_an_analysed_readme_witness :
  exists q,
    calculateReadmeQualityScore
      (withAnalyses sampleRepo None
         (Some (analyzeReadme (Some "# Widgets. Install with docker, see the tutorial"))))
    = Ok q /\ 0 <= q <= 0.85.
Proof.
  destruct (readme_quality_of_an_analysed_readme
              (withAnalyses sampleRepo None
                 (Some (analyzeReadme
                          (Some "# Widgets. Install with docker, see the tutorial"))))
              (mkEnriched None None None
                 (Some (analyzeReadme
                          (Some "# Widgets. Install with docker, see the tutorial"))))
              (Some "# Widgets. Install with docker, see the tutorial")
              eq_refl eq_refl)
    as (q & E & H & _).
  exists q. split; [exact E|exact H].
Defined.

Lemma prefix_app a : forall b hay,
  prefix (a ++ b) hay = true -> prefix a hay = true.
Proof.
  induction a as [|c a IH]; intros b hay H; [now destruct hay|].
  destruct hay as [|d hay]; simpl in *; [discriminate|].
  match goal with |- context [if ?t then _ else _] => destruct t end;
    [eapply IH; eassumption|discriminate].
Qed.

(** A text that contains a word contains every beginning of the word. *)
Lemma includes_app hay a b :
  includes hay (a ++ b) = true -> includes hay a = true.
Proof.
  induction hay as [|c hay IH]; cbn [includes]; intros H;
    apply orb_true_iff in H as [H|H]; apply orb_true_iff.
  - left. eapply prefix_app, H.
  - discriminate.
  - left. eapply prefix_app, H.
  - right. apply IH, H.
Qed.

Lemma fold_push_filter (f : string -> bool) l : forall acc,
  fold_left (fun acc k => if f k then (acc ++ [k])%list else acc) l acc
  = (acc ++ filter f l)%list.
Proof.
  induction l as [|k l IH]; intros acc; simpl; [now rewrite app_nil_r|].
  rewrite IH. destruct (f k); [now rewrite <- app_assoc|reflexivity].
Qed.

Lemma fold_set_add_NoDup l : forall acc,
  NoDup (acc ++ l) -> fold_left set_add l acc = (acc ++ l)%list.
Proof.
  induction l as [|x l IH]; intros acc H; simpl; [now rewrite app_nil_r|].
  unfold set_add at 2.
  destruct (arr_includes acc x) eqn:E.
  - apply arr_includes_In in E. apply NoDup_remove_2 in H.
    exfalso. apply H, in_or_app. now left.
  - rewrite IH; rewrite <- app_assoc; [reflexivity|exact H].
Qed.

Lemma techKeywords_NoDup : NoDup techKeywords.
Proof.
  assert (E : nodup string_dec techKeywords = techKeywords) by (vm_compute; reflexivity).
  rewrite <- E. apply NoDup_nodup.
Qed.

Lemma NoDup_filter {A} (f : A -> bool) (l : list A) : NoDup l -> NoDup (filter f l).
Proof.
  induction 1 as [|x l Hx Hl IH]; simpl; [constructor|].
  destruct (f x); [constructor|]; auto.
  intros Hin. apply filter_In in Hin. tauto.
Qed.

(** X20: the skill keywords of a README are the technology keywords that
    occur anywhere in the lowercased text, in the order of the keyword list
    and each once (the conversion to a set removes nothing). A keyword is
    found inside longer words too: a README that is tagged with javascript
    is always tagged with java as well. *)
Theorem extractSkillKeywords_finds_substrings :
  forall content,
    extractSkillKeywords content
    = filter (fun keyword => includes (toLowerCase content) keyword) techKeywords /\
    NoDup (extractSkillKeywords content) /\
    (In "javascript" (extractSkillKeywords content) ->
     In "java" (extractSkillKeywords content)).
Proof.
  intros content.
  assert (E : extractSkillKeywords content
              = filter (fun keyword => includes (toLowerCase content) keyword)
                  techKeywords).
  { unfold extractSkillKeywords. cbv zeta. rewrite fold_push_filter.
    cbn [app]. rewrite fold_set_add_NoDup; [reflexivity|]. cbn [app].
    apply NoDup_filter, techKeywords_NoDup. }
  split; [exact E|]. rewrite E.
  split; [apply NoDup_filter, techKeywords_NoDup|].
  rewrite !filter_In. intros [_ H]. split.
  - unfold techKeywords. simpl. tauto.
  - apply (includes_app _ "java" "script"), H.
Qed.

Lemma extractSkillKeywords_finds_substrings_witness :
  In "javascript" (extractSkillKeywords "A JavaScript library") /\
  In "java" (extractSkillKeywords "A JavaScript library").
Proof.
  assert (H : In "javascript" (extractSkillKeywords "A JavaScript library"))
    by (vm_compute; tauto).
  split; [exact H|].
  destruct (extractSkillKeywords_finds_substrings "A JavaScript library")
    as (_ & _ & Himp).
  apply Himp, H.
Defined.





Lemma Qmax_between lo hi c x : lo <= x <= hi -> c <= hi -> lo <= Qmax c x <= hi.
Proof.
  intros [Hlo Hhi] Hc. split; [|now apply Q.max_lub].
  pose proof (Q.le_max_r c x). lra.
Qed.

Lemma calculatePackageHealth_range p : 0.5 <= calculatePackageHealth p <= 1.
Proof. unfold calculatePackageHealth. cbv zeta. split_ifs; lra. Qed.

Lemma calculateSecurityScore_range p : 0.5 <= calculateSecurityScore p <= 0.8.
Proof.
  unfold calculateSecurityScore. cbv zeta. cbn [fold_left].
  apply Qmax_between; [|lra]. split_ifs; lra.
Qed.

Lemma calculateUpdateFrequency_range p : 0 <= calculateUpdateFrequency p <= 1.
Proof.
  unfold calculateUpdateFrequency. cbv zeta.
  apply Qmin_capped; [|lra].
  apply Qle_shift_div_l; [lra|]. rewrite Qmult_0_l. apply ofNat_nonneg.
Qed.

Lemma countOutdatedDependencies_range p :
  0 <= countOutdatedDependencies p
    <= 0.3 * ofNat (length (orEmptyObject (pkg_dependencies p))).
Proof.
  unfold countOutdatedDependencies. cbv zeta.
  set (n := ofNat (length (orEmptyObject (pkg_dependencies p)))).
  assert (Hn : 0 <= n) by apply ofNat_nonneg.
  split.
  - replace 0 with (inject_Z (Qfloor 0)) by reflexivity.
    rewrite <- Zle_Qle. apply Qfloor_resp_le. lra.
  - pose proof (Qfloor_le (n * 0.3)). lra.
Qed.

Lemma calculateLicenseCompatibility_range p :
  0.5 <= calculateLicenseCompatibility p <= 1.
Proof. unfold calculateLicenseCompatibility. cbv zeta. split_ifs; lra. Qed.

(** X22: when the package.json of a repository lists dependencies, its
    analysis gives a package health between 0.5 and 1, a security score
    between 0.5 and 0.8 (three packages are looked for, 0.1 each), an update
    frequency between 0 and 1, at most 30% of the dependencies as outdated
    and a license compatibility between 0.5 and 1; the dependency health
    score of the repository is then between 0.465 and 0.95. Without a
    package.json or without dependencies the default block, all zero, gives
    the score 0.2. In both cases no signal is negative. *)
Theorem dependency_health_of_an_analysed_package :
  (forall packageJson deps,
     pkg_dependencies packageJson = Some deps ->
     0.5 <= healthScore (analyzeDependencies (Some packageJson)) <= 1 /\
     0.5 <= securityScore (analyzeDependencies (Some packageJson)) <= 0.8 /\
     0 <= updateFrequency (analyzeDependencies (Some packageJson)) <= 1 /\
     dependencyCount (analyzeDependencies (Some packageJson)) == ofNat (length deps) /\
     0 <= outdatedDependencies (analyzeDependencies (Some packageJson))
       <= 0.3 * ofNat (length deps) /\
     0.5 <= licenseCompatibility (analyzeDependencies (Some packageJson)) <= 1)
  /\
  (forall repo e fetched,
     enrichedData repo = Some e ->
     dependencyAnalysis e = Some (analyzeDependencies fetched) ->
     dependencyNonneg (analyzeDependencies fetched) /\
     exists q,
       calculateDependencyHealthScore repo = Ok q /\
       (analyzeDependencies fetched = getDefaultDependencyAnalysis -> q == 0.2) /\
       (forall packageJson deps,
          fetched = Some packageJson -> pkg_dependencies packageJson = Some deps ->
          0.465 <= q <= 0.95)).
Proof.
  assert (R : forall packageJson deps,
     pkg_dependencies packageJson = Some deps ->
     0.5 <= healthScore (analyzeDependencies (Some packageJson)) <= 1 /\
     0.5 <= securityScore (analyzeDependencies (Some packageJson)) <= 0.8 /\
     0 <= updateFrequency (analyzeDependencies (Some packageJson)) <= 1 /\
     dependencyCount (analyzeDependencies (Some packageJson)) == ofNat (length deps) /\
     0 <= outdatedDependencies (analyzeDependencies (Some packageJson))
       <= 0.3 * ofNat (length deps) /\
     0.5 <= licenseCompatibility (analyzeDependencies (Some packageJson)) <= 1).
  { intros p deps Hd. unfold analyzeDependencies. rewrite Hd. cbv zeta.
    cbn [healthScore securityScore updateFrequency dependencyCount
           outdatedDependencies licenseCompatibility].
    pose proof (calculatePackageHealth_range p).
    pose proof (calculateSecurityScore_range p).
    pose proof (calculateUpdateFrequency_range p).
    pose proof (countOutdatedDependencies_range p) as Ho.
    pose proof (calculateLicenseCompatibility_range p).
    rewrite Hd in Ho. cbn [orEmptyObject] in Ho.
    split; [apply Qmin_capped; lra|].
    split; [apply Qmin_between; lra|].
    split; [apply Qmin_capped; lra|].
    split; [reflexivity|].
    split; [exact Ho|].
    apply Qmin_capped; lra. }
  split; [exact R|].
  intros repo e fetched He Ha.
  assert (Hcases : analyzeDependencies fetched = getDefaultDependencyAnalysis \/
                   exists p deps, fetched = Some p /\ pkg_dependencies p = Some deps).
  { destruct fetched as [p|]; [|now left].
    destruct (pkg_dependencies p) as [deps|] eqn:Hd; [right; eauto|].
    left. unfold analyzeDependencies. now rewrite Hd. }
  unfold calculateDependencyHealthScore, opt_chain. rewrite He.
  cbn [truthy_obj negb deref bind]. rewrite Ha. cbn [truthy_obj negb deref bind].
  destruct Hcases as [Hdef|(p & deps & -> & Hd)].
  - rewrite Hdef. split; [unfold dependencyNonneg; cbn; lra|].
    eexists. split; [reflexivity|]. split; [intros _; vm_compute; reflexivity|].
    intros p deps ->. intros Hd. exfalso.
    unfold analyzeDependencies in Hdef. rewrite Hd in Hdef.
    apply (f_equal healthScore) in Hdef. cbn in Hdef.
    pose proof (calculatePackageHealth_range p) as Hh.
    assert (Hm : 0.5 <= Qmin 1 (calculatePackageHealth p))
      by (apply Q.min_glb; lra).
    rewrite Hdef in Hm. lra.
  - destruct (R p deps Hd) as (Hh & Hs & Hu & Hc & Ho & Hl).
    set (a := analyzeDependencies (Some p)) in *.
    split; [unfold dependencyNonneg; lra|].
    eexists. split; [reflexivity|].
    assert (Hratio : 0 <= (if 0 <? dependencyCount a
                           then outdatedDependencies a / dependencyCount a else 0)
                     <= 0.3).
    { destruct (Qltb_cases 0 (dependencyCount a)) as [[-> Hpos]|[-> _]]; [|lra].
      split.
      - apply Qle_shift_div_l; [exact Hpos|lra].
      - apply Qle_shift_div_r; [exact Hpos|]. rewrite Hc. lra. }
    set (ratio := if 0 <? dependencyCount a
                  then outdatedDependencies a / dependencyCount a else 0) in *.
    assert (Hscore : 0.7 <= Qmax 0 (1 - ratio) <= 1)
      by (apply Qmax_between; lra).
    split.
    + intros Hdef. exfalso. apply (f_equal healthScore) in Hdef.
      cbn [getDefaultDependencyAnalysis healthScore] in Hdef.
      rewrite Hdef in Hh. lra.
    + intros p' deps' [= <-] _.
      match goal with |- _ <= Qmin ?x 1 <= _ =>
        pose proof (Q.le_min_l x 1);
        assert (0.465 <= Qmin x 1) by (apply Q.min_glb; lra)
      end.
      lra.
Qed.

Lemma dependency_health_of_an_analysed_package_witness :
  exists q,
    calculateDependencyHealthScore
      (withAnalyses sampleRepo (Some (analyzeDependencies (Some samplePackage))) None)
    = Ok q /\ 0.465 <= q <= 0.95.
Proof.
  destruct dependency_health_of_an_analysed_package as [_ H].
  destruct (H (withAnalyses sampleRepo
                 (Some (analyzeDependencies (Some samplePackage))) None)
              (mkEnriched None None (Some (analyzeDependencies (Some samplePackage)))
                 None)
              (Some samplePackage) eq_refl eq_refl)
    as (_ & q & E & _ & Hq).
  exists q. split; [exact E|].
  apply (Hq samplePackage
           [("lodash", "^4.17.21"); ("react", "^18.2.0"); ("moment", "^2.29.4")]);
    reflexivity.
Defined.

End Enrichment.

(* ================================================================== *)
(** * The order of the skills *)
(* ================================================================== *)

Section OrderOfSkills.

Lemma string_leb_trans a : forall b c,
  String.leb a b = true -> String.leb b c = true -> String.leb a c = true.
Proof.
  unfold String.leb.
  induction a as [|x a IH]; intros [|y b] [|z c]; simpl; try congruence.
  unfold Ascii.compare.
  destruct (N.compare_spec (N_of_ascii x) (N_of_ascii y)) as [Exy|Lxy|Gxy];
    destruct (N.compare_spec (N_of_ascii y) (N_of_ascii z)) as [Eyz|Lyz|Gyz];
    destruct (N.compare_spec (N_of_ascii x) (N_of_ascii z)) as [Exz|Lxz|Gxz];
    try congruence; try lia.
  apply IH.
Qed.

Lemma sort_insert_comm x y l :
  sort_insert x (sort_insert y l) = sort_insert y (sort_insert x l).
Proof.
  induction l as [|z l IH]; simpl.
  - destruct (String.leb x y) eqn:Exy, (String.leb y x) eqn:Eyx; try reflexivity.
    + now rewrite (String.leb_antisym _ _ Exy Eyx).
    + destruct (String.leb_total x y); congruence.
  - destruct (String.leb y z) eqn:Eyz, (String.leb x z) eqn:Exz; simpl;
      rewrite ?Eyz, ?Exz;
      destruct (String.leb x y) eqn:Exy, (String.leb y x) eqn:Eyx;
      try reflexivity;
      try (now rewrite (String.leb_antisym _ _ Exy Eyx));
      try (destruct (String.leb_total x y); congruence);
      try (rewrite (string_leb_trans _ _ _ Exy Eyz) in Exz; discriminate);
      try (rewrite (string_leb_trans _ _ _ Eyx Exz) in Eyz; discriminate).
    all: now rewrite IH.
Qed.

Lemma sort_strings_rearranged l l' :
  Permutation l l' -> sort_strings l = sort_strings l'.
Proof.
  induction 1 as [|x l l' _ IH|x y l|l l' l'' _ IH1 _ IH2]; simpl.
  - reflexivity.
  - now rewrite IH.
  - apply sort_insert_comm.
  - congruence.
Qed.

(** X23: [normalizeSkills] does not depend on the order of the skills it is
    given: the list is sorted in place before it is looked up and normalized,
    so a rearranged list gives the same result and the same memo, and after
    one call a call with a rearranged list returns what the memo holds. *)
Theorem normalizeSkills_ignores_order :
  forall redis skills skills',
    Permutation skills skills' ->
    normalizeSkills redis skills' = normalizeSkills redis skills /\
    normalizeSkills (snd (normalizeSkills redis skills)) skills'
    = normalizeSkills redis skills.
Proof.
  intros redis skills skills' P.
  assert (E : normalizeSkills redis skills' = normalizeSkills redis skills).
  { destruct skills as [|s l]; [apply Permutation_nil in P; now subst|].
    destruct skills' as [|s' l'];
      [symmetry in P; apply Permutation_nil in P; discriminate|].
    unfold normalizeSkills, getSkillNormalization, setSkillNormalization, getSkillKey.
    now rewrite (sort_strings_rearranged _ _ P). }
  split; [exact E|].
  destruct skills as [|s l]; [apply Permutation_nil in P; now subst|].
  destruct skills' as [|s' l'];
    [symmetry in P; apply Permutation_nil in P; discriminate|].
  unfold normalizeSkills, getSkillNormalization, setSkillNormalization, getSkillKey.
  rewrite <- (sort_strings_rearranged _ _ P).
  assert (Eidem : sort_strings (sort_strings (s :: l)) = sort_strings (s :: l))
    by apply sort_strings_idem.
  set (sorted := sort_strings (s :: l)) in *.
  set (key := ("skills:" ++ String.concat "," sorted)%string).
  destruct (map_get redis key) as [cached|] eqn:Hget; cbn [snd].
  - now rewrite Hget.
  - rewrite Eidem. fold key. now rewrite map_get_set_same.
Qed.

Lemma normalizeSkills_ignores_order_witness :
  normalizeSkills [] ["react"; "js"] = normalizeSkills [] ["js"; "react"].
Proof.
  apply (normalizeSkills_ignores_order [] ["js"; "react"] ["react"; "js"]).
  apply perm_swap.
Defined.

End OrderOfSkills.
